(** * HabitTracker: streak engine, period utilities and analytics

    A shallow embedding of [habit_tracker.time_utils],
    [habit_tracker.db], [habit_tracker.habit_manager],
    [habit_tracker.analytics] and [habit_tracker.auth], with the
    properties the design document states about them and further
    properties of the code.

    Layout:
    - [PyStr]       the [str] methods the code calls ([strip], [lower]);
    - [PyDatetime]  the part of Python's [datetime] the code relies on
                    (proleptic Gregorian ordinals, ISO calendar, ISO text);
    - [time_utils.py]: periodicities and periods;
    - [Db]          the two tables of [db.py] and its queries;
    - the service of [habit_manager.py];
    - [Analytics]   [analytics.py];
    - the states the service reaches, and sample data;
    - calendar periods, sequences of calls and what they keep;
    - the table of users and [auth.py];
    - the theorems. *)

From Stdlib Require Import ZArith Lia Ascii String.
From Stdlib Require OrderedTypeEx.
From stdpp Require Import base option list gmap strings sorting.

Local Open Scope Z_scope.

(** ** Errors

    The failures of the code are Python [ValueError]s, whose three
    messages are the three kinds of error of the design document, the
    store's refusal of a row that breaks a foreign key, and the
    [OverflowError] of [datetime] arithmetic that leaves the years 1
    to 9999. *)
Inductive error : Type :=
| InvalidPeriodicity   (* "Unsupported periodicity: ..." *)
| NaiveTimestamp       (* "... must be timezone-aware" *)
| NotFoundOrNotOwned   (* "Habit not found or not owned by user" *)
| IntegrityError       (* sqlite3: FOREIGN KEY constraint failed *)
| Overflow.            (* OverflowError: date value out of range *)

Inductive result (A : Type) : Type :=
| Ok (a : A)
| Err (e : error).
Arguments Ok {A} a.
Arguments Err {A} e.

Global Instance error_eq_dec : EqDecision error.
Proof. solve_decision. Defined.
Global Instance result_eq_dec {A} `{EqDecision A} : EqDecision (result A).
Proof. solve_decision. Defined.

Definition result_bind {A B} (r : result A) (k : A -> result B) : result B :=
  match r with
  | Ok a => k a
  | Err e => Err e
  end.

Notation "'try' x <- r ; k" := (result_bind r (fun x => k))
  (at level 10, x name, r at level 100, k at level 200).

(** ** Python strings

    A [str] is modelled by a [string] of code points below 256 (ASCII
    and Latin-1), which is where the literals the code compares with
    live. *)
Module PyStr.

(** [str.isspace] on the code points below 256. *)
Definition is_space (c : ascii) : bool :=
  let n := Z.of_nat (nat_of_ascii c) in
  ((9 <=? n) && (n <=? 13)) || ((28 <=? n) && (n <=? 32))
  || (n =? 133) || (n =? 160).

(** [str.lower] on one code point below 256: A-Z and the Latin-1
    capitals (all of 0xC0..0xDE but the multiplication sign). *)
Definition lower_ascii (c : ascii) : ascii :=
  let n := Z.of_nat (nat_of_ascii c) in
  if ((65 <=? n) && (n <=? 90))
     || ((192 <=? n) && (n <=? 222) && negb (n =? 215))
  then ascii_of_nat (Z.to_nat (n + 32))
  else c.

Fixpoint lower (s : string) : string :=
  match s with
  | EmptyString => EmptyString
  | String c s' => String (lower_ascii c) (lower s')
  end.

Fixpoint lstrip (s : string) : string :=
  match s with
  | EmptyString => EmptyString
  | String c s' => if is_space c then lstrip s' else s
  end.

Fixpoint rstrip (s : string) : string :=
  match s with
  | EmptyString => EmptyString
  | String c s' =>
      match rstrip s' with
      | EmptyString => if is_space c then EmptyString else String c EmptyString
      | r => String c r
      end
  end.

Definition strip (s : string) : string := rstrip (lstrip s).

(** Case-insensitive match, character by character. *)
Fixpoint eq_nocase (s t : string) : bool :=
  match s, t with
  | EmptyString, EmptyString => true
  | String a s', String b t' =>
      bool_decide (lower_ascii a = lower_ascii b) && eq_nocase s' t'
  | _, _ => false
  end.

(** A blank string: nothing but white space. *)
Fixpoint blank (s : string) : bool :=
  match s with
  | EmptyString => true
  | String c s' => is_space c && blank s'
  end.

End PyStr.

(** ** time_utils.py: periodicities *)

(** [Periodicity = Literal["daily", "weekly"]]. *)
Inductive Periodicity : Type := Daily | Weekly.

Global Instance Periodicity_eq_dec : EqDecision Periodicity.
Proof. solve_decision. Defined.

(** The string a canonical periodicity is. *)
Definition periodicity_str (p : Periodicity) : string :=
  match p with Daily => "daily" | Weekly => "weekly" end.

(** [normalize_periodicity]: [v = (value or "").strip().lower()], then
    the two membership tests, then [raise ValueError]. *)
Definition normalize_periodicity (value : string) : result Periodicity :=
  let v := PyStr.lower (PyStr.strip value) in
  if bool_decide (v = "daily") || bool_decide (v = "day") then Ok Daily
  else if bool_decide (v = "weekly") || bool_decide (v = "week") then Ok Weekly
  else Err InvalidPeriodicity.

(** The same operation as the design document words it: a
    case-insensitive match against {"daily","day"} gives daily, against
    {"weekly","week"} gives weekly, any other input fails. *)
Definition spec_normalize (value : string) : result Periodicity :=
  if PyStr.eq_nocase value "daily" || PyStr.eq_nocase value "day" then Ok Daily
  else if PyStr.eq_nocase value "weekly" || PyStr.eq_nocase value "week"
  then Ok Weekly
  else Err InvalidPeriodicity.

(** ** Python's datetime

    The calendar follows CPython's [datetime] module: a date is its
    proleptic Gregorian ordinal ([date.toordinal()], day 1 is
    0001-01-01, a Monday), [//] and [%] are floor division and its
    remainder, as [Z.div] and [Z.modulo] are.  The calendar functions
    are defined on all of [Z]; the operations that build a new date
    or datetime ([+ timedelta], [astimezone]) raise [OverflowError]
    outside [MINYEAR..MAXYEAR], as CPython does. *)
Module PyDatetime.

Definition is_leap (year : Z) : bool :=
  (year mod 4 =? 0) && (negb (year mod 100 =? 0) || (year mod 400 =? 0)).

Definition days_before_year (year : Z) : Z :=
  let y := year - 1 in
  y * 365 + y / 4 - y / 100 + y / 400.

Definition DAYS_IN_MONTH : list Z :=
  [0; 31; 28; 31; 30; 31; 30; 31; 31; 30; 31; 30; 31].

Definition DAYS_BEFORE_MONTH : list Z :=
  [0; 0; 31; 59; 90; 120; 151; 181; 212; 243; 273; 304; 334].

Definition table (t : list Z) (i : Z) : Z := nth (Z.to_nat i) t 0.

Definition days_before_month (year month : Z) : Z :=
  table DAYS_BEFORE_MONTH month
  + (if (2 <? month) && is_leap year then 1 else 0).

Definition ymd2ord (year month day : Z) : Z :=
  days_before_year year + days_before_month year month + day.

Definition DI400Y : Z := 146097.
Definition DI100Y : Z := 36524.
Definition DI4Y : Z := 1461.

(** [_ord2ymd]: the year, month and day of an ordinal. *)
Definition ord2ymd (n : Z) : Z * Z * Z :=
  let n := n - 1 in
  let n400 := n / DI400Y in
  let n := n mod DI400Y in
  let year := n400 * 400 + 1 in
  let n100 := n / DI100Y in
  let n := n mod DI100Y in
  let n4 := n / DI4Y in
  let n := n mod DI4Y in
  let n1 := n / 365 in
  let n := n mod 365 in
  let year := year + (n100 * 100 + n4 * 4 + n1) in
  if (n1 =? 4) || (n100 =? 4) then (year - 1, 12, 31)
  else
    let leapyear := (n1 =? 3) && (negb (n4 =? 24) || (n100 =? 3)) in
    let month := Z.shiftr (n + 50) 5 in
    let preceding :=
      table DAYS_BEFORE_MONTH month
      + (if (2 <? month) && leapyear then 1 else 0) in
    if n <? preceding then
      let month := month - 1 in
      let preceding :=
        preceding
        - (table DAYS_IN_MONTH month
           + (if (month =? 2) && leapyear then 1 else 0)) in
      (year, month, n - preceding + 1)
    else (year, month, n - preceding + 1).

Definition year_of (n : Z) : Z := fst (fst (ord2ymd n)).

(** [date.weekday()]: Monday is 0. *)
Definition weekday (n : Z) : Z := (n + 6) mod 7.

(** [_isoweek1monday]: the ordinal of the Monday that starts ISO
    week 1 of [year]. *)
Definition isoweek1monday (year : Z) : Z :=
  let THURSDAY := 3 in
  let firstday := ymd2ord year 1 1 in
  let firstweekday := (firstday + 6) mod 7 in
  let week1monday := firstday - firstweekday in
  if THURSDAY <? firstweekday then week1monday + 7 else week1monday.

(** [date.isocalendar()]: ISO year, ISO week number, ISO weekday. *)
Definition isocalendar (today : Z) : Z * Z * Z :=
  let year := year_of today in
  let week1monday := isoweek1monday year in
  let week := (today - week1monday) / 7 in
  let day := (today - week1monday) mod 7 in
  if week <? 0 then
    let year := year - 1 in
    let week1monday := isoweek1monday year in
    let week := (today - week1monday) / 7 in
    let day := (today - week1monday) mod 7 in
    (year, week + 1, day + 1)
  else if (52 <=? week) && (isoweek1monday (year + 1) <=? today) then
    (year + 1, 1, day + 1)
  else (year, week + 1, day + 1).

(** *** Formatting *)

Definition digit (d : Z) : ascii := ascii_of_nat (48 + Z.to_nat d).

Fixpoint dec_digits (fuel : nat) (n : Z) (acc : string) : string :=
  match fuel with
  | O => acc
  | S fuel' =>
      let acc' := String (digit (n mod 10)) acc in
      if n / 10 =? 0 then acc' else dec_digits fuel' (n / 10) acc'
  end.

Fixpoint zeros (k : nat) (s : string) : string :=
  match k with
  | O => s
  | S k' => String "0" (zeros k' s)
  end.

(** ["%0wd" % n]. *)
Definition fmt (w : nat) (n : Z) : string :=
  let ds := dec_digits (S (Z.to_nat (Z.log2 (Z.abs n)))) (Z.abs n) "" in
  if n <? 0 then String "-" (zeros (w - 1 - String.length ds) ds)
  else zeros (w - String.length ds) ds.

(** [date.isoformat()]: YYYY-MM-DD. *)
Definition date_isoformat (n : Z) : string :=
  let '(y, m, d) := ord2ymd n in
  fmt 4 y +:+ "-" +:+ fmt 2 m +:+ "-" +:+ fmt 2 d.

(** A [datetime]: the ordinal of its date, the second of the day, the
    microsecond, and [tzinfo] as the UTC offset in seconds ([None] for
    a naive value). *)
Record datetime : Type := mk_datetime {
  ordinal : Z;
  seconds : Z;
  microsecond : Z;
  tzinfo : option Z
}.

Global Instance datetime_eq_dec : EqDecision datetime.
Proof. solve_decision. Defined.

(** [datetime(year, month, day, hour, minute, second, us, tzinfo)]. *)
Definition make (year month day hour minute second us : Z)
    (tz : option Z) : datetime :=
  {| ordinal := ymd2ord year month day;
     seconds := hour * 3600 + minute * 60 + second;
     microsecond := us;
     tzinfo := tz |}.

Definition UTC : option Z := Some 0.

(** [_format_time] with [timespec='auto']. *)
Definition format_time (secs us : Z) : string :=
  let hms :=
    fmt 2 (secs / 3600) +:+ ":" +:+ fmt 2 (secs mod 3600 / 60)
    +:+ ":" +:+ fmt 2 (secs mod 60) in
  if us =? 0 then hms else hms +:+ "." +:+ fmt 6 us.

(** [_format_offset]. *)
Definition format_offset (tz : option Z) : string :=
  match tz with
  | None => ""
  | Some off =>
      let sign := if off <? 0 then "-" else "+" in
      let off := Z.abs off in
      let hhmm :=
        sign +:+ fmt 2 (off / 3600) +:+ ":" +:+ fmt 2 (off mod 3600 / 60) in
      if off mod 60 =? 0 then hhmm else hhmm +:+ ":" +:+ fmt 2 (off mod 60)
  end.

(** [datetime.isoformat()]. *)
Definition isoformat (dt : datetime) : string :=
  date_isoformat (ordinal dt) +:+ "T"
  +:+ format_time (seconds dt) (microsecond dt)
  +:+ format_offset (tzinfo dt).

(** [dt.replace(tzinfo=tz)]. *)
Definition replace_tzinfo (dt : datetime) (tz : option Z) : datetime :=
  {| ordinal := ordinal dt; seconds := seconds dt;
     microsecond := microsecond dt; tzinfo := tz |}.

(** The dates [datetime] has: [date.min], 0001-01-01, is day 1 and
    [date.max], 9999-12-31, is day [MAXORDINAL]. *)
Definition MAXORDINAL : Z := 3652059.

Definition in_range (n : Z) : bool := (1 <=? n) && (n <=? MAXORDINAL).

(** [date + timedelta(days=k)] on ordinals: [OverflowError] when the
    result is no date. *)
Definition date_add_days (n k : Z) : result Z :=
  if in_range (n + k) then Ok (n + k) else Err Overflow.

(** [dt + timedelta(days=k)]: the wall clock advances, [tzinfo] stays;
    [OverflowError] when the date leaves the window. *)
Definition add_days (dt : datetime) (k : Z) : result datetime :=
  if in_range (ordinal dt + k) then
    Ok {| ordinal := ordinal dt + k; seconds := seconds dt;
          microsecond := microsecond dt; tzinfo := tzinfo dt |}
  else Err Overflow.

(** Seconds since the start of day 0, in UTC, of an aware datetime
    whose offset is [off]. *)
Definition utc_seconds (off : Z) (dt : datetime) : Z :=
  ordinal dt * 86400 + seconds dt - off.

(** The wall clock, [us] microseconds into its second, of a zone whose
    UTC offset is [off] at the UTC instant [u]. *)
Definition wall (u off us : Z) : datetime :=
  {| ordinal := (u + off) / 86400; seconds := (u + off) mod 86400;
     microsecond := us; tzinfo := Some off |}.

(** [dt.astimezone()] for an aware [dt] whose offset is [off]: the
    same instant on the wall clock of the system's time zone.
    [localtime] gives the zone's UTC offset, in seconds, at a UTC
    instant.  CPython first takes [dt - offset], the UTC wall clock,
    then adds the zone's offset to it ([timezone.fromutc]); either
    step raises [OverflowError] when its date leaves the window. *)
Definition astimezone (localtime : Z -> Z) (off : Z) (dt : datetime)
    : result datetime :=
  let u := utc_seconds off dt in
  if in_range (u / 86400) then
    let local := wall u (localtime u) (microsecond dt) in
    if in_range (ordinal local) then Ok local else Err Overflow
  else Err Overflow.

(** The Monday of the week a date lies in. *)
Definition week_monday (n : Z) : Z := n - weekday n.

(** The ISO (week-year, week-number) pair of a date. *)
Definition iso_week (n : Z) : Z * Z :=
  let '(iso_year, iso_week, _) := isocalendar n in (iso_year, iso_week).

End PyDatetime.


(** ** time_utils.py: periods

    The functions below convert to the system's local time zone with
    [astimezone()]; the zone is the section variable [localtime], the
    UTC offset in seconds in force at a UTC instant. *)

(** [PeriodKey = Union[str, Tuple[int, int]]]. *)
Inductive PeriodKey : Type :=
| DayKey (iso_date : string)
| WeekKey (iso_year iso_week : Z).

Global Instance PeriodKey_eq_dec : EqDecision PeriodKey.
Proof. solve_decision. Defined.

(** The wall clock reading [now_local] starts from: seconds since the
    start of day 0 in UTC, and the microsecond. *)
Definition clock : Type := Z * Z.

Section TimeUtils.
Import PyDatetime.
Variable localtime : Z -> Z.

(** [datetime.now(timezone.utc)]: the reading of the system clock. *)
Definition utc_now (now : clock) : datetime :=
  {| ordinal := fst now / 86400; seconds := fst now mod 86400;
     microsecond := snd now; tzinfo := UTC |}.

(** [datetime.now(timezone.utc).astimezone()]: the reading of the
    system clock on the wall clock of the zone.  The clock is taken to
    read an instant whose UTC and local dates are dates of [datetime],
    as [datetime.now] itself needs, so that neither call raises: this
    is what [astimezone] returns for [utc_now] then. *)
Definition now_local (now : clock) : datetime :=
  wall (fst now) (localtime (fst now)) (snd now).

Definition period_key (dt : datetime) (periodicity : Periodicity)
    : result PeriodKey :=
  match tzinfo dt with
  | None => Err NaiveTimestamp
  | Some off =>
      try local <- astimezone localtime off dt;
      match periodicity with
      | Daily => Ok (DayKey (date_isoformat (ordinal local)))
      | Weekly =>
          let '(iso_year, iso_week, _iso_weekday) :=
            isocalendar (ordinal local) in
          Ok (WeekKey iso_year iso_week)
      end
  end.

Definition is_same_period (a b : datetime) (periodicity : Periodicity)
    : result bool :=
  try ka <- period_key a periodicity;
  try kb <- period_key b periodicity;
  Ok (bool_decide (ka = kb)).

Definition is_next_period (prev curr : datetime) (periodicity : Periodicity)
    : result bool :=
  match tzinfo prev, tzinfo curr with
  | Some prev_off, Some curr_off =>
      try prev_local <- astimezone localtime prev_off prev;
      try curr_local <- astimezone localtime curr_off curr;
      match periodicity with
      | Daily =>
          try next_date <- date_add_days (ordinal prev_local) 1;
          Ok (bool_decide (ordinal curr_local = next_date))
      | Weekly =>
          let '(cy, cw, _) := isocalendar (ordinal curr_local) in
          try next_local <- add_days prev_local 7;
          let '(ny, nw, _) := isocalendar (ordinal next_local) in
          Ok (bool_decide ((cy, cw) = (ny, nw)))
      end
  | _, _ => Err NaiveTimestamp
  end.

Definition is_due (last_completed_at : option datetime) (now : datetime)
    (periodicity : Periodicity) : result bool :=
  match last_completed_at with
  | None => Ok true
  | Some last =>
      try kl <- period_key last periodicity;
      try kn <- period_key now periodicity;
      Ok (negb (bool_decide (kl = kn)))
  end.

End TimeUtils.

(** ** models *)

(** [models/habit.py]. *)
Module Habit.
Record t : Type := mk {
  id : Z;
  user_id : Z;
  title : string;
  description : string;
  periodicity : string;
  created_at : PyDatetime.datetime;
  last_completed_at : option PyDatetime.datetime;
  streak : Z
}.

Global Instance habit_eq_dec : EqDecision t.
Proof. solve_decision. Defined.

Definition set_title (h : t) (v : string) : t :=
  mk (id h) (user_id h) v (description h) (periodicity h) (created_at h)
     (last_completed_at h) (streak h).
Definition set_description (h : t) (v : string) : t :=
  mk (id h) (user_id h) (title h) v (periodicity h) (created_at h)
     (last_completed_at h) (streak h).
Definition set_periodicity (h : t) (v : string) : t :=
  mk (id h) (user_id h) (title h) (description h) v (created_at h)
     (last_completed_at h) (streak h).
Definition set_last_completed_at (h : t)
    (v : option PyDatetime.datetime) : t :=
  mk (id h) (user_id h) (title h) (description h) (periodicity h)
     (created_at h) v (streak h).
Definition set_streak (h : t) (v : Z) : t :=
  mk (id h) (user_id h) (title h) (description h) (periodicity h)
     (created_at h) (last_completed_at h) v.
End Habit.

(** [models/completion_log.py]. *)
Module CompletionLog.
Record t : Type := mk {
  id : Z;
  habit_id : Z;
  completed_at : PyDatetime.datetime
}.

Global Instance log_eq_dec : EqDecision t.
Proof. solve_decision. Defined.
End CompletionLog.

(** ** db.py: the store *)
Module Db.
Import PyDatetime.

(** A TEXT column that holds a timestamp is represented by the
    datetime whose [isoformat()] the text is: the code writes such a
    column with [isoformat()] only, and [datetime.fromisoformat]
    inverts [isoformat], so reading the column back yields that
    datetime.  Two such texts compare as their [isoformat] strings. *)
Definition iso_text : Type := datetime.

(** The columns of a row of [habits], but for its primary key. *)
Record habit_cols : Type := mk_habit_cols {
  col_user_id : Z;
  col_title : string;
  col_description : string;
  col_periodicity : string;
  col_created_at : iso_text;
  col_last_completed_at : option iso_text;
  col_streak : Z
}.

(** A row of [completions]. *)
Record completion_row : Type := mk_completion_row {
  crow_id : Z;
  crow_habit_id : Z;
  crow_completed_at : iso_text
}.

Global Instance habit_cols_eq_dec : EqDecision habit_cols.
Proof. solve_decision. Defined.
Global Instance completion_row_eq_dec : EqDecision completion_row.
Proof. solve_decision. Defined.

(** The database: the ids of the registered users (the table of the
    authentication module, which the habits refer to), the table
    [habits] by primary key, the table [completions] in insertion
    order, and the two AUTOINCREMENT counters of [sqlite_sequence]. *)
Record database : Type := mk_database {
  users : gset Z;
  habits : gmap Z habit_cols;
  completions : list completion_row;
  habits_seq : Z;
  completions_seq : Z
}.

(** Code that reads and writes the store and may raise: the state
    reached when an exception is raised is kept, as a commit before
    the [raise] stays committed. *)
Definition M (A : Type) : Type := database -> result A * database.

Definition ret {A} (a : A) : M A := fun db => (Ok a, db).
Definition raise {A} (e : error) : M A := fun db => (Err e, db).
Definition bind {A B} (m : M A) (k : A -> M B) : M B :=
  fun db =>
    match m db with
    | (Ok a, db') => k a db'
    | (Err e, db') => (Err e, db')
    end.
Definition lift {A} (r : result A) : M A := fun db => (r, db).
Definition query {A} (f : database -> A) : M A := fun db => (Ok (f db), db).

(** [_parse_iso_dt]: a naive value read back is taken as UTC. *)
Definition parse_iso_dt (value : option iso_text) : option datetime :=
  match value with
  | None => None
  | Some dt =>
      match tzinfo dt with
      | None => Some (replace_tzinfo dt UTC)
      | Some _ => Some dt
      end
  end.

(** AUTOINCREMENT: one more than the largest id the table holds or
    has ever held. *)
Definition next_habit_id (db : database) : Z :=
  1 + map_fold (fun k _ acc => Z.max k acc) (habits_seq db) (habits db).

Definition next_completion_id (db : database) : Z :=
  1 + foldr (fun r acc => Z.max (crow_id r) acc) (completions_seq db)
        (completions db).

(** [INSERT INTO habits ... VALUES (?, ?, ?, ?, ?, NULL, 0)] with the
    normalized periodicity; the user must exist
    ([REFERENCES users(id)], foreign keys are on). *)
Definition insert_habit (user_id : Z) (title description periodicity : string)
    (created_at_iso : iso_text) : M Z :=
  bind (lift (normalize_periodicity periodicity)) (fun norm db =>
    if decide (user_id ∈ users db) then
      let new_id := next_habit_id db in
      let row :=
        {| col_user_id := user_id; col_title := title;
           col_description := description;
           col_periodicity := periodicity_str norm;
           col_created_at := created_at_iso;
           col_last_completed_at := None; col_streak := 0 |} in
      (Ok new_id,
       {| users := users db; habits := <[new_id := row]> (habits db);
          completions := completions db; habits_seq := new_id;
          completions_seq := completions_seq db |})
    else (Err IntegrityError, db)).

(** [UPDATE habits SET ... WHERE id = ? AND user_id = ?]. *)
Definition update_habit (habit_id user_id : Z)
    (title description periodicity : string)
    (last_completed_at_iso : option iso_text) (streak : Z) : M unit :=
  bind (lift (normalize_periodicity periodicity)) (fun norm db =>
    match habits db !! habit_id with
    | Some old =>
        if decide (col_user_id old = user_id) then
          let row :=
            {| col_user_id := col_user_id old; col_title := title;
               col_description := description;
               col_periodicity := periodicity_str norm;
               col_created_at := col_created_at old;
               col_last_completed_at := last_completed_at_iso;
               col_streak := streak |} in
          (Ok (),
           {| users := users db; habits := <[habit_id := row]> (habits db);
              completions := completions db; habits_seq := habits_seq db;
              completions_seq := completions_seq db |})
        else (Ok (), db)
    | None => (Ok (), db)
    end).

(** [SELECT * FROM habits WHERE id = ?]: the row as its id and its
    other columns. *)
Definition get_habit (habit_id : Z) : M (option (Z * habit_cols)) :=
  query (fun db => (fun c => (habit_id, c)) <$> habits db !! habit_id).

(** [INSERT INTO completions (habit_id, completed_at)]; the habit
    must exist ([REFERENCES habits(id)], foreign keys are on). *)
Definition insert_completion (habit_id : Z) (completed_at_iso : iso_text)
    : M Z :=
  fun db =>
    match habits db !! habit_id with
    | Some _ =>
        let new_id := next_completion_id db in
        (Ok new_id,
         {| users := users db; habits := habits db;
            completions :=
              completions db
              ++ [ {| crow_id := new_id; crow_habit_id := habit_id;
                      crow_completed_at := completed_at_iso |} ];
            habits_seq := habits_seq db; completions_seq := new_id |})
    | None => (Err IntegrityError, db)
    end.

(** The greater of two texts, the second on a tie ([ORDER BY ... DESC]
    compares TEXT byte by byte). *)
Definition text_max (best : option iso_text) (t : iso_text) : option iso_text :=
  match best with
  | None => Some t
  | Some b => if String.ltb (isoformat t) (isoformat b) then Some b else Some t
  end.

(** The order of two stored timestamps: that of their texts. *)
Definition text_le (a b : iso_text) : Prop :=
  String.leb (isoformat a) (isoformat b) = true.

(** [SELECT completed_at FROM completions WHERE habit_id = ?
     ORDER BY completed_at DESC LIMIT 1]. *)
Definition last_completion (habit_id : Z) (db : database)
    : option iso_text :=
  foldl text_max None
    (crow_completed_at <$>
       filter (fun r => crow_habit_id r = habit_id) (completions db)).

Definition get_last_completion (habit_id : Z) : M (option iso_text) :=
  query (last_completion habit_id).

(** [habit_row_to_model]; [row.get("periodicity") or "daily"] turns
    an empty text into "daily"; the [or datetime.now(...)] of
    [created_at] is for a text that does not parse, which a column
    written with [isoformat()] never is. *)
Definition habit_row_to_model (row : Z * habit_cols) : Habit.t :=
  let '(id, c) := row in
  {| Habit.id := id;
     Habit.user_id := col_user_id c;
     Habit.title := col_title c;
     Habit.description := col_description c;
     Habit.periodicity :=
       if bool_decide (col_periodicity c = "") then "daily"
       else col_periodicity c;
     Habit.created_at :=
       default (col_created_at c) (parse_iso_dt (Some (col_created_at c)));
     Habit.last_completed_at := parse_iso_dt (col_last_completed_at c);
     Habit.streak := col_streak c |}.

(** [DELETE FROM habits WHERE id = ? AND user_id = ?], with the
    completions of the habit ([ON DELETE CASCADE]); [rowcount > 0]. *)
Definition delete_habit (habit_id user_id : Z) : M bool :=
  fun db =>
    match habits db !! habit_id with
    | Some c =>
        if decide (col_user_id c = user_id) then
          (Ok true,
           {| users := users db;
              habits := delete habit_id (habits db);
              completions :=
                filter (fun r => crow_habit_id r <> habit_id) (completions db);
              habits_seq := habits_seq db;
              completions_seq := completions_seq db |})
        else (Ok false, db)
    | None => (Ok false, db)
    end.

(** [DELETE FROM habits WHERE user_id = ?], with the completions of
    the habits deleted. *)
Definition delete_habits_for_user (user_id : Z) : M unit :=
  fun db =>
    (Ok (),
     {| users := users db;
        habits := filter (fun kc => col_user_id (snd kc) <> user_id) (habits db);
        completions :=
          filter
            (fun r =>
               col_user_id <$> habits db !! crow_habit_id r <> Some user_id)
            (completions db);
        habits_seq := habits_seq db;
        completions_seq := completions_seq db |}).

(** [ORDER BY created_at ASC] on rows of [habits]: by the text of
    [created_at]; SQL leaves the order of rows with the same text
    open, they come by ascending id here. *)
Definition created_le (r1 r2 : Z * habit_cols) : Prop :=
  let t1 := isoformat (col_created_at (snd r1)) in
  let t2 := isoformat (col_created_at (snd r2)) in
  String.ltb t1 t2 = true \/ (t1 = t2 /\ fst r1 <= fst r2).

Global Instance created_le_dec : RelDecision created_le.
Proof. intros r1 r2. unfold created_le. cbv zeta. apply _. Defined.

(** [SELECT * FROM habits WHERE user_id = ? ORDER BY created_at ASC]. *)
Definition list_habits (user_id : Z) : M (list (Z * habit_cols)) :=
  query (fun db =>
    merge_sort created_le
      (filter (fun kc => col_user_id (snd kc) = user_id)
         (map_to_list (habits db)))).

(** [ORDER BY completed_at ASC] on rows of [completions], likewise. *)
Definition completed_le (r1 r2 : completion_row) : Prop :=
  let t1 := isoformat (crow_completed_at r1) in
  let t2 := isoformat (crow_completed_at r2) in
  String.ltb t1 t2 = true \/ (t1 = t2 /\ crow_id r1 <= crow_id r2).

Global Instance completed_le_dec : RelDecision completed_le.
Proof. intros r1 r2. unfold completed_le. cbv zeta. apply _. Defined.

(** [SELECT id, habit_id, completed_at FROM completions
     WHERE habit_id = ? ORDER BY completed_at ASC]. *)
Definition list_completions (habit_id : Z) : M (list completion_row) :=
  query (fun db =>
    merge_sort completed_le
      (filter (fun r => crow_habit_id r = habit_id) (completions db))).

End Db.

Notation "'do' x <- c ; k" := (Db.bind c (fun x => k))
  (at level 10, x name, c at level 100, k at level 200).

(** ** habit_manager.py: the service

    [self_user_id] is [self.user_id]; [now] is the reading of the clock
    a call would take with [now_local()]. *)
Section HabitManager.
Import PyDatetime.
Variable localtime : Z -> Z.
Variable self_user_id : Z.

Definition get_habit (habit_id : Z) : Db.M Habit.t :=
  do row <- Db.get_habit habit_id;
  match row with
  | Some r =>
      if bool_decide (Db.col_user_id (snd r) = self_user_id)
      then Db.ret (Db.habit_row_to_model r)
      else Db.raise NotFoundOrNotOwned
  | None => Db.raise NotFoundOrNotOwned
  end.

Definition create_habit (now : clock) (title description periodicity : string)
    (created_at : option datetime) : Db.M Habit.t :=
  let created_at := default (now_local localtime now) created_at in
  do habit_id <-
    Db.insert_habit self_user_id (PyStr.strip title) (PyStr.strip description)
      periodicity created_at;
  get_habit habit_id.

Definition edit_habit (habit_id : Z) (title description periodicity : option string)
    : Db.M Habit.t :=
  do habit <- get_habit habit_id;
  let habit :=
    match title with
    | Some t =>
        if bool_decide (PyStr.strip t <> "")
        then Habit.set_title habit (PyStr.strip t) else habit
    | None => habit
    end in
  let habit :=
    match description with
    | Some d => Habit.set_description habit (PyStr.strip d)
    | None => habit
    end in
  do habit <-
    match periodicity with
    | Some p =>
        if bool_decide (PyStr.strip p <> "") then
          do old_p <- Db.lift (normalize_periodicity (Habit.periodicity habit));
          let habit := Habit.set_periodicity habit (PyStr.strip p) in
          do new_p <- Db.lift (normalize_periodicity (Habit.periodicity habit));
          if bool_decide (new_p <> old_p) then
            (* Period meaning changed: reset current streak state *)
            let habit := Habit.set_streak habit 0 in
            Db.ret (Habit.set_last_completed_at habit None)
          else Db.ret habit
        else Db.ret habit
    | None => Db.ret habit
    end;
  do _ <-
    Db.update_habit (Habit.id habit) self_user_id (Habit.title habit)
      (Habit.description habit) (Habit.periodicity habit)
      (Habit.last_completed_at habit) (Habit.streak habit);
  get_habit habit_id.

(** The last completion [complete_habit] works from (its lines 96 to
    103): the habit record's, or else what the table of completions
    gives, a naive value taken as UTC. *)
Definition resolve_last (habit : Habit.t) : Db.M (option datetime) :=
  match Habit.last_completed_at habit with
  | Some last_dt => Db.ret (Some last_dt)
  | None =>
      do last_iso <- Db.get_last_completion (Habit.id habit);
      match last_iso with
      | Some last_dt =>
          match tzinfo last_dt with
          | None => Db.ret (Some (replace_tzinfo last_dt UTC))
          | Some _ => Db.ret (Some last_dt)
          end
      | None => Db.ret None
      end
  end.

(** The streak after a completion at [completed_at] (lines 105 to 114
    of [complete_habit]). *)
Definition update_streak (habit : Habit.t) (last_dt : option datetime)
    (completed_at : datetime) (periodicity : Periodicity) : result Z :=
  match last_dt with
  | None => Ok 1
  | Some last_dt =>
      try k_last <- period_key localtime last_dt periodicity;
      try k_curr <- period_key localtime completed_at periodicity;
      if bool_decide (k_last = k_curr) then
        Ok (Habit.streak habit)  (* already completed this period *)
      else
        try next <- is_next_period localtime last_dt completed_at periodicity;
        if next then Ok (Habit.streak habit + 1) else Ok 1
  end.

Definition complete_habit (now : clock) (habit_id : Z)
    (completed_at : option datetime) : Db.M CompletionLog.t :=
  do habit <- get_habit habit_id;
  let completed_at := default (now_local localtime now) completed_at in
  match tzinfo completed_at with
  | None => Db.raise NaiveTimestamp
  | Some _ =>
      do periodicity <- Db.lift (normalize_periodicity (Habit.periodicity habit));
      do last_dt <- resolve_last habit;
      do new_streak <-
        Db.lift (update_streak habit last_dt completed_at periodicity);
      do completion_id <- Db.insert_completion (Habit.id habit) completed_at;
      let habit := Habit.set_last_completed_at habit (Some completed_at) in
      let habit := Habit.set_streak habit new_streak in
      do _ <-
        Db.update_habit (Habit.id habit) self_user_id (Habit.title habit)
          (Habit.description habit) (Habit.periodicity habit)
          (Habit.last_completed_at habit) (Habit.streak habit);
      Db.ret
        {| CompletionLog.id := completion_id;
           CompletionLog.habit_id := Habit.id habit;
           CompletionLog.completed_at := completed_at |}
  end.

(** The streak transition rule as the design document words it, for
    the old streak, the resolved last completion, the new completion
    and the normalized periodicity. *)
Definition spec_streak_rule (old_streak : Z) (last_dt : option datetime)
    (completed_at : datetime) (p : Periodicity) : Z :=
  match last_dt with
  | None => 1
  | Some l =>
      if decide (period_key localtime l p = period_key localtime completed_at p)
      then old_streak
      else if decide (is_next_period localtime l completed_at p = Ok true)
           then old_streak + 1
           else 1
  end.

Definition list_habits : Db.M (list Habit.t) :=
  do rows <- Db.list_habits self_user_id;
  Db.ret (Db.habit_row_to_model <$> rows).

Definition delete_habit (habit_id : Z) : Db.M bool :=
  Db.delete_habit habit_id self_user_id.

(** The loop of [due_habits]: the habits that are due, in order; the
    first habit whose periodicity or timestamps are rejected ends it. *)
Fixpoint due_among (now : datetime) (habits : list Habit.t)
    : result (list Habit.t) :=
  match habits with
  | [] => Ok []
  | habit :: rest =>
      try p <- normalize_periodicity (Habit.periodicity habit);
      try due <- is_due localtime (Habit.last_completed_at habit) now p;
      try rest_due <- due_among now rest;
      Ok (if due then habit :: rest_due else rest_due)
  end.

Definition due_habits (clock_now : clock) (now : option datetime)
    : Db.M (list Habit.t) :=
  let now := default (now_local localtime clock_now) now in
  do habits <- list_habits;
  Db.lift (due_among now habits).

End HabitManager.

(** ** analytics.py *)
Module Analytics.

Definition longest_streak_overall (habits : list Habit.t)
    : option Habit.t * Z :=
  foldl
    (fun acc habit =>
       let '(max_habit, max_streak) := acc in
       if bool_decide (max_streak < Habit.streak habit)
       then (Some habit, Habit.streak habit)
       else (max_habit, max_streak))
    (None, 0) habits.

Definition all_habits (habits : list Habit.t) : list Habit.t := habits.

(** The comprehension of [habits_with_periodicity]: the first habit
    whose periodicity is rejected ends it. *)
Fixpoint with_periodicity (p : Periodicity) (habits : list Habit.t)
    : result (list Habit.t) :=
  match habits with
  | [] => Ok []
  | h :: rest =>
      try q <- normalize_periodicity (Habit.periodicity h);
      try rest_p <- with_periodicity p rest;
      Ok (if decide (q = p) then h :: rest_p else rest_p)
  end.

Definition habits_with_periodicity (habits : list Habit.t) (periodicity : string)
    : result (list Habit.t) :=
  try p <- normalize_periodicity periodicity;
  with_periodicity p habits.

(** [groups[p].append(habit)] on a dict that keeps its keys in the
    order of their first use. *)
Fixpoint group_append (groups : list (string * list Habit.t)) (p : string)
    (habit : Habit.t) : list (string * list Habit.t) :=
  match groups with
  | [] => [(p, [habit])]
  | (k, l) :: rest =>
      if decide (k = p) then (k, l ++ [habit]) :: rest
      else (k, l) :: group_append rest p habit
  end.

Definition group_by_periodicity (habits : list Habit.t)
    : list (string * list Habit.t) :=
  foldl
    (fun groups habit =>
       match normalize_periodicity (Habit.periodicity habit) with
       | Ok p => group_append groups (periodicity_str p) habit
       | Err _ => groups  (* ignore unknown periodicity values *)
       end)
    [] habits.

(** [groups[p]], or nothing when [p] is no key. *)
Fixpoint group_of (groups : list (string * list Habit.t)) (p : string)
    : option (list Habit.t) :=
  match groups with
  | [] => None
  | (k, l) :: rest => if decide (k = p) then Some l else group_of rest p
  end.

Definition longest_streak_for_habit (habit : Habit.t) : Z := Habit.streak habit.

Definition list_titles (habits : list Habit.t) : list string :=
  Habit.title <$> habits.

End Analytics.

(** ** The states the service reaches *)

(** The value an optional string argument of [edit_habit] supplies:
    none when it is omitted, or blank where a blank is ignored. *)
Definition supplied (arg : option string) : option string :=
  match arg with
  | Some v =>
      if bool_decide (PyStr.strip v <> "") then Some (PyStr.strip v) else None
  | None => None
  end.

(** The store with the row of habit [hid] replaced. *)
Definition with_habit (db : Db.database) (hid : Z) (c' : Db.habit_cols)
    : Db.database :=
  {| Db.users := Db.users db;
     Db.habits := <[hid := c']> (Db.habits db);
     Db.completions := Db.completions db;
     Db.habits_seq := Db.habits_seq db;
     Db.completions_seq := Db.completions_seq db |}.

(** The row [edit_habit] writes for a habit read as [h] from the row
    [c], when the periodicity goes from [p0] to [q]. *)
Definition edited_cols (c : Db.habit_cols) (h : Habit.t)
    (title description : option string) (p0 q : Periodicity) : Db.habit_cols :=
  {| Db.col_user_id := Db.col_user_id c;
     Db.col_title := default (Habit.title h) (supplied title);
     Db.col_description :=
       default (Habit.description h) (PyStr.strip <$> description);
     Db.col_periodicity := periodicity_str q;
     Db.col_created_at := Db.col_created_at c;
     Db.col_last_completed_at :=
       if decide (q = p0) then Habit.last_completed_at h else None;
     Db.col_streak := if decide (q = p0) then Habit.streak h else 0 |}.

(** The row [complete_habit] writes, and the store it leaves. *)
Definition completed_cols (c : Db.habit_cols) (p : Periodicity)
    (completed_at : PyDatetime.datetime) (new_streak : Z) : Db.habit_cols :=
  {| Db.col_user_id := Db.col_user_id c;
     Db.col_title := Db.col_title c;
     Db.col_description := Db.col_description c;
     Db.col_periodicity := periodicity_str p;
     Db.col_created_at := Db.col_created_at c;
     Db.col_last_completed_at := Some completed_at;
     Db.col_streak := new_streak |}.

Definition completed_db (db : Db.database) (hid : Z) (c' : Db.habit_cols)
    (completed_at : PyDatetime.datetime) : Db.database :=
  {| Db.users := Db.users db;
     Db.habits := <[hid := c']> (Db.habits db);
     Db.completions :=
       Db.completions db
       ++ [ {| Db.crow_id := Db.next_completion_id db;
               Db.crow_habit_id := hid;
               Db.crow_completed_at := completed_at |} ];
     Db.habits_seq := Db.habits_seq db;
     Db.completions_seq := Db.next_completion_id db |}.

(** The states reached from a store without habits by calls of the
    service, for any user, with any arguments, failed calls included. *)
Inductive reachable (localtime : Z -> Z) : Db.database -> Prop :=
| reach_init us :
    reachable localtime
      {| Db.users := us; Db.habits := ∅; Db.completions := [];
         Db.habits_seq := 0; Db.completions_seq := 0 |}
| reach_create db uid now title description periodicity created_at r db' :
    reachable localtime db ->
    create_habit localtime uid now title description periodicity created_at db
      = (r, db') ->
    reachable localtime db'
| reach_edit db uid hid title description periodicity r db' :
    reachable localtime db ->
    edit_habit uid hid title description periodicity db = (r, db') ->
    reachable localtime db'
| reach_complete db uid now hid completed_at r db' :
    reachable localtime db ->
    complete_habit localtime uid now hid completed_at db = (r, db') ->
    reachable localtime db'.

(** What holds of every row of [habits] the service has written: the
    periodicity is canonical, a habit never completed has streak 0, no
    streak is negative, and the last completion is timezone-aware. *)
Definition row_ok (c : Db.habit_cols) : Prop :=
  (exists p, Db.col_periodicity c = periodicity_str p) /\
  (Db.col_last_completed_at c = None -> Db.col_streak c = 0) /\
  0 <= Db.col_streak c /\
  (forall l, Db.col_last_completed_at c = Some l ->
             exists o, PyDatetime.tzinfo l = Some o).

Definition db_ok (db : Db.database) : Prop :=
  forall hid c, Db.habits db !! hid = Some c -> row_ok c.

(** A string that is empty or starts with a character that is not
    white space. *)
Definition no_lead (s : string) : Prop :=
  match s with
  | EmptyString => True
  | String c _ => PyStr.is_space c = false
  end.

(** One iteration of the loop of [longest_streak_overall]. *)
Definition longest_step (acc : option Habit.t * Z) (habit : Habit.t)
    : option Habit.t * Z :=
  let '(max_habit, max_streak) := acc in
  if bool_decide (max_streak < Habit.streak habit)
  then (Some habit, Habit.streak habit)
  else (max_habit, max_streak).

(** ** Sample data *)
Module Demo.
Import PyDatetime.

(** A system whose local time is UTC. *)
Definition utc : Z -> Z := fun _ => 0.

(** 2026-01-01T00:00:00 UTC on the clock. *)
Definition midnight : clock := (ymd2ord 2026 1 1 * 86400, 0).

(** Thursday and Friday of ISO week 1 of 2026. *)
Definition jan1 : datetime := make 2026 1 1 8 0 0 0 UTC.
Definition jan2 : datetime := make 2026 1 2 8 0 0 0 UTC.
Definition jan2_late : datetime := make 2026 1 2 20 0 0 0 UTC.
Definition jan2_naive : datetime := make 2026 1 2 8 0 0 0 None.

(** Monday of ISO week 53 of 2026 and Monday of ISO week 1 of 2027. *)
Definition dec28 : datetime := make 2026 12 28 12 0 0 0 UTC.
Definition jan4_2027 : datetime := make 2027 1 4 12 0 0 0 UTC.

(** User 1 creates the daily habit "Gym", completes it on January 1st,
    makes it weekly, and completes it again on January 2nd. *)
Definition store0 : Db.database :=
  {| Db.users := {[ 1 ]}; Db.habits := ∅; Db.completions := [];
     Db.habits_seq := 0; Db.completions_seq := 0 |}.
Definition store1 : Db.database :=
  snd (create_habit utc 1 midnight "Gym" "" "Daily" None store0).
Definition store2 : Db.database :=
  snd (complete_habit utc 1 midnight 1 (Some jan1) store1).
Definition store3 : Db.database :=
  snd (edit_habit 1 1 None None (Some "Weekly") store2).
Definition store4 : Db.database :=
  snd (complete_habit utc 1 midnight 1 (Some jan2) store3).

(** The habit as [get_habit] reads it in [store2]. *)
Definition gym2 : Habit.t :=
  {| Habit.id := 1; Habit.user_id := 1; Habit.title := "Gym";
     Habit.description := ""; Habit.periodicity := "daily";
     Habit.created_at := make 2026 1 1 0 0 0 0 UTC;
     Habit.last_completed_at := Some jan1; Habit.streak := 1 |}.

Definition with_streak (title : string) (streak : Z) : Habit.t :=
  {| Habit.id := 0; Habit.user_id := 1; Habit.title := title;
     Habit.description := ""; Habit.periodicity := "daily";
     Habit.created_at := make 2026 1 1 0 0 0 0 UTC;
     Habit.last_completed_at := None; Habit.streak := streak |}.

(** The streak of habit 1 of user 1 after a run, or -1. *)
Definition streak_after (run : Db.M CompletionLog.t) (db : Db.database) : Z :=
  match get_habit 1 1 (snd (run db)) with
  | (Ok h, _) => Habit.streak h
  | (Err _, _) => -1
  end.

(** The two scenarios of tests/test_flow.py. *)
Definition at_utc (y m d hh : Z) : option datetime :=
  Some (make y m d hh 0 0 0 UTC).

Definition daily_store : Db.database :=
  snd (create_habit utc 1 midnight "Drink water" "Hydrate daily" "Daily" None
         store0).
Definition daily1 := complete_habit utc 1 midnight 1 (at_utc 2026 1 1 9).
Definition daily2 :=
  do _ <- daily1; complete_habit utc 1 midnight 1 (at_utc 2026 1 1 20).
Definition daily3 :=
  do _ <- daily2; complete_habit utc 1 midnight 1 (at_utc 2026 1 2 10).
Definition daily4 :=
  do _ <- daily3; complete_habit utc 1 midnight 1 (at_utc 2026 1 4 10).

Definition weekly_store : Db.database :=
  snd (create_habit utc 1 midnight "Gym" "Workout" "Weekly" None store0).
Definition weekly1 := complete_habit utc 1 midnight 1 (at_utc 2026 1 5 12).
Definition weekly2 :=
  do _ <- weekly1; complete_habit utc 1 midnight 1 (at_utc 2026 1 6 12).
Definition weekly3 :=
  do _ <- weekly2; complete_habit utc 1 midnight 1 (at_utc 2026 1 12 12).
Definition weekly4 :=
  do _ <- weekly3; complete_habit utc 1 midnight 1 (at_utc 2026 1 26 12).
End Demo.

(** ** Calendar dates, periods and calls

    Definitions the properties below are stated with. *)
Section CalendarDefs.
Import PyDatetime.

(** The month and the day [_ord2ymd] finds for the 0-based day [n] of a
    year, leap or not. *)
Definition month_day (n : Z) (leapyear : bool) : Z * Z :=
  let month := Z.shiftr (n + 50) 5 in
  let preceding :=
    table DAYS_BEFORE_MONTH month
    + (if (2 <? month) && leapyear then 1 else 0) in
  if n <? preceding then
    let month := month - 1 in
    let preceding :=
      preceding
      - (table DAYS_IN_MONTH month
         + (if (month =? 2) && leapyear then 1 else 0)) in
    (month, n - preceding + 1)
  else (month, n - preceding + 1).

(** Reading a date text back: the value of a decimal digit, of a run
    of digits, the text up to the first dash and the text after it, and
    the three numbers of YYYY-MM-DD. *)
Definition digit_value (c : ascii) : Z := Z.of_nat (nat_of_ascii c) - 48.

Definition is_digit (c : ascii) : bool :=
  (0 <=? digit_value c) && (digit_value c <=? 9).

Fixpoint dec_value (s : string) : Z :=
  match s with
  | EmptyString => 0
  | String c s' =>
      digit_value c * 10 ^ Z.of_nat (String.length s') + dec_value s'
  end.

Fixpoint all_digits (s : string) : bool :=
  match s with
  | EmptyString => true
  | String c s' => is_digit c && all_digits s'
  end.

Fixpoint split_dash (s : string) : string * string :=
  match s with
  | EmptyString => (EmptyString, EmptyString)
  | String c s' =>
      if is_digit c then
        let '(a, b) := split_dash s' in (String c a, b)
      else (EmptyString, s')
  end.

Definition parse_date (s : string) : Z * Z * Z :=
  let '(ys, r) := split_dash s in
  let '(ms, ds) := split_dash r in
  (dec_value ys, dec_value ms, dec_value ds).

(** The number of the period a date lies in: the ordinal of the day, or
    the count of Monday-to-Sunday weeks up to the date. *)
Definition period_index (p : Periodicity) (n : Z) : Z :=
  match p with
  | Daily => n
  | Weekly => (n + 6) / 7
  end.

(** The calendar date, in UTC and in the local zone, of the instant
    of an aware datetime whose offset is [off]. *)
Definition utc_date (off : Z) (dt : datetime) : Z :=
  utc_seconds off dt / 86400.

Definition local_date (localtime : Z -> Z) (off : Z) (dt : datetime) : Z :=
  (utc_seconds off dt + localtime (utc_seconds off dt)) / 86400.

(** [dt.astimezone()] returns: both dates are dates of [datetime]. *)
Definition converts (localtime : Z -> Z) (off : Z) (dt : datetime) : Prop :=
  in_range (utc_date off dt) = true /\
  in_range (local_date localtime off dt) = true.

Global Instance converts_dec localtime off dt :
  Decision (converts localtime off dt).
Proof. unfold converts. apply _. Defined.

(** The days [is_next_period] adds to [prev]: one, or seven. *)
Definition period_days (p : Periodicity) : Z :=
  match p with
  | Daily => 1
  | Weekly => 7
  end.

(** The date [is_next_period] adds up to is a date of [datetime]. *)
Definition next_period_exists (p : Periodicity) (n : Z) : Prop :=
  n + period_days p <= MAXORDINAL.

End CalendarDefs.

(** The last completion the streak rule starts from: the habit's
    [last_completed_at], or else the entry of its completion log whose
    stored text is the greatest, a naive one read as UTC; none when
    the habit has neither. *)
Definition resolved_last (h : Habit.t) (db : Db.database)
    (lastDt : option PyDatetime.datetime) : Prop :=
  match Habit.last_completed_at h with
  | Some l => lastDt = Some l
  | None =>
      match lastDt with
      | None =>
          forall r, r ∈ Db.completions db -> Db.crow_habit_id r <> Habit.id h
      | Some l =>
          exists r,
            r ∈ Db.completions db /\ Db.crow_habit_id r = Habit.id h /\
            (forall r', r' ∈ Db.completions db ->
                        Db.crow_habit_id r' = Habit.id h ->
                        Db.text_le (Db.crow_completed_at r')
                                   (Db.crow_completed_at r)) /\
            Db.parse_iso_dt (Some (Db.crow_completed_at r)) = Some l
      end
  end.

(** The streak rule's period arithmetic stays within [datetime]:
    when there is a last completion, it and the new completion
    convert to local time and, unless the two have the same period
    key, the period after the last completion's exists. *)
Definition streak_in_window (localtime : Z -> Z)
    (last : option PyDatetime.datetime) (t : PyDatetime.datetime)
    (p : Periodicity) : Prop :=
  forall l, last = Some l ->
    exists ol ot,
      PyDatetime.tzinfo l = Some ol /\ PyDatetime.tzinfo t = Some ot /\
      converts localtime ol l /\ converts localtime ot t /\
      (period_key localtime l p <> period_key localtime t p ->
       next_period_exists p (local_date localtime ol l)).

(** [astimezone()] converts the last completion of every habit of the
    user. *)
Definition lasts_convert (localtime : Z -> Z) (uid : Z) (db : Db.database)
    : Prop :=
  forall hid c l ol,
    Db.habits db !! hid = Some c -> Db.col_user_id c = uid ->
    Db.col_last_completed_at c = Some l -> PyDatetime.tzinfo l = Some ol ->
    converts localtime ol l.

(** The instant of a stored timestamp, in microseconds, a naive one
    read as UTC, and the most recent entry of a habit's completion
    log. *)
Definition instant (t : PyDatetime.datetime) : Z :=
  PyDatetime.utc_seconds (default 0 (PyDatetime.tzinfo t)) t * 1000000
  + PyDatetime.microsecond t.

Definition most_recent_entry (db : Db.database) (hid : Z)
    (r : Db.completion_row) : Prop :=
  r ∈ Db.completions db /\ Db.crow_habit_id r = hid /\
  forall r', r' ∈ Db.completions db -> Db.crow_habit_id r' = hid ->
             instant (Db.crow_completed_at r') <= instant (Db.crow_completed_at r).

(** The log of habit [hid] reads in order: an entry whose stored text
    is the greatest is a most recent one, as it is when all entries
    carry one UTC offset. *)
Definition log_in_text_order (db : Db.database) (hid : Z) : Prop :=
  forall r,
    r ∈ Db.completions db -> Db.crow_habit_id r = hid ->
    (forall r', r' ∈ Db.completions db -> Db.crow_habit_id r' = hid ->
                Db.text_le (Db.crow_completed_at r') (Db.crow_completed_at r)) ->
    most_recent_entry db hid r.

(** The last completion as the design document words it: the habit's
    [last_completed_at], or else the most recent entry of its
    completion log, a naive one read as UTC; none when the habit has
    neither. *)
Definition spec_last_completion (h : Habit.t) (db : Db.database)
    (lastDt : option PyDatetime.datetime) : Prop :=
  match Habit.last_completed_at h with
  | Some l => lastDt = Some l
  | None =>
      match lastDt with
      | None =>
          forall r, r ∈ Db.completions db -> Db.crow_habit_id r <> Habit.id h
      | Some l =>
          exists r,
            most_recent_entry db (Habit.id h) r /\
            Db.parse_iso_dt (Some (Db.crow_completed_at r)) = Some l
      end
  end.

(** The owner of habit [hid], when there is such a habit. *)
Definition col_user_of (db : Db.database) (hid : Z) : option Z :=
  Db.col_user_id <$> Db.habits db !! hid.

(** A habit that is due at [now]: its periodicity normalizes and
    [is_due] holds of its last completion. *)
Definition due_at (localtime : Z -> Z) (now : PyDatetime.datetime) (h : Habit.t)
    : Prop :=
  exists p, normalize_periodicity (Habit.periodicity h) = Ok p /\
            is_due localtime (Habit.last_completed_at h) now p = Ok true.

(** What the loop of [group_by_periodicity] keeps: the keys are
    canonical names, each once, and the group of a periodicity is the
    list of the habits seen so far that normalize to it. *)
Definition grouped (groups : list (string * list Habit.t)) (seen : list Habit.t)
    : Prop :=
  NoDup groups.*1 /\
  (forall k, k ∈ groups.*1 -> exists p, k = periodicity_str p) /\
  forall p, Analytics.group_of groups (periodicity_str p)
            = match filter (fun h => normalize_periodicity (Habit.periodicity h)
                                     = Ok p) seen with
              | [] => None
              | l => Some l
              end.

Section CallDefs.
Import PyDatetime.

(** A call of the service, or of [db.delete_habits_for_user], by any
    user. *)
Inductive call : Type :=
| CreateHabit (uid : Z) (now : clock) (title description periodicity : string)
    (created_at : option datetime)
| EditHabit (uid hid : Z) (title description periodicity : option string)
| CompleteHabit (uid : Z) (now : clock) (hid : Z) (completed_at : option datetime)
| DeleteHabit (uid hid : Z)
| DeleteHabitsForUser (uid : Z).

(** The store a call leaves, whether it returns or raises. *)
Definition run_call (localtime : Z -> Z) (c : call) (db : Db.database)
    : Db.database :=
  match c with
  | CreateHabit uid now title description periodicity created_at =>
      snd (create_habit localtime uid now title description periodicity
             created_at db)
  | EditHabit uid hid title description periodicity =>
      snd (edit_habit uid hid title description periodicity db)
  | CompleteHabit uid now hid completed_at =>
      snd (complete_habit localtime uid now hid completed_at db)
  | DeleteHabit uid hid => snd (delete_habit uid hid db)
  | DeleteHabitsForUser uid => snd (Db.delete_habits_for_user uid db)
  end.

(** The user a call acts for. *)
Definition call_user (c : call) : Z :=
  match c with
  | CreateHabit uid _ _ _ _ _ => uid
  | EditHabit uid _ _ _ _ => uid
  | CompleteHabit uid _ _ _ => uid
  | DeleteHabit uid _ => uid
  | DeleteHabitsForUser uid => uid
  end.

(** The completions of a habit, in the order of their insertion. *)
Definition completions_of (db : Db.database) (hid : Z) : list Db.completion_row :=
  filter (fun r => Db.crow_habit_id r = hid) (Db.completions db).

Definition run_calls (localtime : Z -> Z) (cs : list call) (db : Db.database)
    : Db.database :=
  foldl (fun db c => run_call localtime c db) db cs.

(** The store after [create_tables] and the registration of the users
    [us]: no habit, no completion. *)
Definition init_store (us : gset Z) : Db.database :=
  {| Db.users := us; Db.habits := ∅; Db.completions := [];
     Db.habits_seq := 0; Db.completions_seq := 0 |}.

(** A completion refers to a habit of the store, has a positive id
    that the counter has passed, and a timezone-aware time. *)
Definition log_ok (db : Db.database) (r : Db.completion_row) : Prop :=
  is_Some (Db.habits db !! Db.crow_habit_id r) /\
  0 < Db.crow_id r <= Db.completions_seq db /\
  is_Some (tzinfo (Db.crow_completed_at r)).

(** A habit belongs to a registered user, has a positive id that the
    counter has passed, and its last completion, when it has one, is
    the time of one of its logged completions. *)
Definition habit_ok (db : Db.database) (hid : Z) (c : Db.habit_cols) : Prop :=
  Db.col_user_id c ∈ Db.users db /\
  0 < hid <= Db.habits_seq db /\
  forall l, Db.col_last_completed_at c = Some l ->
    exists r, r ∈ Db.completions db /\ Db.crow_habit_id r = hid /\
              Db.crow_completed_at r = l.

Definition store_ok (db : Db.database) : Prop :=
  db_ok db /\
  0 <= Db.habits_seq db /\ 0 <= Db.completions_seq db /\
  (forall hid c, Db.habits db !! hid = Some c -> habit_ok db hid c) /\
  Forall (log_ok db) (Db.completions db) /\
  NoDup (Db.crow_id <$> Db.completions db).

End CallDefs.

(** ** Users and authentication *)

(** [models/user.py]. *)
Module User.
Record t : Type := mk {
  id : Z;
  username : string;
  password_hash : string
}.
End User.

(** The table [users] of [db.py], which the column [user_id] of
    [habits] refers to ([Db.users] holds the ids of its rows): the rows
    in insertion order and the AUTOINCREMENT counter. *)
Module Users.

Record table : Type := mk_table {
  rows : list User.t;
  seq : Z
}.

(** What a call on the table raises. *)
Inductive failure : Type :=
| UniqueViolation   (* sqlite3.IntegrityError: UNIQUE constraint failed *)
| AssertionFailed   (* AssertionError *)
| ValueError.       (* raised by bcrypt *)

Inductive outcome (A : Type) : Type :=
| Returned (a : A)
| Raised (e : failure).
Arguments Returned {A} a.
Arguments Raised {A} e.

Definition next_id (tb : table) : Z :=
  1 + foldr (fun r acc => Z.max (User.id r) acc) (seq tb) (rows tb).

(** [INSERT INTO users (username, password_hash) VALUES (?, ?)];
    [username] is [UNIQUE]. *)
Definition insert_user (username password_hash : string) (tb : table)
    : outcome Z * table :=
  if decide (username ∈ User.username <$> rows tb) then (Raised UniqueViolation, tb)
  else
    let new_id := next_id tb in
    (Returned new_id,
     {| rows := rows tb
                ++ [ {| User.id := new_id; User.username := username;
                        User.password_hash := password_hash |} ];
        seq := new_id |}).

(** [SELECT id, username, password_hash FROM users WHERE username = ?],
    [fetchone()]. *)
Definition get_user_by_username (username : string) (tb : table)
    : option User.t :=
  head (filter (fun r => User.username r = username) (rows tb)).

End Users.

(** [auth.py].  [bcrypt] is a parameter: [hashpw password salt] is
    [bcrypt.hashpw(password.encode("utf-8"), salt).decode("utf-8")],
    [checkpw password stored] is
    [bcrypt.checkpw(password.encode("utf-8"), stored.encode("utf-8"))];
    the salt [bcrypt.gensalt()] draws is an argument of [register].
    Both calls can raise, which is [None] here: [bcrypt] raises
    [ValueError] for a password of more than 72 bytes, and [checkpw]
    also for a stored text that is not a hash. *)
Section Auth.
Import Users.
Variable hashpw : string -> string -> option string.
Variable checkpw : string -> string -> option bool.

Definition hash_password (password salt : string) : outcome string :=
  match hashpw password salt with
  | Some hash => Returned hash
  | None => Raised ValueError
  end.

(** The password is hashed before [db.insert_user] is entered: when
    hashing raises, no row has been written. *)
Definition register (username password salt : string) (tb : table)
    : outcome (option User.t) * table :=
  match get_user_by_username username tb with
  | Some _ => (Returned None, tb)
  | None =>
      match hash_password password salt with
      | Raised e => (Raised e, tb)
      | Returned hash =>
          match insert_user username hash tb with
          | (Returned _, tb') =>
              match get_user_by_username username tb' with
              | Some row => (Returned (Some row), tb')
              | None => (Raised AssertionFailed, tb')
              end
          | (Raised e, tb') => (Raised e, tb')
          end
      end
  end.

Definition authenticate (username password : string) (tb : table)
    : outcome (option User.t) :=
  match get_user_by_username username tb with
  | None => Returned None
  | Some row =>
      match checkpw password (User.password_hash row) with
      | Some true => Returned (Some row)
      | Some false => Returned None
      | None => Raised ValueError
      end
  end.

(** The table after the registrations [regs] (username, password,
    salt), in order. *)
Definition register_all (regs : list (string * string * string)) (tb : table)
    : table :=
  foldl (fun tb '(username, password, salt) =>
           snd (register username password salt tb)) tb regs.

End Auth.

(** The table [create_tables] leaves. *)
Definition no_users : Users.table := {| Users.rows := []; Users.seq := 0 |}.

(** The table [register] keeps: no two rows with the same username
    or the same id, and no id above the counter. *)
Definition table_ok (tb : Users.table) : Prop :=
  NoDup (User.username <$> Users.rows tb) /\
  NoDup (User.id <$> Users.rows tb) /\
  Forall (fun r => User.id r <= Users.seq tb) (Users.rows tb).

(** ** A store with two users *)
Module Scenario.
Import PyDatetime Demo.

(** Users 1 and 2.  User 1 creates the daily habit "Gym" (id 1) and
    completes it on January 1st; user 2 creates the weekly habit
    "Read" (id 2). *)
Definition calls : list call :=
  [ CreateHabit 1 midnight "Gym" "" "Daily" None;
    CompleteHabit 1 midnight 1 (Some jan1);
    CreateHabit 2 midnight "Read" "" "weekly" None ].

Definition store : Db.database := run_calls utc calls (init_store {[ 1; 2 ]}).

(** The row of habit 2 in [store]. *)
Definition read_row : Db.habit_cols :=
  {| Db.col_user_id := 2; Db.col_title := "Read"; Db.col_description := "";
     Db.col_periodicity := "weekly";
     Db.col_created_at := make 2026 1 1 0 0 0 0 UTC;
     Db.col_last_completed_at := None; Db.col_streak := 0 |}.

(** What user 1 then calls, on habits of both users. *)
Definition calls_of_user1 : list call :=
  [ CompleteHabit 1 midnight 1 (Some jan2);
    EditHabit 1 2 (Some "Write") None (Some "daily");
    CompleteHabit 1 midnight 2 (Some jan2);
    DeleteHabit 1 2;
    DeleteHabitsForUser 1 ].

(** January 1st, 08:00 UTC, as a clock one hour east of UTC shows it. *)
Definition jan1_east : datetime := make 2026 1 1 9 0 0 0 (Some 3600).

(** The habit of user 1 in [Demo.store3], after the change to weekly. *)
Definition gym3 : Habit.t :=
  {| Habit.id := 1; Habit.user_id := 1; Habit.title := "Gym";
     Habit.description := ""; Habit.periodicity := "weekly";
     Habit.created_at := make 2026 1 1 0 0 0 0 UTC;
     Habit.last_completed_at := None; Habit.streak := 0 |}.

(** Tuesday of ISO week 2 of 2026. *)
Definition tue : datetime := make 2026 1 6 8 0 0 0 UTC.

(** Wednesday of that week. *)
Definition wed : datetime := make 2026 1 7 8 0 0 0 UTC.

(** User 1 creates the daily habit "Gym", completes it on January 1st
    (ISO week 1) and on that Tuesday, and makes it weekly. *)
Definition two_store : Db.database :=
  run_calls utc
    [ CreateHabit 1 midnight "Gym" "" "Daily" None;
      CompleteHabit 1 midnight 1 (Some jan1);
      CompleteHabit 1 midnight 1 (Some tue);
      EditHabit 1 1 None None (Some "Weekly") ]
    (init_store {[ 1 ]}).

(** Two completions whose texts and instants are in opposite order:
    Sunday 23:30 UTC (ISO week 1), and 20:00 of that Sunday five
    hours west of UTC, which is Monday 01:00 UTC (ISO week 2). *)
Definition sun_utc : datetime := make 2026 1 4 23 30 0 0 UTC.
Definition sun_west : datetime := make 2026 1 4 20 0 0 0 (Some (-18000)).
Definition row_utc : Db.completion_row :=
  {| Db.crow_id := 1; Db.crow_habit_id := 1; Db.crow_completed_at := sun_utc |}.
Definition row_west : Db.completion_row :=
  {| Db.crow_id := 2; Db.crow_habit_id := 1; Db.crow_completed_at := sun_west |}.

(** User 1 creates the daily habit "Gym", completes it at both times
    and makes it weekly. *)
Definition mixed_store : Db.database :=
  run_calls utc
    [ CreateHabit 1 midnight "Gym" "" "Daily" None;
      CompleteHabit 1 midnight 1 (Some sun_utc);
      CompleteHabit 1 midnight 1 (Some sun_west);
      EditHabit 1 1 None None (Some "Weekly") ]
    (init_store {[ 1 ]}).

(** The last week of [datetime]: Saturday, Tuesday, Thursday and
    Friday, the last day. *)
Definition dec25_9999 : datetime := make 9999 12 25 12 0 0 0 UTC.
Definition dec28_9999 : datetime := make 9999 12 28 12 0 0 0 UTC.
Definition dec31_9999 : datetime := make 9999 12 31 12 0 0 0 UTC.

(** 23:30 of the last day, five hours west of UTC: in UTC the next
    day, which [datetime] does not have. *)
Definition dec31_9999_west : datetime :=
  make 9999 12 31 23 30 0 0 (Some (-18000)).

(** User 1's daily habit "Gym", first completed on the last day. *)
Definition late_store : Db.database :=
  snd (complete_habit utc 1 midnight 1 (Some dec31_9999) store1).

(** The same habit, first completed at 23:30 of the last day west of
    UTC. *)
Definition west_store : Db.database :=
  snd (complete_habit utc 1 midnight 1 (Some dec31_9999_west) store1).

(** A stand-in for [bcrypt]: the hash is the salt followed by the
    password, and a password of more than 72 bytes is refused. *)
Definition toy_hashpw (password salt : string) : option string :=
  if (72 <? String.length password)%nat then None
  else Some (String.append salt password).
Definition toy_checkpw (attempt stored : string) : option bool :=
  if (72 <? String.length attempt)%nat then None
  else Some (String.eqb stored (String.append "$2b$" attempt)).

(** A password of 73 bytes. *)
Definition long_password : string :=
  string_of_list_ascii (repeat "a"%char 73).
End Scenario.

(** * Properties *)

(** ** Checks of the embedding on known values *)

Example normalize_Daily : normalize_periodicity "Daily" = Ok Daily.
Proof. reflexivity. Qed.
Example normalize_WEEK : normalize_periodicity "  WEEK " = Ok Weekly.
Proof. reflexivity. Qed.
Example normalize_monthly :
  normalize_periodicity "monthly" = Err InvalidPeriodicity.
Proof. reflexivity. Qed.

Module PyDatetimeTests.
Import PyDatetime.

Example ord_2026_01_01 : ymd2ord 2026 1 1 = 739617.
Proof. reflexivity. Qed.
Example ymd_roundtrip : ord2ymd (ymd2ord 2024 2 29) = (2024, 2, 29).
Proof. reflexivity. Qed.
Example ymd_dec31 : ord2ymd (ymd2ord 2024 12 31) = (2024, 12, 31).
Proof. reflexivity. Qed.
Example iso_2026_01_05 : isocalendar (ymd2ord 2026 1 5) = (2026, 2, 1).
Proof. reflexivity. Qed.
Example iso_2026_12_28 : isocalendar (ymd2ord 2026 12 28) = (2026, 53, 1).
Proof. reflexivity. Qed.
Example iso_2027_01_03 : isocalendar (ymd2ord 2027 1 3) = (2026, 53, 7).
Proof. reflexivity. Qed.
Example iso_2024_12_30 : isocalendar (ymd2ord 2024 12 30) = (2025, 1, 1).
Proof. reflexivity. Qed.
Example isoformat_utc :
  isoformat (make 2026 1 1 9 0 0 0 UTC) = "2026-01-01T09:00:00+00:00".
Proof. reflexivity. Qed.
Example isoformat_west :
  isoformat (make 2026 1 5 23 0 0 250 (Some (-18000)))
  = "2026-01-05T23:00:00.000250-05:00".
Proof. reflexivity. Qed.
Example isoformat_naive :
  isoformat (make 987 11 3 1 2 3 0 None) = "0987-11-03T01:02:03".
Proof. reflexivity. Qed.
End PyDatetimeTests.

(** ** Strings *)
Module PyStrFacts.
Import PyStr.

Lemma eq_nocase_lower s t : eq_nocase s t = true <-> lower s = lower t.
Proof.
  revert t.
  induction s as [|a s IH]; intros [|b t]; simpl; try (split; congruence).
  rewrite andb_true_iff, bool_decide_eq_true, IH. split.
  - intros [-> ->]. reflexivity.
  - intros H. injection H. auto.
Qed.

Lemma eq_nocase_decide s t :
  lower t = t -> eq_nocase s t = bool_decide (lower s = t).
Proof.
  intros Ht. apply eq_true_iff_eq.
  rewrite eq_nocase_lower, bool_decide_eq_true, Ht. reflexivity.
Qed.

Lemma lstrip_blank s : blank s = true -> lstrip s = "".
Proof.
  induction s as [|c s IH]; simpl; [reflexivity|].
  intros [Hc Hs]%andb_prop. rewrite Hc. auto.
Qed.

Lemma strip_blank s : blank s = true -> strip s = "".
Proof.
  intros H. unfold strip. rewrite lstrip_blank by assumption. reflexivity.
Qed.

Lemma lstrip_no_lead s : no_lead (lstrip s).
Proof.
  induction s as [|c s IH]; simpl; [exact I|].
  destruct (is_space c) eqn:E; [assumption | exact E].
Qed.

Lemma lstrip_id s : no_lead s -> lstrip s = s.
Proof.
  destruct s as [|c s]; simpl; [reflexivity|]. intros ->. reflexivity.
Qed.

Lemma rstrip_no_lead s : no_lead s -> no_lead (rstrip s).
Proof.
  destruct s as [|c s]; simpl; [auto|]. intros Hc.
  destruct (rstrip s); [rewrite Hc|]; exact Hc.
Qed.

Lemma rstrip_idem s : rstrip (rstrip s) = rstrip s.
Proof.
  induction s as [|c s IH]; simpl; [reflexivity|].
  destruct (rstrip s) as [|d r] eqn:E.
  - destruct (is_space c) eqn:Hc; simpl; [reflexivity|].
    rewrite Hc. reflexivity.
  - change (rstrip (String c (String d r))) with
      (match rstrip (String d r) with
       | "" => if is_space c then "" else String c ""
       | r' => String c r'
       end).
    rewrite IH. reflexivity.
Qed.

Lemma strip_idem s : strip (strip s) = strip s.
Proof.
  unfold strip.
  rewrite (lstrip_id (rstrip (lstrip s))).
  - apply rstrip_idem.
  - apply rstrip_no_lead, lstrip_no_lead.
Qed.
End PyStrFacts.

(** ** normalize_periodicity *)

Lemma normalize_periodicity_strip v :
  normalize_periodicity (PyStr.strip v) = normalize_periodicity v.
Proof.
  unfold normalize_periodicity. rewrite PyStrFacts.strip_idem. reflexivity.
Qed.

Lemma normalize_periodicity_nonblank p q :
  normalize_periodicity p = Ok q -> PyStr.strip p <> "".
Proof.
  unfold normalize_periodicity. intros H E. rewrite E in H. discriminate H.
Qed.

Lemma normalize_periodicity_str p :
  normalize_periodicity (periodicity_str p) = Ok p.
Proof. destruct p; reflexivity. Qed.

Lemma periodicity_str_nonempty p :
  bool_decide (periodicity_str p = "") = false.
Proof. destruct p; reflexivity. Qed.

(** C7, as the code has it: [normalize_periodicity] trims the white
    space around its input first; on the trimmed input it is the
    case-insensitive match of the design document (daily for "daily" or
    "day", weekly for "weekly" or "week", [InvalidPeriodicity] for
    anything else), so all case, synonym and padding variants of a
    periodicity give the same canonical value; an empty or blank input
    fails with [InvalidPeriodicity]. *)
Theorem normalize_periodicity_spec (value : string) :
  normalize_periodicity value = spec_normalize (PyStr.strip value) /\
  (if PyStr.blank value
   then normalize_periodicity value = Err InvalidPeriodicity
   else True).
Proof.
  split.
  - unfold normalize_periodicity, spec_normalize.
    rewrite !PyStrFacts.eq_nocase_decide by reflexivity. reflexivity.
  - destruct (PyStr.blank value) eqn:E; [|exact I].
    unfold normalize_periodicity.
    rewrite PyStrFacts.strip_blank by assumption. reflexivity.
Qed.

(** C7 as stated fails: " daily " is no case-insensitive match of
    "daily", "day", "weekly" or "week", so the claim has it rejected, but
    the code accepts it as daily. *)
Lemma normalize_periodicity_padded :
  spec_normalize " daily " = Err InvalidPeriodicity /\
  normalize_periodicity " daily " = Ok Daily.
Proof. split; reflexivity. Qed.

(** ** The ISO calendar *)
Module PyDatetimeFacts.
Import PyDatetime.

Lemma year_of_eq n :
  year_of n =
    let m := n - 1 in
    let n400 := m / DI400Y in
    let r := m mod DI400Y in
    let n100 := r / DI100Y in
    let r2 := r mod DI100Y in
    let n4 := r2 / DI4Y in
    let r3 := r2 mod DI4Y in
    let n1 := r3 / 365 in
    let year := n400 * 400 + 1 + (n100 * 100 + n4 * 4 + n1) in
    if (n1 =? 4) || (n100 =? 4) then year - 1 else year.
Proof.
  unfold year_of, ord2ymd. cbv zeta.
  repeat match goal with |- context [if ?c then _ else _] => destruct c end;
    reflexivity.
Qed.

(** The year [_ord2ymd] finds is the year the ordinal lies in. *)
Lemma year_of_bracket n :
  days_before_year (year_of n) < n <= days_before_year (year_of n + 1).
Proof.
  rewrite year_of_eq.
  unfold days_before_year, DI400Y, DI100Y, DI4Y.
  cbv zeta.
  set (a := (n - 1) / 146097).
  set (r := (n - 1) mod 146097).
  set (b := r / 36524). set (r2 := r mod 36524).
  set (c := r2 / 1461). set (r3 := r2 mod 1461).
  set (d := r3 / 365).
  assert (Hn : n - 1 = 146097 * a + r /\ 0 <= r < 146097)
    by (subst a r; split; [apply Z.div_mod; lia | apply Z.mod_pos_bound; lia]).
  assert (Hr : r = 36524 * b + r2 /\ 0 <= r2 < 36524)
    by (subst b r2; split; [apply Z.div_mod; lia | apply Z.mod_pos_bound; lia]).
  assert (Hr2 : r2 = 1461 * c + r3 /\ 0 <= r3 < 1461)
    by (subst c r3; split; [apply Z.div_mod; lia | apply Z.mod_pos_bound; lia]).
  assert (Hr3 : r3 = 365 * d + r3 mod 365 /\ 0 <= r3 mod 365 < 365)
    by (subst d; split; [apply Z.div_mod; lia | apply Z.mod_pos_bound; lia]).
  set (r4 := r3 mod 365) in *.
  clearbody a r b r2 c r3 d r4.
  assert (0 <= b <= 4) by lia.
  assert (0 <= c <= 24) by lia.
  assert (0 <= d <= 4) by lia.
  destruct (d =? 4) eqn:Hd; [|destruct (b =? 4) eqn:Hb]; cbn [orb].
  - apply Z.eqb_eq in Hd. subst d. Z.div_mod_to_equations. lia.
  - apply Z.eqb_eq in Hb. subst b. Z.div_mod_to_equations. lia.
  - apply Z.eqb_neq in Hd, Hb. Z.div_mod_to_equations. lia.
Qed.

Lemma ymd2ord_jan1 y : ymd2ord y 1 1 = days_before_year y + 1.
Proof.
  unfold ymd2ord, days_before_month.
  change (2 <? 1) with false. change (table DAYS_BEFORE_MONTH 1) with 0.
  cbn [andb]. lia.
Qed.

Lemma year_length y :
  days_before_year (y + 1) - days_before_year y = 365 \/
  days_before_year (y + 1) - days_before_year y = 366.
Proof. unfold days_before_year. cbv zeta. Z.div_mod_to_equations. lia. Qed.

(** Week 1 starts on a Monday, at most three days from January 1st. *)
Lemma isoweek1monday_spec y :
  weekday (isoweek1monday y) = 0 /\
  days_before_year y - 2 <= isoweek1monday y <= days_before_year y + 4.
Proof.
  unfold isoweek1monday, weekday. cbv zeta. rewrite ymd2ord_jan1.
  generalize (days_before_year y). intros f.
  destruct (3 <? (f + 1 + 6) mod 7) eqn:E;
    [apply Z.ltb_lt in E | apply Z.ltb_ge in E];
    Z.div_mod_to_equations; lia.
Qed.

(** An ISO year has 52 or 53 weeks. *)
Lemma isoweek1monday_next y :
  isoweek1monday (y + 1) = isoweek1monday y + 364 \/
  isoweek1monday (y + 1) = isoweek1monday y + 371.
Proof.
  destruct (isoweek1monday_spec y) as [Hw [Hl Hu]].
  destruct (isoweek1monday_spec (y + 1)) as [Hw' [Hl' Hu']].
  pose proof (year_length y) as Hy.
  unfold weekday in *.
  Z.div_mod_to_equations. lia.
Qed.

Lemma isoweek1monday_mono y k :
  0 <= k -> isoweek1monday y + 364 * k <= isoweek1monday (y + k).
Proof.
  intros Hk. revert k Hk.
  apply (natlike_ind
           (fun k => isoweek1monday y + 364 * k <= isoweek1monday (y + k))).
  - replace (y + 0) with y by lia. lia.
  - intros k Hk IH. replace (y + Z.succ k) with (y + k + 1) by lia.
    destruct (isoweek1monday_next (y + k)); lia.
Qed.

Lemma iso_year_unique a b m :
  isoweek1monday a <= m < isoweek1monday (a + 1) ->
  isoweek1monday b <= m < isoweek1monday (b + 1) ->
  a = b.
Proof.
  intros Ha Hb.
  destruct (Z.lt_trichotomy a b) as [Hlt | [-> | Hlt]];
    [exfalso | reflexivity | exfalso].
  - pose proof (isoweek1monday_mono (a + 1) (b - (a + 1)) ltac:(lia)) as H.
    replace (a + 1 + (b - (a + 1))) with b in H by lia. lia.
  - pose proof (isoweek1monday_mono (b + 1) (a - (b + 1)) ltac:(lia)) as H.
    replace (b + 1 + (a - (b + 1))) with a in H by lia. lia.
Qed.

(** What [isocalendar] returns: the ISO year is the one whose week 1
    starts on or before the date while the next year's starts after
    it; the week and the day count from that Monday. *)
Lemma isocalendar_spec n :
  let '(y, w, d) := isocalendar n in
  isoweek1monday y <= n < isoweek1monday (y + 1) /\
  w = (n - isoweek1monday y) / 7 + 1 /\
  d = (n - isoweek1monday y) mod 7 + 1.
Proof.
  unfold isocalendar. cbv zeta.
  pose proof (year_of_bracket n) as Hb.
  set (Y := year_of n) in *. clearbody Y.
  destruct (isoweek1monday_spec Y) as [Hw [Hl Hu]].
  destruct (isoweek1monday_spec (Y + 1)) as [Hw1 [Hl1 Hu1]].
  pose proof (isoweek1monday_next Y) as Hn.
  destruct ((n - isoweek1monday Y) / 7 <? 0) eqn:E1.
  - apply Z.ltb_lt in E1.
    pose proof (isoweek1monday_next (Y - 1)) as Hp.
    replace (Y - 1 + 1) with Y in * by lia.
    repeat split; Z.div_mod_to_equations; lia.
  - apply Z.ltb_ge in E1.
    destruct ((52 <=? (n - isoweek1monday Y) / 7)
              && (isoweek1monday (Y + 1) <=? n)) eqn:E2.
    + apply andb_prop in E2 as [E2 E3].
      apply Z.leb_le in E2, E3.
      pose proof (isoweek1monday_next (Y + 1)) as Hq.
      unfold weekday in *.
      repeat split; Z.div_mod_to_equations; lia.
    + apply andb_false_iff in E2 as [E2 | E2];
        [apply Z.leb_gt in E2 | apply Z.leb_gt in E2];
        repeat split; Z.div_mod_to_equations; lia.
Qed.

Lemma week_monday_iso n :
  let '(y, w, d) := isocalendar n in
  week_monday n = isoweek1monday y + 7 * (w - 1) /\ 1 <= w.
Proof.
  pose proof (isocalendar_spec n) as H.
  destruct (isocalendar n) as [[y w] d].
  destruct H as ([Hl Hu] & -> & _).
  destruct (isoweek1monday_spec y) as [Hw _].
  unfold week_monday, weekday in *.
  Z.div_mod_to_equations. lia.
Qed.

(** Two dates have the same ISO (week-year, week) pair exactly when
    they lie in the same Monday-to-Sunday week. *)
Lemma iso_week_week_monday a b :
  iso_week a = iso_week b <-> week_monday a = week_monday b.
Proof.
  unfold iso_week.
  pose proof (isocalendar_spec a) as Ha. pose proof (week_monday_iso a) as Ma.
  pose proof (isocalendar_spec b) as Hb. pose proof (week_monday_iso b) as Mb.
  destruct (isocalendar a) as [[ya wa] da], (isocalendar b) as [[yb wb] db].
  destruct Ha as ([Hal Hau] & Hwa & _), Hb as ([Hbl Hbu] & Hwb & _).
  destruct Ma as [Ma Ma1], Mb as [Mb Mb1].
  split.
  - intros [= -> ->]. lia.
  - intros Heq.
    assert (week_monday a <= a < week_monday a + 7) as Hra
      by (unfold week_monday, weekday; Z.div_mod_to_equations; lia).
    assert (week_monday b <= b < week_monday b + 7) as Hrb
      by (unfold week_monday, weekday; Z.div_mod_to_equations; lia).
    destruct (isoweek1monday_spec (ya + 1)) as [Hwa1 _].
    destruct (isoweek1monday_spec (yb + 1)) as [Hwb1 _].
    destruct (isoweek1monday_spec ya) as [Hwa0 _].
    destruct (isoweek1monday_spec yb) as [Hwb0 _].
    assert (ya = yb) as ->.
    { apply (iso_year_unique ya yb (week_monday a)).
      - unfold week_monday, weekday in *. Z.div_mod_to_equations; lia.
      - rewrite Heq. unfold week_monday, weekday in *.
        Z.div_mod_to_equations; lia. }
    f_equal. lia.
Qed.
End PyDatetimeFacts.

(** ** time_utils.py *)
Section TimeUtilsFacts.
Import PyDatetime.
Variable localtime : Z -> Z.

Lemma now_local_aware now :
  tzinfo (now_local localtime now) = Some (localtime (fst now)).
Proof. reflexivity. Qed.

Lemma in_range_iff n : in_range n = true <-> 1 <= n <= MAXORDINAL.
Proof. unfold in_range. rewrite andb_true_iff, !Z.leb_le. reflexivity. Qed.

Lemma utc_seconds_utc_now now : utc_seconds 0 (utc_now now) = fst now.
Proof.
  unfold utc_seconds, utc_now. cbn [ordinal seconds].
  pose proof (Z.div_mod (fst now) 86400). lia.
Qed.

(** [now_local] is [utc_now] converted by [astimezone], for a clock
    within the range of [datetime]. *)
Lemma now_local_astimezone now :
  in_range (fst now / 86400) = true ->
  in_range ((fst now + localtime (fst now)) / 86400) = true ->
  astimezone localtime 0 (utc_now now) = Ok (now_local localtime now).
Proof.
  intros Hu Hl. unfold astimezone. rewrite utc_seconds_utc_now.
  cbv zeta. rewrite Hu. cbn [wall ordinal]. rewrite Hl. reflexivity.
Qed.

Lemma in_range_false n : in_range n = false <-> n < 1 \/ MAXORDINAL < n.
Proof.
  unfold in_range. rewrite andb_false_iff, !Z.leb_gt. reflexivity.
Qed.

(** [astimezone] returns exactly on the datetimes that convert. *)
Lemma astimezone_converts dt off :
  converts localtime off dt ->
  exists local,
    astimezone localtime off dt = Ok local /\
    ordinal local = local_date localtime off dt.
Proof.
  intros [Hu Hl]. unfold astimezone. unfold utc_date in Hu. rewrite Hu.
  cbv zeta. unfold local_date in Hl. cbn [wall ordinal]. rewrite Hl.
  eexists. split; reflexivity.
Qed.

Lemma astimezone_Ok dt off local :
  astimezone localtime off dt = Ok local ->
  converts localtime off dt /\ ordinal local = local_date localtime off dt.
Proof.
  unfold astimezone, converts, utc_date, local_date.
  destruct (in_range (utc_seconds off dt / 86400)); [|discriminate].
  cbv zeta. cbn [wall ordinal].
  destruct (in_range _) eqn:E; [|discriminate].
  intros [= <-]. auto.
Qed.

Lemma astimezone_Err dt off e :
  astimezone localtime off dt = Err e ->
  e = Overflow /\ ~ converts localtime off dt.
Proof.
  intros H. split.
  - unfold astimezone in H.
    destruct (in_range (utc_seconds off dt / 86400)); [|congruence].
    cbv zeta in H. destruct (in_range _); congruence.
  - intros Hc. destruct (astimezone_converts dt off Hc) as (l & Hl & _).
    congruence.
Qed.

Lemma period_key_converts dt off p :
  tzinfo dt = Some off -> converts localtime off dt ->
  exists k, period_key localtime dt p = Ok k.
Proof.
  intros H Hc. unfold period_key. rewrite H.
  destruct (astimezone_converts dt off Hc) as (l & -> & _).
  cbn [result_bind]. destruct p; [eauto|].
  destruct (isocalendar _) as [[y w] d]. eauto.
Qed.

Lemma period_key_Ok dt p k :
  period_key localtime dt p = Ok k ->
  exists off, tzinfo dt = Some off /\ converts localtime off dt.
Proof.
  unfold period_key. destruct (tzinfo dt) as [off|]; [|discriminate].
  destruct (astimezone localtime off dt) as [l|e] eqn:E; [|discriminate].
  intros _. exists off. split; [reflexivity|]. eapply astimezone_Ok, E.
Qed.

Lemma period_key_overflow dt off p :
  tzinfo dt = Some off -> ~ converts localtime off dt ->
  period_key localtime dt p = Err Overflow.
Proof.
  intros H Hn. unfold period_key. rewrite H.
  destruct (astimezone localtime off dt) as [l|e] eqn:E.
  - exfalso. apply Hn. eapply astimezone_Ok, E.
  - apply astimezone_Err in E as [-> _]. reflexivity.
Qed.

Lemma period_key_Err dt p e :
  period_key localtime dt p = Err e ->
  (e = NaiveTimestamp /\ tzinfo dt = None) \/
  (e = Overflow /\ exists off, tzinfo dt = Some off /\ ~ converts localtime off dt).
Proof.
  unfold period_key. destruct (tzinfo dt) as [off|]; [|intros [= <-]; auto].
  destruct (astimezone localtime off dt) as [l|e'] eqn:E.
  - cbn [result_bind]. destruct p; [discriminate|].
    destruct (isocalendar _) as [[y w] d]. discriminate.
  - apply astimezone_Err in E as [-> Hn]. intros [= <-]. right. eauto.
Qed.

(** [is_next_period] on datetimes that convert: it returns when the
    date after the period of [prev] exists and raises [OverflowError]
    when it does not. *)
Lemma is_next_period_run a b oa ob p :
  tzinfo a = Some oa -> tzinfo b = Some ob ->
  converts localtime oa a -> converts localtime ob b ->
  is_next_period localtime a b p
  = match p with
    | Daily =>
        try next_date <- date_add_days (local_date localtime oa a) 1;
        Ok (bool_decide (local_date localtime ob b = next_date))
    | Weekly =>
        if in_range (local_date localtime oa a + 7) then
          Ok (bool_decide (iso_week (local_date localtime ob b)
                           = iso_week (local_date localtime oa a + 7)))
        else Err Overflow
    end.
Proof.
  intros Ha Hb Hca Hcb. unfold is_next_period. rewrite Ha, Hb.
  destruct (astimezone_converts a oa Hca) as (la & -> & Hla).
  destruct (astimezone_converts b ob Hcb) as (lb & -> & Hlb).
  cbn [result_bind]. rewrite Hla, Hlb. destruct p; [reflexivity|].
  unfold add_days, iso_week. rewrite Hla.
  destruct (isocalendar (local_date localtime ob b)) as [[cy cw] cd].
  destruct (in_range (local_date localtime oa a + 7)); [|reflexivity].
  cbn [result_bind ordinal].
  destruct (isocalendar (local_date localtime oa a + 7)) as [[ny nw] nd].
  reflexivity.
Qed.

Lemma is_next_period_Ok a b p r :
  is_next_period localtime a b p = Ok r ->
  exists oa ob,
    tzinfo a = Some oa /\ tzinfo b = Some ob /\
    converts localtime oa a /\ converts localtime ob b.
Proof.
  unfold is_next_period.
  destruct (tzinfo a) as [oa|]; [|discriminate].
  destruct (tzinfo b) as [ob|]; [|discriminate].
  destruct (astimezone localtime oa a) as [la|e] eqn:Ea; [|discriminate].
  destruct (astimezone localtime ob b) as [lb|e] eqn:Eb; [|discriminate].
  intros _. exists oa, ob.
  split; [reflexivity|]. split; [reflexivity|].
  split; [eapply astimezone_Ok, Ea | eapply astimezone_Ok, Eb].
Qed.

Lemma is_next_period_Err a b oa ob p e :
  tzinfo a = Some oa -> tzinfo b = Some ob ->
  is_next_period localtime a b p = Err e -> e = Overflow.
Proof.
  intros Ha Hb. unfold is_next_period. rewrite Ha, Hb.
  destruct (astimezone localtime oa a) as [la|e1] eqn:Ea.
  2:{ apply astimezone_Err in Ea as [-> _]. intros [= <-]. reflexivity. }
  destruct (astimezone localtime ob b) as [lb|e2] eqn:Eb.
  2:{ apply astimezone_Err in Eb as [-> _]. intros [= <-]. reflexivity. }
  cbn [result_bind]. destruct p.
  - unfold date_add_days. destruct (in_range _); [discriminate|].
    intros [= <-]. reflexivity.
  - destruct (isocalendar (ordinal lb)) as [[cy cw] cd].
    unfold add_days. destruct (in_range _).
    + cbn [result_bind ordinal].
      destruct (isocalendar _) as [[ny nw] nd]. discriminate.
    + intros [= <-]. reflexivity.
Qed.

(** C2, within what [datetime] can hold: for timezone-aware [prev]
    and [curr] that [astimezone()] converts, with [prev]'s local date
    at most 9999-12-24, [is_next_period] on a weekly habit returns a
    boolean, which is true exactly when the ISO (week-year, week) pair
    of [prev]'s local date plus 7 days is that of [curr]'s local date,
    that is, exactly when [curr] lies in the Monday-to-Sunday week
    right after the week of [prev], whatever ISO week-year the two
    weeks belong to; for every other pair of timezone-aware datetimes
    the call raises [OverflowError]. *)
Theorem is_next_period_weekly prev curr po co :
  tzinfo prev = Some po -> tzinfo curr = Some co ->
  let prev_date := local_date localtime po prev in
  let curr_date := local_date localtime co curr in
  (converts localtime po prev /\ converts localtime co curr /\
   prev_date + 7 <= MAXORDINAL ->
   exists b,
     is_next_period localtime prev curr Weekly = Ok b /\
     (b = true <-> iso_week (prev_date + 7) = iso_week curr_date) /\
     (b = true <->
      week_monday curr_date = week_monday prev_date + 7)) /\
  (~ (converts localtime po prev /\ converts localtime co curr /\
      prev_date + 7 <= MAXORDINAL) ->
   is_next_period localtime prev curr Weekly = Err Overflow).
Proof.
  intros Hp Hc prev_date curr_date. split.
  - intros (Hcp & Hcc & Hle).
    rewrite (is_next_period_run prev curr po co Weekly Hp Hc Hcp Hcc).
    fold prev_date curr_date.
    assert (Hpos : 1 <= prev_date).
    { destruct Hcp as [_ H]. apply in_range_iff in H. fold prev_date in H. lia. }
    assert (in_range (prev_date + 7) = true) as -> by (apply in_range_iff; lia).
    eexists. split; [reflexivity|].
    rewrite bool_decide_eq_true.
    pose proof (PyDatetimeFacts.iso_week_week_monday (prev_date + 7) curr_date)
      as Hiff.
    assert (week_monday (prev_date + 7) = week_monday prev_date + 7) as Hshift.
    { unfold week_monday, weekday. Z.div_mod_to_equations. lia. }
    split.
    + split; congruence.
    + rewrite <- Hshift. split.
      * intros E. symmetry. apply Hiff. congruence.
      * intros H. symmetry in H. apply Hiff in H. congruence.
  - intros Hout.
    destruct (is_next_period localtime prev curr Weekly) as [b|e] eqn:E.
    + exfalso. apply Hout.
      destruct (is_next_period_Ok prev curr Weekly b E)
        as (po' & co' & Hp' & Hc' & Hcp & Hcc).
      assert (po' = po) as -> by congruence.
      assert (co' = co) as -> by congruence.
      split; [exact Hcp|]. split; [exact Hcc|].
      rewrite (is_next_period_run prev curr po co Weekly Hp Hc Hcp Hcc) in E.
      fold prev_date in E.
      destruct (in_range (prev_date + 7)) eqn:Hr; [|discriminate E].
      apply in_range_iff in Hr. lia.
    + f_equal. exact (is_next_period_Err prev curr po co Weekly e Hp Hc E).
Qed.

End TimeUtilsFacts.

(** ** analytics.py *)
Module AnalyticsFacts.
Import Analytics.

Lemma longest_streak_overall_foldl habits :
  longest_streak_overall habits = foldl longest_step (None, 0) habits.
Proof. reflexivity. Qed.

Lemma foldl_step_keep habits mh ms :
  Forall (fun h => Habit.streak h <= ms) habits ->
  foldl longest_step (mh, ms) habits = (mh, ms).
Proof.
  revert mh ms. induction habits as [|h hs IH]; intros mh ms Hall; simpl.
  - reflexivity.
  - inversion Hall as [|? ? Hh Hhs]; subst.
    rewrite bool_decide_eq_false_2 by lia. apply IH. assumption.
Qed.

Lemma foldl_step_max habits mh ms h0 :
  h0 ∈ habits -> ms < Habit.streak h0 ->
  exists l1 h l2,
    habits = l1 ++ h :: l2 /\
    foldl longest_step (mh, ms) habits = (Some h, Habit.streak h) /\
    ms < Habit.streak h /\
    Forall (fun x => Habit.streak x < Habit.streak h) l1 /\
    Forall (fun x => Habit.streak x <= Habit.streak h) l2.
Proof.
  revert mh ms h0.
  induction habits as [|a hs IH]; intros mh ms h0 Hin Hlt.
  - inversion Hin.
  - simpl. destruct (decide (ms < Habit.streak a)) as [Ha | Ha].
    + rewrite bool_decide_eq_true_2 by assumption.
      destruct (decide (Forall (fun x => Habit.streak x <= Habit.streak a) hs))
        as [Hall | Hnot].
      * exists [], a, hs. rewrite foldl_step_keep by assumption.
        split; [reflexivity|]. split; [reflexivity|]. split; [lia|].
        split; [constructor | assumption].
      * apply not_Forall_Exists in Hnot; [|intros x; apply _].
        apply Exists_exists in Hnot as (x & Hx & Hgt).
        unfold compose in Hgt.
        destruct (IH (Some a) (Habit.streak a) x Hx ltac:(lia))
          as (l1 & h & l2 & -> & Hf & Hlt' & H1 & H2).
        exists (a :: l1), h, l2.
        split; [reflexivity|]. split; [exact Hf|]. split; [lia|].
        split; [constructor; [lia | assumption] | assumption].
    + rewrite bool_decide_eq_false_2 by assumption.
      apply elem_of_cons in Hin as [-> | Hin]; [lia|].
      destruct (IH mh ms h0 Hin Hlt) as (l1 & h & l2 & -> & Hf & Hlt' & H1 & H2).
      exists (a :: l1), h, l2.
      split; [reflexivity|]. split; [exact Hf|]. split; [lia|].
      split; [constructor; [lia | assumption] | assumption].
Qed.
End AnalyticsFacts.

(** C8, as the code has it: for a list in which some habit has a
    streak above 0, [longest_streak_overall] returns the first habit of
    the list whose streak is the greatest, with that streak: every
    habit before it has a smaller streak and no habit after it has a
    greater one; for the empty list it returns no habit and 0. *)
Theorem longest_streak_overall_first_max (habits : list Habit.t) (h0 : Habit.t) :
  h0 ∈ habits -> 0 < Habit.streak h0 ->
  (exists l1 h l2,
     habits = l1 ++ h :: l2 /\
     Analytics.longest_streak_overall habits = (Some h, Habit.streak h) /\
     Forall (fun x => Habit.streak x < Habit.streak h) l1 /\
     Forall (fun x => Habit.streak x <= Habit.streak h) l2) /\
  Analytics.longest_streak_overall [] = (None, 0).
Proof.
  intros Hin Hpos. split; [|reflexivity].
  destruct (AnalyticsFacts.foldl_step_max habits None 0 h0 Hin Hpos)
    as (l1 & h & l2 & Heq & Hf & _ & H1 & H2).
  exists l1, h, l2. rewrite AnalyticsFacts.longest_streak_overall_foldl.
  auto.
Qed.

(** C10: when no habit of the list has a streak above 0,
    [longest_streak_overall] returns no habit and 0, also for a list
    that is not empty. *)
Theorem longest_streak_overall_nonpositive (habits : list Habit.t) :
  Forall (fun h => Habit.streak h <= 0) habits ->
  Analytics.longest_streak_overall habits = (None, 0).
Proof.
  intros Hall. rewrite AnalyticsFacts.longest_streak_overall_foldl.
  apply AnalyticsFacts.foldl_step_keep. exact Hall.
Qed.

(** ** db.py *)
Module DbFacts.
Import PyDatetime.

Lemma string_leb_iff a b :
  String.leb a b = true <-> a = b \/ OrderedTypeEx.String_as_OT.lt a b.
Proof.
  unfold String.leb.
  pose proof (OrderedTypeEx.String_as_OT.cmp_eq a b) as He.
  pose proof (OrderedTypeEx.String_as_OT.cmp_lt a b) as Hl.
  unfold OrderedTypeEx.String_as_OT.cmp in *.
  destruct (String.compare a b) eqn:E; split; intros H; auto.
  - left. apply He. reflexivity.
  - right. apply Hl. reflexivity.
  - discriminate.
  - destruct H as [H | H]; [apply He in H | apply Hl in H]; discriminate.
Qed.

Lemma string_leb_refl a : String.leb a a = true.
Proof. apply string_leb_iff. left. reflexivity. Qed.

Lemma string_leb_trans a b c :
  String.leb a b = true -> String.leb b c = true -> String.leb a c = true.
Proof.
  rewrite !string_leb_iff.
  intros [-> | Hab] [-> | Hbc]; auto.
  right. eapply OrderedTypeEx.String_as_OT.lt_trans; eassumption.
Qed.

Lemma string_ltb_false_leb a b : String.ltb a b = false -> String.leb b a = true.
Proof.
  unfold String.ltb, String.leb. rewrite (String.compare_antisym b a).
  destruct (String.compare a b); simpl; congruence.
Qed.

Lemma string_ltb_true_leb a b : String.ltb a b = true -> String.leb a b = true.
Proof.
  unfold String.ltb, String.leb. destruct (String.compare a b); congruence.
Qed.

Lemma foldl_text_max ts acc :
  match foldl Db.text_max acc ts with
  | None => acc = None /\ ts = []
  | Some t =>
      (acc = Some t \/ t ∈ ts) /\
      (forall b, acc = Some b -> Db.text_le b t) /\
      (forall x, x ∈ ts -> Db.text_le x t)
  end.
Proof.
  revert acc. induction ts as [|x ts IH]; intros acc; simpl.
  - destruct acc as [b|]; [|auto].
    split; [auto|]. split.
    + intros ? [= <-]. apply string_leb_refl.
    + intros y Hy. inversion Hy.
  - specialize (IH (Db.text_max acc x)).
    destruct (foldl Db.text_max (Db.text_max acc x) ts) as [t|].
    + destruct IH as (Hin & Hacc & Hall).
      assert (Hx : Db.text_le x t /\ forall b, acc = Some b -> Db.text_le b t).
      { unfold Db.text_max, Db.text_le in *. destruct acc as [b|].
        - destruct (String.ltb (isoformat x) (isoformat b)) eqn:E.
          + split.
            * eapply string_leb_trans; [apply string_ltb_true_leb; exact E|].
              apply Hacc. reflexivity.
            * intros ? [= <-]. apply Hacc. reflexivity.
          + split; [apply Hacc; reflexivity|].
            intros ? [= <-].
            eapply string_leb_trans; [apply string_ltb_false_leb; exact E|].
            apply Hacc. reflexivity.
        - split; [apply Hacc; reflexivity | discriminate]. }
      destruct Hx as [Hx Hb].
      split; [|split; [exact Hb|]].
      * destruct Hin as [Hin | Hin]; [|right; right; exact Hin].
        unfold Db.text_max in Hin. destruct acc as [b|].
        -- destruct (String.ltb (isoformat x) (isoformat b));
             injection Hin as <-; [left; reflexivity | right; left].
        -- injection Hin as <-. right. left.
      * intros y [-> | Hy]%elem_of_cons; [exact Hx | apply Hall, Hy].
    + destruct IH as [Habs _]. unfold Db.text_max in Habs.
      destruct acc as [b|]; [destruct (String.ltb _ _)|]; discriminate.
Qed.

(** What the store returns as the last completion of a habit: none
    when the habit has no logged completion; otherwise the timestamp of
    one of its logged completions, whose ISO text no other one's
    exceeds. *)
Lemma last_completion_spec hid db :
  match Db.last_completion hid db with
  | None => forall r, r ∈ Db.completions db -> Db.crow_habit_id r <> hid
  | Some t =>
      (exists r, r ∈ Db.completions db /\ Db.crow_habit_id r = hid /\
                 Db.crow_completed_at r = t) /\
      (forall r, r ∈ Db.completions db -> Db.crow_habit_id r = hid ->
                 Db.text_le (Db.crow_completed_at r) t)
  end.
Proof.
  unfold Db.last_completion.
  pose proof (foldl_text_max
    (Db.crow_completed_at <$>
       filter (fun r => Db.crow_habit_id r = hid) (Db.completions db)) None) as H.
  destruct (foldl Db.text_max None _) as [t|].
  - destruct H as ([Hin | Hin] & _ & Hall); [discriminate|]. split.
    + apply list_elem_of_fmap in Hin as (r & -> & Hr).
      apply list_elem_of_filter in Hr as [Hh Hr]. eauto.
    + intros r Hr Hh. apply Hall. apply list_elem_of_fmap. exists r.
      split; [reflexivity|]. apply list_elem_of_filter. auto.
  - destruct H as [_ H]. intros r Hr Hh.
    apply fmap_nil_inv in H.
    assert (r ∈ filter (fun r => Db.crow_habit_id r = hid) (Db.completions db))
      by (apply list_elem_of_filter; auto).
    rewrite H in *. inversion H0.
Qed.

(** The order of the texts is not the order of the instants when the
    offsets differ: 23:30 UTC sorts after 23:00 at UTC-5 of the same
    date, which is four and a half hours later. *)
Example text_order_not_chronological :
  let a := make 2026 1 5 23 30 0 0 UTC in
  let b := make 2026 1 5 23 0 0 0 (Some (-18000)) in
  String.ltb (isoformat b) (isoformat a) = true /\
  utc_seconds 0 a < utc_seconds (-18000) b.
Proof. split; reflexivity. Qed.
End DbFacts.

(** ** habit_manager.py *)
Section ServiceFacts.
Import PyDatetime.
Variable localtime : Z -> Z.
Variable uid : Z.

Lemma parse_iso_dt_aware v dt :
  Db.parse_iso_dt v = Some dt -> exists off, tzinfo dt = Some off.
Proof.
  destruct v as [d|]; simpl; [|discriminate].
  destruct (tzinfo d) eqn:E; intros [= <-]; simpl; eauto.
Qed.

Lemma parse_iso_dt_idem v :
  Db.parse_iso_dt (Db.parse_iso_dt v) = Db.parse_iso_dt v.
Proof.
  destruct v as [d|]; simpl; [|reflexivity].
  destruct (tzinfo d) eqn:E; simpl; [rewrite E|]; reflexivity.
Qed.

Lemma parse_iso_dt_id dt off :
  tzinfo dt = Some off -> Db.parse_iso_dt (Some dt) = Some dt.
Proof. intros H. simpl. rewrite H. reflexivity. Qed.

Lemma get_habit_state hid db r db' :
  get_habit uid hid db = (r, db') -> db' = db.
Proof.
  unfold get_habit, Db.bind, Db.get_habit, Db.query.
  destruct (Db.habits db !! hid) as [c|]; simpl.
  - case_bool_decide; intros [= _ <-]; reflexivity.
  - intros [= _ <-]; reflexivity.
Qed.

Lemma get_habit_row hid db c :
  Db.habits db !! hid = Some c -> Db.col_user_id c = uid ->
  get_habit uid hid db = (Ok (Db.habit_row_to_model (hid, c)), db).
Proof.
  intros Hc Hu. unfold get_habit, Db.bind, Db.get_habit, Db.query.
  rewrite Hc. simpl. rewrite bool_decide_eq_true_2 by assumption. reflexivity.
Qed.

Lemma get_habit_Ok hid db h db' :
  get_habit uid hid db = (Ok h, db') ->
  exists c, Db.habits db !! hid = Some c /\ Db.col_user_id c = uid /\
            h = Db.habit_row_to_model (hid, c).
Proof.
  unfold get_habit, Db.bind, Db.get_habit, Db.query.
  destruct (Db.habits db !! hid) as [c|]; simpl; [|discriminate].
  case_bool_decide; [|discriminate]. intros [= <- _]. eauto.
Qed.

(** [resolve_last] only reads, and what it finds is aware. *)
Lemma resolve_last_run h db :
  resolve_last h db =
    (Ok (match Habit.last_completed_at h with
         | Some l => Some l
         | None => Db.parse_iso_dt (Db.last_completion (Habit.id h) db)
         end), db).
Proof.
  unfold resolve_last. destruct (Habit.last_completed_at h); [reflexivity|].
  unfold Db.bind, Db.get_last_completion, Db.query.
  destruct (Db.last_completion (Habit.id h) db) as [t|]; simpl; [|reflexivity].
  destruct (tzinfo t); reflexivity.
Qed.

Lemma update_streak_rule h last c p :
  streak_in_window localtime last c p ->
  update_streak localtime h last c p
  = Ok (spec_streak_rule localtime (Habit.streak h) last c p).
Proof.
  intros Hw. unfold update_streak, spec_streak_rule.
  destruct last as [l|]; [|reflexivity].
  destruct (Hw l eq_refl) as (ol & oc & Hol & Hoc & Hcl & Hcc & Hnext).
  destruct (period_key_converts localtime l ol p Hol Hcl) as [kl Hkl].
  destruct (period_key_converts localtime c oc p Hoc Hcc) as [kc Hkc].
  rewrite Hkl, Hkc in *. cbn [result_bind].
  destruct (decide (kl = kc)) as [-> | Hne].
  - rewrite bool_decide_eq_true_2 by reflexivity.
    rewrite decide_True by reflexivity. reflexivity.
  - rewrite bool_decide_eq_false_2 by assumption.
    rewrite decide_False by congruence.
    assert (Hex : next_period_exists p (local_date localtime ol l))
      by (apply Hnext; congruence).
    assert (Hpos : 1 <= local_date localtime ol l).
    { destruct Hcl as [_ H]. apply in_range_iff in H. lia. }
    rewrite (is_next_period_run localtime l c ol oc p Hol Hoc Hcl Hcc).
    destruct p; unfold next_period_exists, period_days in Hex.
    + unfold date_add_days.
      assert (in_range (local_date localtime ol l + 1) = true) as ->
        by (apply in_range_iff; lia).
      cbn [result_bind].
      destruct (bool_decide _) eqn:E.
      * rewrite decide_True by reflexivity. reflexivity.
      * rewrite decide_False by congruence. reflexivity.
    + assert (in_range (local_date localtime ol l + 7) = true) as ->
        by (apply in_range_iff; lia).
      cbn [result_bind].
      destruct (bool_decide _) eqn:E.
      * rewrite decide_True by reflexivity. reflexivity.
      * rewrite decide_False by congruence. reflexivity.
Qed.

(** When the streak computation returns, its period arithmetic stayed
    in the window. *)
Lemma update_streak_Ok h last c p s :
  update_streak localtime h last c p = Ok s ->
  streak_in_window localtime last c p.
Proof.
  intros H l ->. unfold update_streak in H.
  destruct (period_key localtime l p) as [kl|e] eqn:Hkl; [|discriminate].
  destruct (period_key localtime c p) as [kc|e] eqn:Hkc; [|discriminate].
  cbn [result_bind] in H.
  destruct (period_key_Ok localtime l p kl Hkl) as (ol & Hol & Hcl).
  destruct (period_key_Ok localtime c p kc Hkc) as (oc & Hoc & Hcc).
  exists ol, oc. repeat (split; [assumption|]).
  intros Hne. rewrite bool_decide_eq_false_2 in H by congruence.
  rewrite (is_next_period_run localtime l c ol oc p Hol Hoc Hcl Hcc) in H.
  destruct p; unfold next_period_exists, period_days.
  - unfold date_add_days in H.
    destruct (in_range (local_date localtime ol l + 1)) eqn:E; [|discriminate].
    apply in_range_iff in E. lia.
  - destruct (in_range (local_date localtime ol l + 7)) eqn:E; [|discriminate].
    apply in_range_iff in E. lia.
Qed.

(** On aware datetimes the streak computation raises [OverflowError]
    only. *)
Lemma update_streak_Err h last c p oc e :
  tzinfo c = Some oc ->
  (forall l, last = Some l -> exists ol, tzinfo l = Some ol) ->
  update_streak localtime h last c p = Err e -> e = Overflow.
Proof.
  intros Hc Hl H. unfold update_streak in H.
  destruct last as [l|]; [|discriminate H].
  destruct (Hl l eq_refl) as [ol Hol].
  destruct (period_key localtime l p) as [kl|e1] eqn:Hkl.
  2:{ injection H as <-.
      apply period_key_Err in Hkl as [[_ Hn] | [-> _]]; congruence. }
  destruct (period_key localtime c p) as [kc|e2] eqn:Hkc.
  2:{ injection H as <-.
      apply period_key_Err in Hkc as [[_ Hn] | [-> _]]; congruence. }
  cbn [result_bind] in H. destruct (bool_decide (kl = kc)); [discriminate H|].
  destruct (is_next_period localtime l c p) as [b|e3] eqn:Hn.
  - cbn [result_bind] in H. destruct b; discriminate H.
  - injection H as <-.
    exact (is_next_period_Err localtime l c ol oc p e3 Hol Hc Hn).
Qed.

Lemma update_streak_values h last c p s :
  update_streak localtime h last c p = Ok s ->
  s = 1 \/ s = Habit.streak h \/ s = Habit.streak h + 1.
Proof.
  unfold update_streak. destruct last as [l|]; [|intros [= <-]; auto].
  destruct (period_key localtime l p) as [kl|e1]; [|discriminate].
  destruct (period_key localtime c p) as [kc|e2]; [|discriminate].
  cbn [result_bind]. destruct (bool_decide (kl = kc)); [intros [= <-]; auto|].
  destruct (is_next_period localtime l c p) as [b|e3]; [|discriminate].
  cbn [result_bind]. destruct b; intros [= <-]; auto.
Qed.

Lemma habit_row_to_model_last hid c l :
  Habit.last_completed_at (Db.habit_row_to_model (hid, c)) = Some l ->
  exists ol, tzinfo l = Some ol.
Proof. simpl. apply parse_iso_dt_aware. Qed.

Lemma resolved_aware hid c db l :
  match Habit.last_completed_at (Db.habit_row_to_model (hid, c)) with
  | Some l' => Some l'
  | None => Db.parse_iso_dt (Db.last_completion hid db)
  end = Some l ->
  exists ol, tzinfo l = Some ol.
Proof.
  destruct (Habit.last_completed_at _) as [l'|] eqn:E.
  - intros [= <-]. eapply habit_row_to_model_last. exact E.
  - apply parse_iso_dt_aware.
Qed.

(** [complete_habit] up to the streak computation, whose outcome
    decides: a streak is stored with the new log entry, or the error
    is raised and nothing is written. *)
Lemma complete_habit_outcome now hid db c p completed_at ot :
  Db.habits db !! hid = Some c -> Db.col_user_id c = uid ->
  normalize_periodicity (Habit.periodicity (Db.habit_row_to_model (hid, c))) = Ok p ->
  let t := default (now_local localtime now) completed_at in
  tzinfo t = Some ot ->
  let h := Db.habit_row_to_model (hid, c) in
  let last :=
    match Habit.last_completed_at h with
    | Some l => Some l
    | None => Db.parse_iso_dt (Db.last_completion hid db)
    end in
  complete_habit localtime uid now hid completed_at db =
    match update_streak localtime h last t p with
    | Ok s =>
        (Ok {| CompletionLog.id := Db.next_completion_id db;
               CompletionLog.habit_id := hid;
               CompletionLog.completed_at := t |},
         completed_db db hid (completed_cols c p t s) t)
    | Err e => (Err e, db)
    end.
Proof.
  intros Hc Hu Hp t Ht h last. fold h in Hp.
  unfold complete_habit, Db.bind.
  rewrite (get_habit_row hid db c Hc Hu).
  fold t. rewrite Ht. unfold Db.lift at 1. fold h. rewrite Hp.
  rewrite resolve_last_run.
  change (Habit.id h) with hid. fold last.
  unfold Db.lift at 1.
  destruct (update_streak localtime h last t p) as [s|e]; [|reflexivity].
  unfold Db.insert_completion. rewrite Hc.
  unfold Db.update_habit, Db.bind, Db.lift.
  cbn [Habit.periodicity Habit.set_streak Habit.set_last_completed_at
       Habit.id Habit.title Habit.description Habit.last_completed_at
       Habit.streak Habit.user_id Habit.created_at].
  fold h. rewrite Hp.
  cbn [Db.habits]. change (Habit.id h) with hid. rewrite Hc.
  rewrite decide_True by assumption.
  reflexivity.
Qed.

Lemma complete_habit_run now hid db c p completed_at ot :
  Db.habits db !! hid = Some c -> Db.col_user_id c = uid ->
  normalize_periodicity (Habit.periodicity (Db.habit_row_to_model (hid, c))) = Ok p ->
  let t := default (now_local localtime now) completed_at in
  tzinfo t = Some ot ->
  let h := Db.habit_row_to_model (hid, c) in
  let last :=
    match Habit.last_completed_at h with
    | Some l => Some l
    | None => Db.parse_iso_dt (Db.last_completion hid db)
    end in
  streak_in_window localtime last t p ->
  complete_habit localtime uid now hid completed_at db =
    (Ok {| CompletionLog.id := Db.next_completion_id db;
           CompletionLog.habit_id := hid;
           CompletionLog.completed_at := t |},
     completed_db db hid
       (completed_cols c p t (spec_streak_rule localtime (Habit.streak h) last t p)) t).
Proof.
  intros Hc Hu Hp t Ht h last Hw.
  rewrite (complete_habit_outcome now hid db c p completed_at ot Hc Hu Hp Ht).
  fold t h last. rewrite (update_streak_rule h last t p Hw). reflexivity.
Qed.

(** Outside the window the call raises [OverflowError] before it
    writes. *)
Lemma complete_habit_overflow now hid db c p completed_at ot :
  Db.habits db !! hid = Some c -> Db.col_user_id c = uid ->
  normalize_periodicity (Habit.periodicity (Db.habit_row_to_model (hid, c))) = Ok p ->
  let t := default (now_local localtime now) completed_at in
  tzinfo t = Some ot ->
  let h := Db.habit_row_to_model (hid, c) in
  let last :=
    match Habit.last_completed_at h with
    | Some l => Some l
    | None => Db.parse_iso_dt (Db.last_completion hid db)
    end in
  ~ streak_in_window localtime last t p ->
  complete_habit localtime uid now hid completed_at db = (Err Overflow, db).
Proof.
  intros Hc Hu Hp t Ht h last Hw.
  rewrite (complete_habit_outcome now hid db c p completed_at ot Hc Hu Hp Ht).
  fold t h last.
  destruct (update_streak localtime h last t p) as [s|e] eqn:E.
  - exfalso. apply Hw. eapply update_streak_Ok, E.
  - apply update_streak_Err with (oc := ot) in E as ->; [reflexivity | exact Ht |].
    intros l Hl. eapply resolved_aware. exact Hl.
Qed.

(** What [resolve_last] finds, in terms of the completion log. *)
Lemma resolved_last_run hid c db :
  resolved_last (Db.habit_row_to_model (hid, c)) db
    (match Habit.last_completed_at (Db.habit_row_to_model (hid, c)) with
     | Some l => Some l
     | None => Db.parse_iso_dt (Db.last_completion hid db)
     end).
Proof.
  unfold resolved_last.
  destruct (Habit.last_completed_at _) as [l|]; [reflexivity|].
  change (Habit.id (Db.habit_row_to_model (hid, c))) with hid.
  pose proof (DbFacts.last_completion_spec hid db) as Hspec.
  destruct (Db.last_completion hid db) as [t|].
  - destruct Hspec as ((r & Hr & Hh & <-) & Hmax).
    destruct (Db.parse_iso_dt (Some (Db.crow_completed_at r))) as [l|] eqn:E.
    + exists r. auto.
    + exfalso. cbn in E. destruct (tzinfo _); discriminate.
  - exact Hspec.
Qed.

Lemma get_habit_completed hid db c' t :
  Db.col_user_id c' = uid ->
  get_habit uid hid (completed_db db hid c' t) =
    (Ok (Db.habit_row_to_model (hid, c')), completed_db db hid c' t).
Proof.
  intros Hu. apply get_habit_row; [|assumption].
  unfold completed_db. cbn [Db.habits]. apply lookup_insert_eq.
Qed.

(** The streak rule on the last completion [complete_habit] resolves:
    the habit's [last_completed_at], or else the entry of its
    completion log whose stored text is the greatest. *)
Lemma complete_habit_resolved now hid db h p completed_at ot :
  get_habit uid hid db = (Ok h, db) ->
  normalize_periodicity (Habit.periodicity h) = Ok p ->
  let t := default (now_local localtime now) completed_at in
  tzinfo t = Some ot ->
  exists lastDt,
    resolved_last h db lastDt /\
    (streak_in_window localtime lastDt t p ->
     exists log db' h',
       complete_habit localtime uid now hid completed_at db = (Ok log, db') /\
       get_habit uid hid db' = (Ok h', db') /\
       Habit.streak h'
       = spec_streak_rule localtime (Habit.streak h) lastDt t p) /\
    (~ streak_in_window localtime lastDt t p ->
     complete_habit localtime uid now hid completed_at db
     = (Err Overflow, db)).
Proof.
  intros Hg Hp t Ht.
  destruct (get_habit_Ok hid db h db Hg) as (c & Hc & Hu & ->).
  eexists. split; [apply resolved_last_run|]. split.
  - intros Hw. eexists _, _, _. split; [|split].
    + eapply complete_habit_run; eassumption.
    + apply get_habit_completed. exact Hu.
    + reflexivity.
  - intros Hw. eapply complete_habit_overflow; eassumption.
Qed.

(** C1, within what the code does by design: [complete_habit] is
    called on a habit of the user with a timezone-aware [completed_at]
    (the one given, or the local time of the call), and the last
    completion [lastDt] is the habit's [last_completed_at], or else
    the most recent entry of its completion log, in a log that reads
    in order (the entry whose stored text is the greatest is a most
    recent one).  When the period arithmetic on [lastDt] and
    [completed_at] stays within [datetime], the call succeeds and
    the streak then stored is the four-branch rule's: 1 when [lastDt]
    is absent, the old streak when [lastDt] and [completed_at] have
    the same period key, the old streak plus 1 when [completed_at] is
    in the next period, and 1 otherwise, for the habit's normalized
    periodicity.  When it does not, the call raises [OverflowError]
    and stores nothing. *)
Theorem complete_habit_streak_rule now hid db h p completed_at ot :
  get_habit uid hid db = (Ok h, db) ->
  normalize_periodicity (Habit.periodicity h) = Ok p ->
  let t := default (now_local localtime now) completed_at in
  tzinfo t = Some ot ->
  (Habit.last_completed_at h = None -> log_in_text_order db hid) ->
  exists lastDt,
    spec_last_completion h db lastDt /\
    (streak_in_window localtime lastDt t p ->
     exists log db' h',
       complete_habit localtime uid now hid completed_at db = (Ok log, db') /\
       get_habit uid hid db' = (Ok h', db') /\
       Habit.streak h'
       = spec_streak_rule localtime (Habit.streak h) lastDt t p) /\
    (~ streak_in_window localtime lastDt t p ->
     complete_habit localtime uid now hid completed_at db
     = (Err Overflow, db)).
Proof.
  intros Hg Hp t Ht Hord.
  destruct (complete_habit_resolved now hid db h p completed_at ot Hg Hp Ht)
    as (lastDt & Hres & Hrule).
  exists lastDt. split; [|exact Hrule].
  assert (Hid : Habit.id h = hid).
  { destruct (get_habit_Ok hid db h db Hg) as (c & _ & _ & ->). reflexivity. }
  unfold resolved_last in Hres. unfold spec_last_completion.
  destruct (Habit.last_completed_at h) as [l0|]; [exact Hres|].
  destruct lastDt as [l|]; [|exact Hres].
  destruct Hres as (r & Hr & Hh & Hmax & Hl). exists r. split; [|exact Hl].
  rewrite Hid in *. apply (Hord eq_refl); assumption.
Qed.

Lemma foldr_max_ge (l : list Db.completion_row) seed :
  seed <= foldr (fun r acc => Z.max (Db.crow_id r) acc) seed l.
Proof. induction l as [|r l IH]; simpl; lia. Qed.



(** C6: for a habit of the user and a given timestamp without
    timezone information, [complete_habit] fails with
    [NaiveTimestamp] and leaves the whole store as it was: no
    completion is logged and no field of the habit changes. *)
Theorem complete_habit_naive now hid db h t :
  get_habit uid hid db = (Ok h, db) ->
  tzinfo t = None ->
  complete_habit localtime uid now hid (Some t) db = (Err NaiveTimestamp, db).
Proof.
  intros Hg Ht. unfold complete_habit, Db.bind. rewrite Hg.
  change (default (now_local localtime now) (Some t)) with t.
  rewrite Ht. reflexivity.
Qed.

Lemma edit_habit_run hid db c p0 q title description periodicity :
  Db.habits db !! hid = Some c -> Db.col_user_id c = uid ->
  let h := Db.habit_row_to_model (hid, c) in
  normalize_periodicity (Habit.periodicity h) = Ok p0 ->
  match supplied periodicity with
  | Some p => normalize_periodicity p = Ok q
  | None => q = p0
  end ->
  let c' := edited_cols c h title description p0 q in
  edit_habit uid hid title description periodicity db =
    (Ok (Db.habit_row_to_model (hid, c')), with_habit db hid c').
Proof.
  intros Hc Hu h Hp0 Hq c'.
  unfold edit_habit. unfold Db.bind at 1.
  rewrite (get_habit_row hid db c Hc Hu). fold h.
  set (h1 := match title with
             | Some t => if bool_decide (PyStr.strip t <> "")
                         then Habit.set_title h (PyStr.strip t) else h
             | None => h end).
  set (h2 := match description with
             | Some d => Habit.set_description h1 (PyStr.strip d)
             | None => h1 end).
  assert (Ht : Habit.title h2 = default (Habit.title h) (supplied title)).
  { subst h2 h1. destruct description, title as [t|]; simpl;
      try case_bool_decide; reflexivity. }
  assert (Hd : Habit.description h2
               = default (Habit.description h) (PyStr.strip <$> description)).
  { subst h2 h1. destruct description, title as [t|]; simpl;
      try case_bool_decide; reflexivity. }
  assert (Hrest : Habit.id h2 = hid /\ Habit.periodicity h2 = Habit.periodicity h
                  /\ Habit.last_completed_at h2 = Habit.last_completed_at h
                  /\ Habit.streak h2 = Habit.streak h).
  { subst h2 h1. destruct description, title as [t|]; simpl;
      try case_bool_decide; auto. }
  destruct Hrest as (Hid & Hper & Hlast & Hstr).
  clearbody h2. clear h1.
  assert (Hfinal : forall hf,
    Habit.id hf = hid -> Habit.title hf = Habit.title h2 ->
    Habit.description hf = Habit.description h2 ->
    normalize_periodicity (Habit.periodicity hf) = Ok q ->
    Habit.last_completed_at hf
      = (if decide (q = p0) then Habit.last_completed_at h else None) ->
    Habit.streak hf = (if decide (q = p0) then Habit.streak h else 0) ->
    Db.bind
      (Db.update_habit (Habit.id hf) uid (Habit.title hf) (Habit.description hf)
         (Habit.periodicity hf) (Habit.last_completed_at hf) (Habit.streak hf))
      (fun _ => get_habit uid hid) db
    = (Ok (Db.habit_row_to_model (hid, c')), with_habit db hid c')).
  { intros hf Hf1 Hf2 Hf3 Hf4 Hf5 Hf6.
    unfold Db.update_habit, Db.lift, Db.bind.
    rewrite Hf4, Hf1, Hc.
    rewrite decide_True by assumption.
    rewrite Hf2, Hf3, Hf5, Hf6, Ht, Hd.
    fold (edited_cols c h title description p0 q). fold c'.
    fold (with_habit db hid c').
    apply get_habit_row; [apply lookup_insert_eq | exact Hu]. }
  unfold supplied in Hq.
  destruct periodicity as [p|].
  - case_bool_decide as Hblank.
    + unfold Db.bind at 2. unfold Db.lift at 1. rewrite Hper, Hp0.
      unfold Db.bind at 2. unfold Db.lift at 1.
      cbn [Habit.periodicity Habit.set_periodicity]. rewrite Hq.
      unfold Db.bind at 1.
      destruct (decide (q = p0)) as [-> | Hne].
      * rewrite bool_decide_eq_false_2 by auto.
        unfold Db.ret.
        apply (Hfinal (Habit.set_periodicity h2 (PyStr.strip p)));
          cbn [Habit.id Habit.title Habit.description Habit.periodicity
               Habit.last_completed_at Habit.streak Habit.set_periodicity];
          auto; rewrite decide_True by reflexivity; auto.
      * rewrite bool_decide_eq_true_2 by assumption.
        unfold Db.ret.
        apply (Hfinal (Habit.set_last_completed_at
                         (Habit.set_streak
                            (Habit.set_periodicity h2 (PyStr.strip p)) 0) None));
          cbn [Habit.id Habit.title Habit.description Habit.periodicity
               Habit.last_completed_at Habit.streak Habit.set_periodicity
               Habit.set_streak Habit.set_last_completed_at];
          auto; rewrite decide_False by assumption; auto.
    + subst q. unfold Db.bind at 1. unfold Db.ret.
      apply (Hfinal h2); auto; try congruence;
        rewrite decide_True by reflexivity; auto.
  - subst q. unfold Db.bind at 1. unfold Db.ret.
    apply (Hfinal h2); auto; try congruence;
      rewrite decide_True by reflexivity; auto.
Qed.

Lemma supplied_periodicity p q :
  normalize_periodicity p = Ok q ->
  supplied (Some p) = Some (PyStr.strip p) /\
  normalize_periodicity (PyStr.strip p) = Ok q.
Proof.
  intros H. split.
  - unfold supplied. rewrite bool_decide_eq_true_2; [reflexivity|].
    eapply normalize_periodicity_nonblank. exact H.
  - rewrite normalize_periodicity_strip. exact H.
Qed.

(** C5: when [edit_habit] is given a periodicity that normalizes, the
    edit succeeds and leaves the completion log as it was; if the
    normalized periodicity differs from the habit's, the streak
    becomes 0 and [last_completed_at] absent; if it is the same (a
    change of case or synonym only), streak and [last_completed_at]
    are unchanged. *)
Theorem edit_habit_periodicity_reset hid db h old_p new_p title description p :
  get_habit uid hid db = (Ok h, db) ->
  normalize_periodicity (Habit.periodicity h) = Ok old_p ->
  normalize_periodicity p = Ok new_p ->
  exists h' db',
    edit_habit uid hid title description (Some p) db = (Ok h', db') /\
    get_habit uid hid db' = (Ok h', db') /\
    Db.completions db' = Db.completions db /\
    if decide (new_p = old_p)
    then Habit.streak h' = Habit.streak h /\
         Habit.last_completed_at h' = Habit.last_completed_at h
    else Habit.streak h' = 0 /\ Habit.last_completed_at h' = None.
Proof.
  intros Hg Hold Hnew.
  destruct (get_habit_Ok hid db h db Hg) as (c & Hc & Hu & ->).
  destruct (supplied_periodicity p new_p Hnew) as [Hs Hn].
  eexists _, _. split; [|split; [|split]].
  - eapply (edit_habit_run hid db c old_p new_p); try eassumption.
    rewrite Hs. exact Hn.
  - apply get_habit_row; [apply lookup_insert_eq | exact Hu].
  - reflexivity.
  - cbn [Db.habit_row_to_model edited_cols Habit.streak Habit.last_completed_at
         Db.col_streak Db.col_last_completed_at].
    destruct (decide (new_p = old_p)).
    + split; [reflexivity | apply parse_iso_dt_idem].
    + split; reflexivity.
Qed.

(** What a successful [edit_habit] does to each field and to the rest
    of the store. *)
Lemma edit_habit_fields hid db h p0 q title description periodicity :
  get_habit uid hid db = (Ok h, db) ->
  Habit.periodicity h = periodicity_str p0 ->
  match supplied periodicity with
  | Some p => normalize_periodicity p = Ok q
  | None => q = p0
  end ->
  exists h' db',
    edit_habit uid hid title description periodicity db = (Ok h', db') /\
    get_habit uid hid db' = (Ok h', db') /\
    Habit.id h' = Habit.id h /\
    Habit.user_id h' = Habit.user_id h /\
    Habit.created_at h' = Habit.created_at h /\
    Habit.title h' = default (Habit.title h) (supplied title) /\
    Habit.description h'
      = default (Habit.description h) (PyStr.strip <$> description) /\
    Habit.periodicity h'
      = match supplied periodicity with
        | Some _ => periodicity_str q
        | None => Habit.periodicity h
        end /\
    Habit.streak h' = (if decide (q = p0) then Habit.streak h else 0) /\
    Habit.last_completed_at h'
      = (if decide (q = p0) then Habit.last_completed_at h else None) /\
    Db.completions db' = Db.completions db /\
    Db.users db' = Db.users db /\
    (forall j, j <> hid -> Db.habits db' !! j = Db.habits db !! j) /\
    match description with
    | Some d => if PyStr.blank d then Habit.description h' = "" else True
    | None => True
    end.
Proof.
  intros Hg Hper Hq.
  destruct (get_habit_Ok hid db h db Hg) as (c & Hc & Hu & ->).
  set (h := Db.habit_row_to_model (hid, c)) in *.
  assert (Hp0 : normalize_periodicity (Habit.periodicity h) = Ok p0)
    by (rewrite Hper; apply normalize_periodicity_str).
  eexists _, _. split; [|split].
  - eapply (edit_habit_run hid db c p0 q); eassumption.
  - apply get_habit_row; [apply lookup_insert_eq | exact Hu].
  - fold h.
    cbn [Db.habit_row_to_model edited_cols Habit.id Habit.user_id
         Habit.created_at Habit.title Habit.description Habit.periodicity
         Habit.streak Habit.last_completed_at
         Db.col_user_id Db.col_title Db.col_description Db.col_periodicity
         Db.col_created_at Db.col_streak Db.col_last_completed_at].
    rewrite periodicity_str_nonempty.
    repeat split.
    + destruct (supplied periodicity).
      * reflexivity.
      * subst q. symmetry. exact Hper.
    + destruct (decide (q = p0)); [apply parse_iso_dt_idem | reflexivity].
    + intros j Hj. cbn [with_habit Db.habits]. apply lookup_insert_ne. auto.
    + destruct description as [d|]; [|exact I].
      destruct (PyStr.blank d) eqn:Hb; [|exact I].
      cbn [fmap option_fmap option_map default from_option id].
      apply PyStrFacts.strip_blank. exact Hb.
Qed.

Lemma edit_habit_invalid hid db h p e title description periodicity :
  get_habit uid hid db = (Ok h, db) ->
  supplied periodicity = Some p ->
  normalize_periodicity p = Err e ->
  edit_habit uid hid title description periodicity db = (Err e, db).
Proof.
  intros Hg Hs Hp.
  unfold supplied in Hs. destruct periodicity as [p'|]; [|discriminate].
  case_bool_decide as Hblank; [|discriminate]. injection Hs as <-.
  unfold edit_habit. unfold Db.bind at 1. rewrite Hg.
  set (h1 := match title with
             | Some t => if bool_decide (PyStr.strip t <> "")
                         then Habit.set_title h (PyStr.strip t) else h
             | None => h end).
  set (h2 := match description with
             | Some d => Habit.set_description h1 (PyStr.strip d)
             | None => h1 end).
  rewrite bool_decide_eq_true_2 by assumption.
  unfold Db.bind at 1 2 3. unfold Db.lift.
  destruct (normalize_periodicity (Habit.periodicity h2)) as [old_p|e'] eqn:Hold.
  - cbn [Habit.periodicity Habit.set_periodicity]. rewrite Hp. reflexivity.
  - (* the stored periodicity is rejected first, with the same error *)
    unfold normalize_periodicity in Hp, Hold.
    repeat match type of Hp with
           | (if ?c then _ else _) = _ => destruct c; try discriminate
           end.
    repeat match type of Hold with
           | (if ?c then _ else _) = _ => destruct c; try discriminate
           end.
    congruence.
Qed.

(** C9, as the code has it, for a habit whose stored periodicity is
    canonical (as the service leaves it): an [edit_habit] whose
    periodicity is given, not blank and not valid fails with that error
    and changes nothing; any other succeeds, and then: title and
    periodicity are unchanged when the argument is omitted or blank,
    and are the trimmed argument otherwise (as its canonical name, for
    the periodicity); the description is unchanged when the argument
    is omitted and is the trimmed argument otherwise, so a blank one
    clears it; id, owner and creation time are unchanged; streak and
    [last_completed_at] are unchanged unless the normalized periodicity
    changes, and are then reset to 0 and absent; the completion log,
    the users and the other habits are unchanged. *)
Theorem edit_habit_frame hid db h p0 title description periodicity :
  get_habit uid hid db = (Ok h, db) ->
  Habit.periodicity h = periodicity_str p0 ->
  match
    match supplied periodicity with
    | Some p => normalize_periodicity p
    | None => Ok p0
    end
  with
  | Err e => edit_habit uid hid title description periodicity db = (Err e, db)
  | Ok q =>
      exists h' db',
        edit_habit uid hid title description periodicity db = (Ok h', db') /\
        get_habit uid hid db' = (Ok h', db') /\
        Habit.id h' = Habit.id h /\
        Habit.user_id h' = Habit.user_id h /\
        Habit.created_at h' = Habit.created_at h /\
        Habit.title h' = default (Habit.title h) (supplied title) /\
        Habit.description h'
          = default (Habit.description h) (PyStr.strip <$> description) /\
        Habit.periodicity h'
          = match supplied periodicity with
            | Some _ => periodicity_str q
            | None => Habit.periodicity h
            end /\
        Habit.streak h' = (if decide (q = p0) then Habit.streak h else 0) /\
        Habit.last_completed_at h'
          = (if decide (q = p0) then Habit.last_completed_at h else None) /\
        Db.completions db' = Db.completions db /\
        Db.users db' = Db.users db /\
        (forall j, j <> hid -> Db.habits db' !! j = Db.habits db !! j) /\
        match description with
        | Some d => if PyStr.blank d then Habit.description h' = "" else True
        | None => True
        end
  end.
Proof.
  intros Hg Hper.
  destruct (supplied periodicity) as [p|] eqn:Hs.
  - destruct (normalize_periodicity p) as [q|e] eqn:Hp.
    + pose proof (edit_habit_fields hid db h p0 q title description periodicity
                    Hg Hper) as H.
      rewrite Hs in H. exact (H Hp).
    + eapply edit_habit_invalid; eassumption.
  - pose proof (edit_habit_fields hid db h p0 p0 title description periodicity
                  Hg Hper) as H.
    rewrite Hs in H. exact (H eq_refl).
Qed.

End ServiceFacts.

(** ** The states the service reaches *)
Section Effects.
Import PyDatetime.
Variable localtime : Z -> Z.
Variable uid : Z.

Lemma db_ok_insert db db' hid c' :
  db_ok db -> row_ok c' -> Db.habits db' = <[hid := c']> (Db.habits db) ->
  db_ok db'.
Proof.
  intros Hok Hc' Hh j c. rewrite Hh.
  destruct (decide (hid = j)) as [-> | Hne].
  - rewrite lookup_insert_eq. intros [= <-]. exact Hc'.
  - rewrite lookup_insert_ne by assumption. apply Hok.
Qed.

Lemma create_habit_effect now title description periodicity created_at db r db' :
  create_habit localtime uid now title description periodicity created_at db
    = (r, db') ->
  db' = db \/
  exists hid c', row_ok c' /\ Db.habits db' = <[hid := c']> (Db.habits db).
Proof.
  unfold create_habit, Db.insert_habit, Db.lift. unfold Db.bind at 1 2.
  destruct (normalize_periodicity periodicity) as [p|e].
  - destruct (decide (uid ∈ Db.users db)).
    + intros H. apply get_habit_state in H. subst db'. right.
      eexists _, _. split; [|reflexivity].
      repeat split; cbn; eauto; try lia; discriminate.
    + intros [= _ <-]. left. reflexivity.
  - intros [= _ <-]. left. reflexivity.
Qed.

Lemma complete_habit_effect now hid completed_at db r db' :
  complete_habit localtime uid now hid completed_at db = (r, db') ->
  db' = db \/
  exists c c', Db.habits db !! hid = Some c /\ (row_ok c -> row_ok c') /\
               Db.habits db' = <[hid := c']> (Db.habits db).
Proof.
  intros H.
  destruct (get_habit uid hid db) as [[h|e] db1] eqn:Hg.
  2:{ unfold complete_habit, Db.bind in H. rewrite Hg in H.
      apply get_habit_state in Hg. left. congruence. }
  pose proof (get_habit_state uid hid db _ _ Hg) as ->.
  destruct (get_habit_Ok uid hid db h db Hg) as (c & Hc & Hu & ->).
  destruct (tzinfo (default (now_local localtime now) completed_at)) as [ot|] eqn:Ht.
  2:{ unfold complete_habit, Db.bind in H. rewrite Hg, Ht in H.
      left. unfold Db.raise in H. congruence. }
  destruct (normalize_periodicity
              (Habit.periodicity (Db.habit_row_to_model (hid, c)))) as [p|e] eqn:Hp.
  2:{ unfold complete_habit, Db.bind in H. rewrite Hg, Ht in H.
      unfold Db.lift in H. rewrite Hp in H. left. congruence. }
  rewrite (complete_habit_outcome localtime uid now hid db c p completed_at ot
             Hc Hu Hp Ht) in H.
  destruct (update_streak localtime _ _ _ p) as [s|e] eqn:Hs.
  2:{ left. congruence. }
  injection H as _ <-. right. eexists c, _. split; [exact Hc|].
  split; [|reflexivity].
  intros (Hper & Hz & Hnn & Haw). repeat split.
  - eexists. reflexivity.
  - discriminate.
  - cbn [completed_cols Db.col_streak].
    apply update_streak_values in Hs.
    cbn [Db.habit_row_to_model Habit.streak] in Hs. lia.
  - cbn [completed_cols Db.col_last_completed_at]. intros l [= <-]. eauto.
Qed.

Lemma parse_iso_dt_None v : Db.parse_iso_dt v = None -> v = None.
Proof. destruct v as [d|]; simpl; [destruct (tzinfo d); discriminate | auto]. Qed.

Lemma edited_cols_ok c hid title description p0 q :
  row_ok c ->
  row_ok (edited_cols c (Db.habit_row_to_model (hid, c)) title description p0 q).
Proof.
  intros (Hper & Hz & Hnn & Haw). repeat split.
  - eexists. reflexivity.
  - cbn [edited_cols Db.col_last_completed_at Db.col_streak
         Db.habit_row_to_model Habit.last_completed_at Habit.streak].
    destruct (decide (q = p0)); [|reflexivity].
    intros H. apply Hz, parse_iso_dt_None, H.
  - cbn [edited_cols Db.col_streak Db.habit_row_to_model Habit.streak].
    destruct (decide (q = p0)); lia.
  - cbn [edited_cols Db.col_last_completed_at
         Db.habit_row_to_model Habit.last_completed_at].
    destruct (decide (q = p0)); [|discriminate].
    intros l Hl. eapply parse_iso_dt_aware. exact Hl.
Qed.

Lemma edit_habit_effect hid title description periodicity db r db' :
  edit_habit uid hid title description periodicity db = (r, db') ->
  db' = db \/
  exists c c', Db.habits db !! hid = Some c /\ (row_ok c -> row_ok c') /\
               Db.habits db' = <[hid := c']> (Db.habits db).
Proof.
  intros H.
  destruct (get_habit uid hid db) as [[h|e] db1] eqn:Hg.
  2:{ unfold edit_habit in H. unfold Db.bind at 1 in H. rewrite Hg in H.
      apply get_habit_state in Hg. left. congruence. }
  pose proof (get_habit_state uid hid db _ _ Hg) as ->.
  destruct (get_habit_Ok uid hid db h db Hg) as (c & Hc & Hu & ->).
  set (h := Db.habit_row_to_model (hid, c)) in *.
  assert (Hgood : forall p0 q,
    normalize_periodicity (Habit.periodicity h) = Ok p0 ->
    match supplied periodicity with
    | Some p => normalize_periodicity p = Ok q
    | None => q = p0
    end ->
    db' = db \/
    exists c c', Db.habits db !! hid = Some c /\ (row_ok c -> row_ok c') /\
                 Db.habits db' = <[hid := c']> (Db.habits db)).
  { intros p0 q Hp0 Hq.
    rewrite (edit_habit_run uid hid db c p0 q title description periodicity
               Hc Hu Hp0 Hq) in H.
    injection H as _ <-. right. eexists c, _.
    split; [exact Hc|]. split; [apply edited_cols_ok | reflexivity]. }
  unfold edit_habit in H. unfold Db.bind at 1 in H. rewrite Hg in H. fold h in H.
  set (h1 := match title with
             | Some t => if bool_decide (PyStr.strip t <> "")
                         then Habit.set_title h (PyStr.strip t) else h
             | None => h end) in H.
  set (h2 := match description with
             | Some d => Habit.set_description h1 (PyStr.strip d)
             | None => h1 end) in H.
  assert (Hper : Habit.periodicity h2 = Habit.periodicity h).
  { subst h2 h1. destruct description, title as [t|]; simpl;
      try case_bool_decide; reflexivity. }
  destruct (normalize_periodicity (Habit.periodicity h)) as [p0|e] eqn:Hp0.
  - destruct (supplied periodicity) as [p|] eqn:Hs.
    + destruct (normalize_periodicity p) as [q|e] eqn:Hq.
      * apply (Hgood p0 q eq_refl). reflexivity.
      * left. unfold supplied in Hs. destruct periodicity as [p'|]; [|discriminate].
        case_bool_decide; [|discriminate]. injection Hs as <-.
        unfold Db.bind at 1 2 3 in H. unfold Db.lift in H.
        rewrite Hper, Hp0 in H.
        cbn [Habit.periodicity Habit.set_periodicity] in H.
        rewrite Hq in H. congruence.
    + apply (Hgood p0 p0 eq_refl). reflexivity.
  - left. unfold supplied in *.
    destruct periodicity as [p'|]; [case_bool_decide|].
    + unfold Db.bind at 1 2 in H. unfold Db.lift in H.
      rewrite Hper, Hp0 in H. congruence.
    + unfold Db.bind at 1 2 in H. unfold Db.ret, Db.update_habit in H.
      unfold Db.bind, Db.lift in H. rewrite Hper, Hp0 in H. congruence.
    + unfold Db.bind at 1 2 in H. unfold Db.ret, Db.update_habit in H.
      unfold Db.bind, Db.lift in H. rewrite Hper, Hp0 in H. congruence.
Qed.

End Effects.

Section Reachable.
Variable localtime : Z -> Z.

(** Every row of every reachable state is as [row_ok] says: in
    particular a stored periodicity is canonical, and a habit with
    no last completion has streak 0. *)
Theorem reachable_db_ok db : reachable localtime db -> db_ok db.
Proof.
  induction 1 as [us | db uid' now title description periodicity created_at r db' _ IH H
                  | db uid' hid title description periodicity r db' _ IH H
                  | db uid' now hid completed_at r db' _ IH H].
  - intros hid c. cbn [Db.habits]. rewrite lookup_empty. discriminate.
  - apply create_habit_effect in H as [-> | (hid & c' & Hc' & Hh)]; [exact IH|].
    eapply db_ok_insert; eassumption.
  - apply edit_habit_effect in H as [-> | (c & c' & Hc & Hc' & Hh)]; [exact IH|].
    eapply db_ok_insert; [exact IH | | exact Hh]. apply Hc'. eapply IH. exact Hc.
  - apply complete_habit_effect in H as [-> | (c & c' & Hc & Hc' & Hh)]; [exact IH|].
    eapply db_ok_insert; [exact IH | | exact Hh]. apply Hc'. eapply IH. exact Hc.
Qed.

End Reachable.

(** C4 fails on the code.  In a reachable state a habit can have streak
    0 and a last completion: the habit is completed, its periodicity is
    changed (which resets the streak to 0 and clears the last
    completion), and it is completed again in the same new period as
    the logged completion; [complete_habit] then finds the logged
    completion, takes the new one for a repetition and keeps the streak
    of 0. *)
Theorem completion_after_reset_keeps_streak_zero :
  reachable Demo.utc Demo.store4 /\
  exists h,
    get_habit 1 1 Demo.store4 = (Ok h, Demo.store4) /\
    Habit.streak h = 0 /\
    Habit.last_completed_at h = Some Demo.jan2.
Proof.
  split.
  - eapply reach_complete; [|apply surjective_pairing].
    eapply reach_edit; [|apply surjective_pairing].
    eapply reach_complete; [|apply surjective_pairing].
    eapply reach_create; [|apply surjective_pairing].
    apply reach_init.
  - eexists. split; [vm_compute; reflexivity|]. split; reflexivity.
Qed.

(** ** The scenarios of the test suite *)
Module FlowTests.
Import Demo.

Example daily_streaks :
  (streak_after daily1 daily_store, streak_after daily2 daily_store,
   streak_after daily3 daily_store, streak_after daily4 daily_store)
  = (1, 1, 2, 1).
Proof. vm_compute. reflexivity. Qed.

Example weekly_streaks :
  (streak_after weekly1 weekly_store, streak_after weekly2 weekly_store,
   streak_after weekly3 weekly_store, streak_after weekly4 weekly_store)
  = (1, 1, 2, 1).
Proof. vm_compute. reflexivity. Qed.

Example store2_habit : get_habit 1 1 store2 = (Ok gym2, store2).
Proof. vm_compute. reflexivity. Qed.

Example year_boundary :
  is_next_period utc dec28 jan4_2027 Weekly = Ok true.
Proof. vm_compute. reflexivity. Qed.
End FlowTests.

(** The end of [datetime]'s range. *)
Module RangeTests.
Import PyDatetime Demo.

Example last_day : ymd2ord 9999 12 31 = MAXORDINAL.
Proof. reflexivity. Qed.

Example first_day : ymd2ord 1 1 1 = 1.
Proof. reflexivity. Qed.

Example last_day_plus_one :
  date_add_days (ordinal Scenario.dec31_9999) 1 = Err Overflow.
Proof. reflexivity. Qed.

Example last_week_plus_seven :
  add_days Scenario.dec25_9999 7 = Err Overflow.
Proof. reflexivity. Qed.

Example last_day_west_to_utc :
  astimezone utc (-18000) Scenario.dec31_9999_west = Err Overflow.
Proof. reflexivity. Qed.

Example last_day_period_key :
  period_key utc Scenario.dec31_9999 Daily = Ok (DayKey "9999-12-31").
Proof. vm_compute. reflexivity. Qed.

Example last_day_west_logged :
  Db.completions Scenario.west_store
  = [ {| Db.crow_id := 1; Db.crow_habit_id := 1;
         Db.crow_completed_at := Scenario.dec31_9999_west |} ].
Proof. vm_compute. reflexivity. Qed.

Example last_day_west_due :
  due_habits utc 1 midnight (Some jan2) Scenario.west_store
  = (Err Overflow, Scenario.west_store).
Proof. vm_compute. reflexivity. Qed.

Example last_day_west_due_naive :
  due_habits utc 1 midnight (Some jan2_naive) Scenario.west_store
  = (Err Overflow, Scenario.west_store).
Proof. vm_compute. reflexivity. Qed.

Example last_day_completed_again :
  fst (complete_habit utc 1 midnight 1 (Some jan2) Scenario.late_store)
  = Err Overflow.
Proof. vm_compute. reflexivity. Qed.
End RangeTests.

(** ** Instances of the theorems, and the inputs on which claims fail *)

Lemma complete_habit_streak_rule_witness :
  get_habit 1 1 Scenario.two_store = (Ok Scenario.gym3, Scenario.two_store) /\
  normalize_periodicity (Habit.periodicity Scenario.gym3) = Ok Weekly /\
  PyDatetime.tzinfo Scenario.wed = Some 0 /\
  (Habit.last_completed_at Scenario.gym3 = None ->
   log_in_text_order Scenario.two_store 1) /\
  exists lastDt log db' h',
    spec_last_completion Scenario.gym3 Scenario.two_store lastDt /\
    lastDt = Some Scenario.tue /\
    complete_habit Demo.utc 1 Demo.midnight 1 (Some Scenario.wed)
      Scenario.two_store = (Ok log, db') /\
    get_habit 1 1 db' = (Ok h', db') /\
    Habit.streak h' = 0.
Proof.
  assert (Hg : get_habit 1 1 Scenario.two_store
               = (Ok Scenario.gym3, Scenario.two_store))
    by (vm_compute; reflexivity).
  assert (Hlog : Db.completions Scenario.two_store
                 = [ {| Db.crow_id := 1; Db.crow_habit_id := 1;
                        Db.crow_completed_at := Demo.jan1 |};
                     {| Db.crow_id := 2; Db.crow_habit_id := 1;
                        Db.crow_completed_at := Scenario.tue |} ])
    by (vm_compute; reflexivity).
  assert (Hord : Habit.last_completed_at Scenario.gym3 = None ->
                 log_in_text_order Scenario.two_store 1).
  { intros _ r Hr Hh Hmax. split; [exact Hr|]. split; [exact Hh|].
    rewrite Hlog in Hr.
    apply elem_of_cons in Hr as [-> | Hr].
    - exfalso.
      assert (Hle := Hmax {| Db.crow_id := 2; Db.crow_habit_id := 1;
                             Db.crow_completed_at := Scenario.tue |}).
      rewrite Hlog in Hle.
      specialize (Hle (list_elem_of_further _ _ _ (list_elem_of_here _ _)) eq_refl).
      vm_compute in Hle. discriminate Hle.
    - apply list_elem_of_singleton in Hr as ->.
      intros r' Hr' _. rewrite Hlog in Hr'.
      apply elem_of_cons in Hr' as [-> | Hr'].
      + vm_compute. discriminate.
      + apply list_elem_of_singleton in Hr' as ->. vm_compute. discriminate. }
  split; [exact Hg|]. split; [reflexivity|]. split; [reflexivity|].
  split; [exact Hord|].
  destruct (complete_habit_streak_rule Demo.utc 1 Demo.midnight 1
              Scenario.two_store Scenario.gym3 Weekly (Some Scenario.wed) 0
              Hg eq_refl eq_refl Hord)
    as (lastDt & Hres & Hin & _).
  assert (Hlast : lastDt = Some Scenario.tue).
  { unfold spec_last_completion in Hres.
    cbn [Scenario.gym3 Habit.last_completed_at Habit.id] in Hres.
    destruct lastDt as [l|].
    - destruct Hres as (r & (Hr & _ & Hmax) & Hl). rewrite Hlog in Hr.
      apply elem_of_cons in Hr as [-> | Hr].
      + exfalso.
        assert (Hle := Hmax {| Db.crow_id := 2; Db.crow_habit_id := 1;
                               Db.crow_completed_at := Scenario.tue |}).
        rewrite Hlog in Hle.
        specialize (Hle (list_elem_of_further _ _ _ (list_elem_of_here _ _))
                      eq_refl).
        vm_compute in Hle. apply Hle. reflexivity.
      + apply list_elem_of_singleton in Hr as ->. cbn in Hl. congruence.
    - exfalso. apply (Hres {| Db.crow_id := 1; Db.crow_habit_id := 1;
                              Db.crow_completed_at := Demo.jan1 |}).
      + rewrite Hlog. apply list_elem_of_here.
      + reflexivity. }
  assert (Hw : streak_in_window Demo.utc lastDt
                 (default (now_local Demo.utc Demo.midnight) (Some Scenario.wed))
                 Weekly).
  { rewrite Hlast. intros l [= <-]. exists 0, 0.
    split; [reflexivity|]. split; [reflexivity|].
    split; [split; vm_compute; reflexivity|].
    split; [split; vm_compute; reflexivity|].
    intros _. vm_compute. discriminate. }
  destruct (Hin Hw) as (log & db' & h' & Hrun & Hget & Hstreak).
  exists lastDt, log, db', h'. split; [exact Hres|]. split; [exact Hlast|].
  split; [exact Hrun|]. split; [exact Hget|].
  rewrite Hstreak, Hlast. vm_compute. reflexivity.
Defined.

(** C1 fails as it is worded, in two ways.  The entry the code takes
    from the log is the one whose text is the greatest, which need not
    be the most recent one when the offsets differ: in
    [Scenario.mixed_store] the most recent completion lies in the week
    of the new one, so the rule keeps the streak of 0, but the code
    starts from the completion of the week before and stores 1.  And
    the rule's period arithmetic can leave [datetime]: for a daily
    habit last completed on 9999-12-31 the rule gives 1 for a
    completion in 2026, but the code raises [OverflowError]. *)
Lemma complete_habit_text_order_and_overflow :
  (most_recent_entry Scenario.mixed_store 1 Scenario.row_west /\
   get_habit 1 1 Scenario.mixed_store = (Ok Scenario.gym3, Scenario.mixed_store) /\
   spec_streak_rule Demo.utc (Habit.streak Scenario.gym3)
     (Some (Db.crow_completed_at Scenario.row_west)) Scenario.tue Weekly = 0 /\
   exists log db' h',
     complete_habit Demo.utc 1 Demo.midnight 1 (Some Scenario.tue)
       Scenario.mixed_store = (Ok log, db') /\
     get_habit 1 1 db' = (Ok h', db') /\
     Habit.streak h' = 1) /\
  (exists h,
     get_habit 1 1 Scenario.late_store = (Ok h, Scenario.late_store) /\
     Habit.last_completed_at h = Some Scenario.dec31_9999 /\
     spec_streak_rule Demo.utc (Habit.streak h) (Habit.last_completed_at h)
       Demo.jan2 Daily = 1 /\
     complete_habit Demo.utc 1 Demo.midnight 1 (Some Demo.jan2)
       Scenario.late_store = (Err Overflow, Scenario.late_store)).
Proof.
  split.
  - assert (Hlog : Db.completions Scenario.mixed_store
                   = [Scenario.row_utc; Scenario.row_west])
      by (vm_compute; reflexivity).
    split; [|split; [vm_compute; reflexivity|split; [vm_compute; reflexivity|]]].
    + split; [rewrite Hlog; apply list_elem_of_further, list_elem_of_here|].
      split; [reflexivity|].
      intros r' Hr' _. rewrite Hlog in Hr'.
      apply elem_of_cons in Hr' as [-> | Hr'].
      * vm_compute. discriminate.
      * apply list_elem_of_singleton in Hr' as ->. vm_compute. discriminate.
    + eexists _, _, _. split; [vm_compute; reflexivity|].
      split; vm_compute; reflexivity.
  - eexists. split; [vm_compute; reflexivity|].
    split; [reflexivity|]. split; vm_compute; reflexivity.
Qed.

Lemma is_next_period_weekly_witness :
  PyDatetime.tzinfo Demo.dec28 = Some 0 /\
  PyDatetime.tzinfo Demo.jan4_2027 = Some 0 /\
  (converts Demo.utc 0 Demo.dec28 /\ converts Demo.utc 0 Demo.jan4_2027 /\
   local_date Demo.utc 0 Demo.dec28 + 7 <= PyDatetime.MAXORDINAL) /\
  exists b,
    is_next_period Demo.utc Demo.dec28 Demo.jan4_2027 Weekly = Ok b /\
    (b = true <->
     PyDatetime.iso_week (local_date Demo.utc 0 Demo.dec28 + 7)
     = PyDatetime.iso_week (local_date Demo.utc 0 Demo.jan4_2027)) /\
    (b = true <->
     PyDatetime.week_monday (local_date Demo.utc 0 Demo.jan4_2027)
     = PyDatetime.week_monday (local_date Demo.utc 0 Demo.dec28) + 7).
Proof.
  assert (H1 : converts Demo.utc 0 Demo.dec28) by (split; reflexivity).
  assert (H2 : converts Demo.utc 0 Demo.jan4_2027) by (split; reflexivity).
  assert (H3 : local_date Demo.utc 0 Demo.dec28 + 7 <= PyDatetime.MAXORDINAL)
    by (vm_compute; discriminate).
  split; [reflexivity|]. split; [reflexivity|].
  split; [exact (conj H1 (conj H2 H3))|].
  exact (proj1 (is_next_period_weekly Demo.utc Demo.dec28 Demo.jan4_2027 0 0
                  eq_refl eq_refl) (conj H1 (conj H2 H3))).
Defined.

(** C2 fails as it is worded when [prev] lies in the last week of
    [datetime]: the ISO week of 9999-12-25 plus 7 days is the week of
    9999-12-28, but [prev + timedelta(days=7)] is no [datetime] and
    the call raises [OverflowError] instead of returning true. *)
Lemma is_next_period_weekly_overflow :
  PyDatetime.tzinfo Scenario.dec25_9999 = Some 0 /\
  PyDatetime.tzinfo Scenario.dec28_9999 = Some 0 /\
  PyDatetime.iso_week (local_date Demo.utc 0 Scenario.dec25_9999 + 7)
  = PyDatetime.iso_week (local_date Demo.utc 0 Scenario.dec28_9999) /\
  is_next_period Demo.utc Scenario.dec25_9999 Scenario.dec28_9999 Weekly
  = Err Overflow.
Proof. repeat split; vm_compute; reflexivity. Qed.



Lemma edit_habit_periodicity_reset_witness :
  get_habit 1 1 Demo.store2 = (Ok Demo.gym2, Demo.store2) /\
  normalize_periodicity (Habit.periodicity Demo.gym2) = Ok Daily /\
  normalize_periodicity "Weekly" = Ok Weekly /\
  exists h' db',
    edit_habit 1 1 None None (Some "Weekly") Demo.store2 = (Ok h', db') /\
    get_habit 1 1 db' = (Ok h', db') /\
    Db.completions db' = Db.completions Demo.store2 /\
    Habit.streak h' = 0 /\ Habit.last_completed_at h' = None.
Proof.
  assert (Hg : get_habit 1 1 Demo.store2 = (Ok Demo.gym2, Demo.store2))
    by (vm_compute; reflexivity).
  split; [exact Hg|]. split; [reflexivity|]. split; [reflexivity|].
  exact (edit_habit_periodicity_reset 1 1 Demo.store2 Demo.gym2 Daily Weekly
           None None "Weekly" Hg eq_refl eq_refl).
Defined.

Lemma complete_habit_naive_witness :
  get_habit 1 1 Demo.store2 = (Ok Demo.gym2, Demo.store2) /\
  PyDatetime.tzinfo Demo.jan2_naive = None /\
  complete_habit Demo.utc 1 Demo.midnight 1 (Some Demo.jan2_naive) Demo.store2
  = (Err NaiveTimestamp, Demo.store2).
Proof.
  assert (Hg : get_habit 1 1 Demo.store2 = (Ok Demo.gym2, Demo.store2))
    by (vm_compute; reflexivity).
  split; [exact Hg|]. split; [reflexivity|].
  exact (complete_habit_naive Demo.utc 1 Demo.midnight 1 Demo.store2 Demo.gym2
           Demo.jan2_naive Hg eq_refl).
Defined.

Lemma edit_habit_frame_witness :
  get_habit 1 1 Demo.store2 = (Ok Demo.gym2, Demo.store2) /\
  Habit.periodicity Demo.gym2 = periodicity_str Daily /\
  exists h' db',
    edit_habit 1 1 (Some "  ") (Some " ") (Some "  ") Demo.store2
      = (Ok h', db') /\
    Habit.title h' = "Gym" /\
    Habit.description h' = "" /\
    Habit.periodicity h' = "daily" /\
    Habit.streak h' = 1 /\
    Habit.last_completed_at h' = Some Demo.jan1.
Proof.
  assert (Hg : get_habit 1 1 Demo.store2 = (Ok Demo.gym2, Demo.store2))
    by (vm_compute; reflexivity).
  split; [exact Hg|]. split; [reflexivity|].
  destruct (edit_habit_frame 1 1 Demo.store2 Demo.gym2 Daily
              (Some "  ") (Some " ") (Some "  ") Hg eq_refl)
    as (h' & db' & Hrun & _ & _ & _ & _ & Ht & Hd & Hp & Hs & Hl & _).
  exists h', db'. split; [exact Hrun|].
  split; [exact Ht|]. split; [exact Hd|]. split; [exact Hp|].
  split; [exact Hs | exact Hl].
Defined.

Lemma longest_streak_overall_first_max_witness :
  Demo.with_streak "B" 7
    ∈ [Demo.with_streak "A" 3; Demo.with_streak "B" 7; Demo.with_streak "C" 5]
  /\ 0 < Habit.streak (Demo.with_streak "B" 7)
  /\ (exists l1 h l2,
        [Demo.with_streak "A" 3; Demo.with_streak "B" 7; Demo.with_streak "C" 5]
        = l1 ++ h :: l2 /\
        Analytics.longest_streak_overall
          [Demo.with_streak "A" 3; Demo.with_streak "B" 7;
           Demo.with_streak "C" 5]
        = (Some h, Habit.streak h) /\
        Forall (fun x => Habit.streak x < Habit.streak h) l1 /\
        Forall (fun x => Habit.streak x <= Habit.streak h) l2)
  /\ Analytics.longest_streak_overall [] = (None, 0).
Proof.
  assert (Hin : Demo.with_streak "B" 7
    ∈ [Demo.with_streak "A" 3; Demo.with_streak "B" 7; Demo.with_streak "C" 5])
    by (apply list_elem_of_further, list_elem_of_here).
  assert (Hpos : 0 < Habit.streak (Demo.with_streak "B" 7)) by reflexivity.
  split; [exact Hin|]. split; [exact Hpos|].
  exact (longest_streak_overall_first_max _ _ Hin Hpos).
Defined.

Lemma longest_streak_overall_nonpositive_witness :
  Forall (fun h => Habit.streak h <= 0)
    [Demo.with_streak "A" 0; Demo.with_streak "B" 0] /\
  Analytics.longest_streak_overall
    [Demo.with_streak "A" 0; Demo.with_streak "B" 0] = (None, 0).
Proof.
  assert (Hall : Forall (fun h => Habit.streak h <= 0)
                   [Demo.with_streak "A" 0; Demo.with_streak "B" 0])
    by (repeat constructor; discriminate).
  split; [exact Hall|].
  exact (longest_streak_overall_nonpositive _ Hall).
Defined.

(** C8 as stated fails: a list that is not empty, of one habit with
    streak 0, yields no habit. *)
Lemma longest_streak_overall_all_zero :
  [Demo.with_streak "A" 0] <> [] /\
  Analytics.longest_streak_overall [Demo.with_streak "A" 0] = (None, 0).
Proof. split; [discriminate | reflexivity]. Qed.

(** C9 as stated fails: an edit that names the periodicity only changes
    the streak and the last completion as well. *)
Lemma edit_habit_resets_unnamed :
  get_habit 1 1 Demo.store2 = (Ok Demo.gym2, Demo.store2) /\
  exists h',
    fst (edit_habit 1 1 None None (Some "weekly") Demo.store2) = Ok h' /\
    Habit.streak h' <> Habit.streak Demo.gym2 /\
    Habit.last_completed_at h' <> Habit.last_completed_at Demo.gym2.
Proof.
  split; [vm_compute; reflexivity|].
  eexists. split; [vm_compute; reflexivity|].
  split; discriminate.
Qed.

(** * Further properties of the code *)

Import PyDatetime.

(** ** The calendar: [_ord2ymd] inverts [_ymd2ord], [isoformat] of a date
    determines the date *)
Lemma month_day_spec n leap :
  0 <= n < 365 ->
  let '(m, d) := month_day n leap in
  1 <= m <= 12 /\ 1 <= d <= 31 /\
  table DAYS_BEFORE_MONTH m + (if (2 <? m) && leap then 1 else 0) + d = n + 1.
Proof.
  intros Hn. unfold month_day. cbv zeta.
  rewrite Z.shiftr_div_pow2 by lia. change (2 ^ 5) with 32.
  assert (Hm : 1 <= (n + 50) / 32 <= 12) by (Z.div_mod_to_equations; lia).
  set (m := (n + 50) / 32) in *.
  assert (Hdef : 32 * m <= n + 50 < 32 * m + 32)
    by (subst m; Z.div_mod_to_equations; lia).
  clearbody m.
  assert (Hcases : m = 1 \/ m = 2 \/ m = 3 \/ m = 4 \/ m = 5 \/ m = 6 \/ m = 7
                   \/ m = 8 \/ m = 9 \/ m = 10 \/ m = 11 \/ m = 12) by lia.
  unfold table, DAYS_BEFORE_MONTH, DAYS_IN_MONTH.
  destruct leap;
  repeat (destruct Hcases as [-> | Hcases]); try subst m; simpl;
    match goal with
    | |- context [if ?c then _ else _] => destruct c eqn:E
    end;
    try (apply Z.ltb_lt in E); try (apply Z.ltb_ge in E);
    simpl; lia.
Qed.

Lemma is_leap_iff y :
  is_leap y = true <-> y mod 4 = 0 /\ (y mod 100 <> 0 \/ y mod 400 = 0).
Proof.
  unfold is_leap.
  rewrite andb_true_iff, orb_true_iff, negb_true_iff, !Z.eqb_eq, Z.eqb_neq.
  reflexivity.
Qed.

Lemma ord2ymd_month_day n :
  ord2ymd n =
    let m := n - 1 in
    let n400 := m / DI400Y in
    let r := m mod DI400Y in
    let n100 := r / DI100Y in
    let r2 := r mod DI100Y in
    let n4 := r2 / DI4Y in
    let r3 := r2 mod DI4Y in
    let n1 := r3 / 365 in
    let r4 := r3 mod 365 in
    let year := n400 * 400 + 1 + (n100 * 100 + n4 * 4 + n1) in
    if (n1 =? 4) || (n100 =? 4) then (year - 1, 12, 31)
    else
      let leapyear := (n1 =? 3) && (negb (n4 =? 24) || (n100 =? 3)) in
      (year, fst (month_day r4 leapyear), snd (month_day r4 leapyear)).
Proof.
  unfold ord2ymd, month_day. cbv zeta.
  repeat match goal with |- context [if ?c then _ else _] => destruct c end;
    reflexivity.
Qed.

(** [_ord2ymd] gives a month from 1 to 12 and a day from 1 to 31, and
    [_ymd2ord] takes them back to the ordinal. *)
Lemma ord2ymd_spec n :
  let '(y, m, d) := ord2ymd n in
  1 <= m <= 12 /\ 1 <= d <= 31 /\ ymd2ord y m d = n /\ y = year_of n.
Proof.
  pose proof (PyDatetimeFacts.year_of_eq n) as Hy.
  rewrite ord2ymd_month_day. rewrite Hy. clear Hy.
  unfold DI400Y, DI100Y, DI4Y. cbv zeta.
  set (a := (n - 1) / 146097).
  set (r := (n - 1) mod 146097).
  set (b := r / 36524). set (r2 := r mod 36524).
  set (c := r2 / 1461). set (r3 := r2 mod 1461).
  set (d := r3 / 365).
  assert (Hn : n - 1 = 146097 * a + r /\ 0 <= r < 146097)
    by (subst a r; split; [apply Z.div_mod; lia | apply Z.mod_pos_bound; lia]).
  assert (Hr : r = 36524 * b + r2 /\ 0 <= r2 < 36524)
    by (subst b r2; split; [apply Z.div_mod; lia | apply Z.mod_pos_bound; lia]).
  assert (Hr2 : r2 = 1461 * c + r3 /\ 0 <= r3 < 1461)
    by (subst c r3; split; [apply Z.div_mod; lia | apply Z.mod_pos_bound; lia]).
  assert (Hr3 : r3 = 365 * d + r3 mod 365 /\ 0 <= r3 mod 365 < 365)
    by (subst d; split; [apply Z.div_mod; lia | apply Z.mod_pos_bound; lia]).
  set (r4 := r3 mod 365) in *.
  clearbody a r b r2 c r3 d r4.
  assert (0 <= b <= 4) by lia.
  assert (0 <= c <= 24) by lia.
  assert (0 <= d <= 4) by lia.
  destruct ((d =? 4) || (b =? 4)) eqn:Hcase.
  - (* December 31st of a leap year *)
    split; [lia|]. split; [lia|]. split; [|reflexivity].
    unfold ymd2ord, days_before_month.
    change (table DAYS_BEFORE_MONTH 12) with 334. change (2 <? 12) with true.
    cbn [andb].
    assert (Hleap : is_leap (a * 400 + 1 + (b * 100 + c * 4 + d) - 1) = true).
    { apply is_leap_iff. apply orb_true_iff in Hcase.
      destruct Hcase as [E | E]; apply Z.eqb_eq in E; subst;
        Z.div_mod_to_equations; lia. }
    rewrite Hleap. unfold days_before_year. cbv zeta.
    apply orb_true_iff in Hcase.
    destruct Hcase as [E | E]; apply Z.eqb_eq in E; subst;
      Z.div_mod_to_equations; lia.
  - apply orb_false_iff in Hcase as [Hd Hb]. apply Z.eqb_neq in Hd, Hb.
    set (leap := (d =? 3) && (negb (c =? 24) || (b =? 3))).
    pose proof (month_day_spec r4 leap ltac:(lia)) as Hmd.
    destruct (month_day r4 leap) as [m dd]. cbn [fst snd].
    destruct Hmd as (Hm & Hdd & Hsum).
    split; [exact Hm|]. split; [exact Hdd|]. split; [|reflexivity].
    assert (Hleap : is_leap (a * 400 + 1 + (b * 100 + c * 4 + d)) = leap).
    { apply eq_true_iff_eq. rewrite is_leap_iff. subst leap.
      rewrite andb_true_iff, orb_true_iff, negb_true_iff, !Z.eqb_eq, Z.eqb_neq.
      split; intros Hx.
      - Z.div_mod_to_equations. lia.
      - destruct Hx as [-> Hx]. Z.div_mod_to_equations. lia. }
    unfold ymd2ord, days_before_month. rewrite Hleap.
    unfold days_before_year. cbv zeta.
    Z.div_mod_to_equations. lia.
Qed.

Lemma ord2ymd_inj a b : ord2ymd a = ord2ymd b -> a = b.
Proof.
  intros H.
  pose proof (ord2ymd_spec a) as Ha. pose proof (ord2ymd_spec b) as Hb.
  rewrite H in Ha. destruct (ord2ymd b) as [[y m] d].
  destruct Ha as (_ & _ & <- & _), Hb as (_ & _ & <- & _). reflexivity.
Qed.

Lemma digit_spec d :
  0 <= d <= 9 -> digit_value (digit d) = d /\ is_digit (digit d) = true.
Proof.
  intros Hd. unfold is_digit.
  assert (H : digit_value (digit d) = d).
  { unfold digit_value, digit.
    rewrite nat_ascii_embedding by lia. lia. }
  rewrite H. split; [reflexivity|]. lia.
Qed.

Lemma dec_digits_spec fuel n acc :
  0 <= n < 10 ^ Z.of_nat fuel -> all_digits acc = true ->
  all_digits (dec_digits fuel n acc) = true /\
  dec_value (dec_digits fuel n acc)
  = n * 10 ^ Z.of_nat (String.length acc) + dec_value acc.
Proof.
  revert n acc. induction fuel as [|fuel IH]; intros n acc Hn Hacc.
  - simpl in *. split; [assumption|]. assert (n = 0) by lia. subst. lia.
  - cbn [dec_digits].
    assert (Hmod : 0 <= n mod 10 <= 9) by (Z.div_mod_to_equations; lia).
    destruct (digit_spec (n mod 10) Hmod) as [Hv Hd].
    assert (Hacc' : all_digits (String (digit (n mod 10)) acc) = true)
      by (cbn [all_digits]; rewrite Hd, Hacc; reflexivity).
    assert (Hval : dec_value (String (digit (n mod 10)) acc)
                   = n mod 10 * 10 ^ Z.of_nat (String.length acc) + dec_value acc)
      by (cbn [dec_value]; rewrite Hv; reflexivity).
    destruct (n / 10 =? 0) eqn:E.
    + apply Z.eqb_eq in E. split; [assumption|]. rewrite Hval.
      replace (n mod 10) with n by (Z.div_mod_to_equations; lia). reflexivity.
    + apply Z.eqb_neq in E.
      rewrite Nat2Z.inj_succ, Z.pow_succ_r in Hn by lia.
      destruct (IH (n / 10) (String (digit (n mod 10)) acc)
                  ltac:(Z.div_mod_to_equations; lia) Hacc') as [Hall Hdec].
      split; [assumption|]. rewrite Hdec, Hval.
      cbn [String.length]. rewrite Nat2Z.inj_succ, Z.pow_succ_r by lia.
      set (P := 10 ^ Z.of_nat (String.length acc)).
      rewrite (Z.div_mod n 10) at 3 by lia. ring.
Qed.

Lemma zeros_spec k s :
  all_digits s = true ->
  all_digits (zeros k s) = true /\ dec_value (zeros k s) = dec_value s.
Proof.
  intros Hs. induction k as [|k [IH1 IH2]]; cbn [zeros]; [auto|].
  split.
  - cbn [all_digits]. rewrite IH1. reflexivity.
  - cbn [dec_value]. rewrite IH2. change (digit_value "0") with 0. lia.
Qed.

Lemma pow10_log2 n : 0 <= n -> n < 10 ^ Z.of_nat (S (Z.to_nat (Z.log2 n))).
Proof.
  intros Hn. rewrite Nat2Z.inj_succ, Z2Nat.id by apply Z.log2_nonneg.
  destruct (Z.eq_dec n 0) as [-> | Hne].
  - cbn. lia.
  - pose proof (Z.log2_spec n ltac:(lia)) as [_ Hlt].
    eapply Z.lt_le_trans; [exact Hlt|].
    apply Z.pow_le_mono_l. lia.
Qed.

(** A number that is not negative prints as digits only, and reads
    back. *)
Lemma fmt_spec w n :
  0 <= n -> all_digits (fmt w n) = true /\ dec_value (fmt w n) = n.
Proof.
  intros Hn. unfold fmt.
  replace (n <? 0) with false by (symmetry; apply Z.ltb_ge; lia).
  rewrite Z.abs_eq by assumption.
  destruct (dec_digits_spec (S (Z.to_nat (Z.log2 n))) n ""
              (conj Hn (pow10_log2 n Hn)) eq_refl) as [Hall Hval].
  destruct (zeros_spec (w - String.length
                              (dec_digits (S (Z.to_nat (Z.log2 n))) n ""))
              _ Hall) as [Hz1 Hz2].
  split; [exact Hz1|]. rewrite Hz2, Hval. cbn. lia.
Qed.

Lemma split_dash_app s r :
  all_digits s = true -> split_dash (s +:+ "-" +:+ r) = (s, r).
Proof.
  induction s as [|c s IH]; intros Hs.
  - reflexivity.
  - cbn [all_digits] in Hs. apply andb_prop in Hs as [Hc Hs].
    change (String c s +:+ "-" +:+ r) with (String c (s +:+ "-" +:+ r)).
    cbn [split_dash]. rewrite Hc, (IH Hs). reflexivity.
Qed.

Lemma split_dash_digits s :
  all_digits s = true -> split_dash s = (s, "").
Proof.
  induction s as [|c s IH]; intros Hs; [reflexivity|].
  cbn [all_digits] in Hs. apply andb_prop in Hs as [Hc Hs].
  cbn [split_dash]. rewrite Hc, (IH Hs). reflexivity.
Qed.

Lemma year_of_pos n : 1 <= n -> 1 <= year_of n.
Proof.
  intros Hn. pose proof (PyDatetimeFacts.year_of_bracket n) as [_ H].
  unfold days_before_year in H. cbv zeta in H.
  Z.div_mod_to_equations. lia.
Qed.

(** The text of a date from year 1 on reads back as its year, month
    and day. *)
Lemma parse_date_isoformat n :
  1 <= n -> parse_date (date_isoformat n) = ord2ymd n.
Proof.
  intros Hn. unfold date_isoformat, parse_date.
  pose proof (ord2ymd_spec n) as H. pose proof (year_of_pos n Hn) as Hy.
  destruct (ord2ymd n) as [[y m] d]. destruct H as (Hm & Hd & _ & ->).
  destruct (fmt_spec 4 (year_of n) ltac:(lia)) as [Hy1 Hy2].
  destruct (fmt_spec 2 m ltac:(lia)) as [Hm1 Hm2].
  destruct (fmt_spec 2 d ltac:(lia)) as [Hd1 Hd2].
  rewrite (split_dash_app _ _ Hy1), (split_dash_app _ _ Hm1).
  rewrite Hy2, Hm2, Hd2. reflexivity.
Qed.

(** Two dates from year 1 on that print the same are the same. *)
Lemma date_isoformat_inj a b :
  1 <= a -> 1 <= b -> date_isoformat a = date_isoformat b -> a = b.
Proof.
  intros Ha Hb H. apply ord2ymd_inj.
  rewrite <- (parse_date_isoformat a Ha), <- (parse_date_isoformat b Hb), H.
  reflexivity.
Qed.

(** ** time_utils.py: periods as calendar days and weeks *)
Lemma week_monday_index n : week_monday n = 7 * period_index Weekly n - 6.
Proof.
  unfold week_monday, weekday, period_index. Z.div_mod_to_equations. lia.
Qed.

Section TimeUtilsMore.
Variable localtime : Z -> Z.

Lemma converts_pos off dt :
  converts localtime off dt -> 1 <= local_date localtime off dt.
Proof. intros [_ H]. apply in_range_iff in H. lia. Qed.

Lemma period_key_index a oa b ob p :
  tzinfo a = Some oa -> tzinfo b = Some ob ->
  converts localtime oa a -> converts localtime ob b ->
  period_key localtime a p = period_key localtime b p <->
  period_index p (local_date localtime oa a)
  = period_index p (local_date localtime ob b).
Proof.
  intros Ha Hb Hca Hcb.
  pose proof (converts_pos oa a Hca) as Hpa.
  pose proof (converts_pos ob b Hcb) as Hpb.
  unfold period_key. rewrite Ha, Hb.
  destruct (astimezone_converts localtime a oa Hca) as (la & -> & Hla).
  destruct (astimezone_converts localtime b ob Hcb) as (lb & -> & Hlb).
  cbn [result_bind]. rewrite Hla, Hlb.
  destruct p; cbn [period_index].
  - split.
    + intros [= H]. apply date_isoformat_inj; assumption.
    + intros ->. reflexivity.
  - pose proof (PyDatetimeFacts.iso_week_week_monday
                  (local_date localtime oa a) (local_date localtime ob b))
      as Hiff.
    rewrite !week_monday_index in Hiff. cbn [period_index] in Hiff.
    unfold iso_week in Hiff.
    destruct (isocalendar (local_date localtime oa a)) as [[y1 w1] d1].
    destruct (isocalendar (local_date localtime ob b)) as [[y2 w2] d2].
    split.
    + intros [= -> ->]. assert (H : (y2, w2) = (y2, w2)) by reflexivity.
      apply Hiff in H. lia.
    + intros H. assert (H' : (y1, w1) = (y2, w2)) by (apply Hiff; lia).
      injection H' as -> ->. reflexivity.
Qed.

Lemma is_next_period_index a oa b ob p :
  tzinfo a = Some oa -> tzinfo b = Some ob ->
  converts localtime oa a -> converts localtime ob b ->
  is_next_period localtime a b p
  = if local_date localtime oa a + period_days p <=? MAXORDINAL then
      Ok (bool_decide (period_index p (local_date localtime ob b)
                       = period_index p (local_date localtime oa a) + 1))
    else Err Overflow.
Proof.
  intros Ha Hb Hca Hcb.
  pose proof (converts_pos oa a Hca) as Hpa.
  rewrite (is_next_period_run localtime a b oa ob p Ha Hb Hca Hcb).
  destruct p; cbn [period_index period_days].
  - unfold date_add_days.
    destruct (Z.leb_spec (local_date localtime oa a + 1) MAXORDINAL) as [Hle|Hgt].
    + assert (in_range (local_date localtime oa a + 1) = true) as ->
        by (apply in_range_iff; lia).
      reflexivity.
    + assert (in_range (local_date localtime oa a + 1) = false) as ->
        by (apply in_range_false; lia).
      reflexivity.
  - destruct (Z.leb_spec (local_date localtime oa a + 7) MAXORDINAL) as [Hle|Hgt].
    + assert (in_range (local_date localtime oa a + 7) = true) as ->
        by (apply in_range_iff; lia).
      f_equal. apply bool_decide_ext.
      rewrite (PyDatetimeFacts.iso_week_week_monday
                 (local_date localtime ob b) (local_date localtime oa a + 7)).
      rewrite !week_monday_index. cbn [period_index].
      split; intros H; Z.div_mod_to_equations; lia.
    + assert (in_range (local_date localtime oa a + 7) = false) as ->
        by (apply in_range_false; lia).
      reflexivity.
Qed.

End TimeUtilsMore.

Section PeriodFacts.
Variable localtime : Z -> Z.

(** X1.  [period_key] sees the instant only: two timezone-aware datetimes
    that denote the same instant, under whatever offsets, have the same
    period key. *)
Theorem period_key_same_instant a oa b ob p :
  tzinfo a = Some oa -> tzinfo b = Some ob ->
  utc_seconds oa a = utc_seconds ob b ->
  period_key localtime a p = period_key localtime b p.
Proof.
  intros Ha Hb Hu. unfold period_key. rewrite Ha, Hb.
  unfold astimezone. rewrite Hu. cbv zeta.
  destruct (in_range (utc_seconds ob b / 86400)); [|reflexivity].
  cbn [wall ordinal]. destruct (in_range _); reflexivity.
Qed.

(** X2.  [is_same_period] on two timezone-aware datetimes: when
    [astimezone()] converts both (their UTC and local dates are dates
    of [datetime]), it answers whether their local dates are the same
    day, for a daily habit, or lie in the same Monday-to-Sunday week,
    for a weekly one; when it cannot convert one of them, the call
    raises [OverflowError]. *)
Theorem is_same_period_calendar a oa b ob p :
  tzinfo a = Some oa -> tzinfo b = Some ob ->
  (converts localtime oa a -> converts localtime ob b ->
   is_same_period localtime a b p
   = Ok (bool_decide (period_index p (local_date localtime oa a)
                      = period_index p (local_date localtime ob b)))) /\
  (~ (converts localtime oa a /\ converts localtime ob b) ->
   is_same_period localtime a b p = Err Overflow).
Proof.
  intros Ha Hb. split.
  - intros Hca Hcb.
    pose proof (period_key_index localtime a oa b ob p Ha Hb Hca Hcb) as Hiff.
    unfold is_same_period.
    destruct (period_key_converts localtime a oa p Ha Hca) as [ka Hka].
    destruct (period_key_converts localtime b ob p Hb Hcb) as [kb Hkb].
    rewrite Hka, Hkb in *. cbn [result_bind]. f_equal.
    apply bool_decide_ext. rewrite <- Hiff. split; congruence.
  - intros Hn. unfold is_same_period.
    destruct (period_key localtime a p) as [ka|e] eqn:Hka.
    + destruct (period_key_Ok localtime a p ka Hka) as (oa' & Hoa & Hca).
      assert (oa' = oa) as -> by congruence.
      rewrite (period_key_overflow localtime b ob p Hb); [reflexivity|].
      intros Hcb. apply Hn. auto.
    + apply period_key_Err in Hka as [[_ Hnone] | [-> _]];
        [congruence | reflexivity].
Qed.

(** X3.  A datetime [a] without timezone information makes
    [period_key], [is_same_period] and [is_next_period] fail with
    [NaiveTimestamp] when it is their first argument, and
    [is_next_period] also when it is the second; [is_due] fails so when
    [a] is the last completion, and returns true without looking at
    [now] for a habit never completed.  When [a] comes second in
    [is_same_period], or is the [now] of [is_due] for a habit with a
    last completion, the other datetime is converted first: the
    failure is [NaiveTimestamp] unless that conversion raises
    [OverflowError]. *)
Theorem naive_datetime_rejected a b p :
  tzinfo a = None ->
  period_key localtime a p = Err NaiveTimestamp /\
  is_same_period localtime a b p = Err NaiveTimestamp /\
  is_next_period localtime a b p = Err NaiveTimestamp /\
  is_next_period localtime b a p = Err NaiveTimestamp /\
  is_due localtime (Some a) b p = Err NaiveTimestamp /\
  is_due localtime None a p = Ok true /\
  (forall ob, tzinfo b = Some ob ->
     is_same_period localtime b a p
     = (if decide (converts localtime ob b) then Err NaiveTimestamp
        else Err Overflow) /\
     is_due localtime (Some b) a p
     = (if decide (converts localtime ob b) then Err NaiveTimestamp
        else Err Overflow)) /\
  (tzinfo b = None ->
   is_same_period localtime b a p = Err NaiveTimestamp /\
   is_due localtime (Some b) a p = Err NaiveTimestamp).
Proof.
  intros Ha.
  assert (Hk : period_key localtime a p = Err NaiveTimestamp)
    by (unfold period_key; rewrite Ha; reflexivity).
  split; [exact Hk|].
  split; [unfold is_same_period; rewrite Hk; reflexivity|].
  split; [unfold is_next_period; rewrite Ha; reflexivity|].
  split; [unfold is_next_period; rewrite Ha; destruct (tzinfo b); reflexivity|].
  split; [unfold is_due; rewrite Hk; reflexivity|].
  split; [reflexivity|]. split.
  - intros ob Hb. unfold is_same_period, is_due.
    destruct (decide (converts localtime ob b)) as [Hc | Hn].
    + destruct (period_key_converts localtime b ob p Hb Hc) as [k ->].
      cbn [result_bind]. rewrite Hk. auto.
    + rewrite (period_key_overflow localtime b ob p Hb Hn). auto.
  - intros Hb.
    assert (Hkb : period_key localtime b p = Err NaiveTimestamp)
      by (unfold period_key; rewrite Hb; reflexivity).
    unfold is_same_period, is_due. rewrite Hkb. auto.
Qed.


End PeriodFacts.

(** ** habit_manager.py: creation, ownership, completion *)
Lemma foldr_key_max_ge (l : list (Z * Db.habit_cols)) seed :
  seed <= foldr (uncurry (fun k (_ : Db.habit_cols) acc => Z.max k acc)) seed l /\
  forall k c, (k, c) ∈ l ->
    k <= foldr (uncurry (fun k (_ : Db.habit_cols) acc => Z.max k acc)) seed l.
Proof.
  induction l as [|[k0 c0] l [IH1 IH2]]; simpl.
  - split; [lia|]. intros k c H. inversion H.
  - split; [lia|]. intros k c [[= -> ->] | H]%elem_of_cons; [lia|].
    specialize (IH2 k c H). lia.
Qed.

(** The next id of [habits] is above the counter and above every id
    in the table. *)
Lemma next_habit_id_fresh db :
  Db.habits_seq db < Db.next_habit_id db /\
  forall k c, Db.habits db !! k = Some c -> k < Db.next_habit_id db.
Proof.
  unfold Db.next_habit_id. rewrite map_fold_foldr.
  destruct (foldr_key_max_ge (map_to_list (Db.habits db)) (Db.habits_seq db))
    as [H1 H2].
  split; [lia|]. intros k c Hk.
  apply elem_of_map_to_list in Hk. specialize (H2 k c Hk). lia.
Qed.

Section OwnershipFacts.
Variable localtime : Z -> Z.
Variable uid : Z.

(** X5.  [create_habit] with a periodicity that normalizes, for a registered
    user: the habit gets an id no habit had, above the counter; it is
    stored with the trimmed title and description, the canonical
    periodicity, no completion and streak 0; a creation time without
    timezone is read back as UTC; [get_habit] returns it; no other
    habit and no completion changes. *)
Theorem create_habit_fresh now title description periodicity created_at db p :
  normalize_periodicity periodicity = Ok p ->
  uid ∈ Db.users db ->
  exists h db',
    create_habit localtime uid now title description periodicity created_at db
      = (Ok h, db') /\
    get_habit uid (Habit.id h) db' = (Ok h, db') /\
    Db.habits db !! Habit.id h = None /\
    Db.habits_seq db < Habit.id h /\
    Db.habits_seq db' = Habit.id h /\
    Habit.user_id h = uid /\
    Habit.title h = PyStr.strip title /\
    Habit.description h = PyStr.strip description /\
    Habit.periodicity h = periodicity_str p /\
    Habit.created_at h
      = (let c := default (now_local localtime now) created_at in
         match tzinfo c with
         | None => replace_tzinfo c UTC
         | Some _ => c
         end) /\
    Habit.last_completed_at h = None /\
    Habit.streak h = 0 /\
    Db.completions db' = Db.completions db /\
    Db.users db' = Db.users db /\
    (forall j, j <> Habit.id h -> Db.habits db' !! j = Db.habits db !! j).
Proof.
  intros Hp Hu.
  destruct (next_habit_id_fresh db) as [Hseq Hfresh].
  assert (Hnone : Db.habits db !! Db.next_habit_id db = None).
  { destruct (Db.habits db !! Db.next_habit_id db) as [c|] eqn:E; [|reflexivity].
    specialize (Hfresh _ _ E). lia. }
  unfold create_habit, Db.insert_habit, Db.lift. unfold Db.bind at 1 2.
  rewrite Hp. rewrite decide_True by assumption.
  eexists _, _. split.
  { apply get_habit_row; [apply lookup_insert_eq | reflexivity]. }
  split.
  { apply get_habit_row; [apply lookup_insert_eq | reflexivity]. }
  cbn [Db.habit_row_to_model Habit.id Habit.user_id Habit.title
       Habit.description Habit.periodicity Habit.created_at
       Habit.last_completed_at Habit.streak Db.col_user_id Db.col_title
       Db.col_description Db.col_periodicity Db.col_created_at
       Db.col_last_completed_at Db.col_streak Db.habits Db.habits_seq
       Db.completions Db.users Db.parse_iso_dt].
  rewrite periodicity_str_nonempty.
  repeat split; try assumption.
  - destruct (tzinfo (default (now_local localtime now) created_at));
      reflexivity.
  - intros j Hj. apply lookup_insert_ne. auto.
Qed.

(** X6.  [create_habit] with a periodicity that does not normalize (an
    unknown word, an empty or blank text) fails with
    [InvalidPeriodicity] and stores nothing, for any user. *)
Theorem create_habit_invalid_periodicity now title description periodicity
    created_at db e :
  normalize_periodicity periodicity = Err e ->
  create_habit localtime uid now title description periodicity created_at db
  = (Err InvalidPeriodicity, db).
Proof.
  intros He.
  assert (e = InvalidPeriodicity) as ->.
  { unfold normalize_periodicity in He.
    repeat match type of He with
           | (if ?c then _ else _) = _ => destruct c; try discriminate
           end.
    congruence. }
  unfold create_habit, Db.insert_habit, Db.lift. unfold Db.bind at 1 2.
  rewrite He. reflexivity.
Qed.

(** X7.  No call of the service reads or changes a habit of another user, or
    one that does not exist: [get_habit], [edit_habit] and
    [complete_habit] fail with [NotFoundOrNotOwned], [delete_habit]
    returns false, and the store is as before. *)
Theorem foreign_habit_untouched now hid db title description periodicity
    completed_at :
  col_user_of db hid <> Some uid ->
  get_habit uid hid db = (Err NotFoundOrNotOwned, db) /\
  edit_habit uid hid title description periodicity db
  = (Err NotFoundOrNotOwned, db) /\
  complete_habit localtime uid now hid completed_at db
  = (Err NotFoundOrNotOwned, db) /\
  delete_habit uid hid db = (Ok false, db).
Proof.
  intros Hown. unfold col_user_of in Hown.
  assert (Hg : get_habit uid hid db = (Err NotFoundOrNotOwned, db)).
  { unfold get_habit, Db.bind, Db.get_habit, Db.query.
    destruct (Db.habits db !! hid) as [c|]; simpl in *; [|reflexivity].
    rewrite bool_decide_eq_false_2 by congruence. reflexivity. }
  split; [exact Hg|]. split; [|split].
  - unfold edit_habit. unfold Db.bind at 1. rewrite Hg. reflexivity.
  - unfold complete_habit. unfold Db.bind at 1. rewrite Hg. reflexivity.
  - unfold delete_habit, Db.delete_habit.
    destruct (Db.habits db !! hid) as [c|]; simpl in *; [|reflexivity].
    rewrite decide_False by congruence. reflexivity.
Qed.


(** X9.  The streak rule in calendar terms: when the habit has a last
    completion (its own, or else the store's) and [astimezone()]
    converts it and the new completion, completing the habit again
    keeps the streak if the new completion is on the same local day
    (daily) or in the same Monday-to-Sunday week (weekly), adds 1 if
    it is on the next day or in the next week, and sets it to 1 for
    any other distance, also when the new completion lies before the
    last one.  Unless the two are in the same period, this needs the
    day or the week after the last completion's to be within
    [datetime]; the call raises [OverflowError] when it is not. *)
Theorem complete_habit_by_calendar now hid db h p completed_at ot l ol :
  get_habit uid hid db = (Ok h, db) ->
  normalize_periodicity (Habit.periodicity h) = Ok p ->
  let t := default (now_local localtime now) completed_at in
  tzinfo t = Some ot ->
  match Habit.last_completed_at h with
  | Some l' => Some l'
  | None => Db.parse_iso_dt (Db.last_completion hid db)
  end = Some l ->
  tzinfo l = Some ol ->
  converts localtime ol l -> converts localtime ot t ->
  let gap := period_index p (local_date localtime ot t)
             - period_index p (local_date localtime ol l) in
  (gap = 0 \/ next_period_exists p (local_date localtime ol l) ->
   exists log db' h',
     complete_habit localtime uid now hid completed_at db = (Ok log, db') /\
     get_habit uid hid db' = (Ok h', db') /\
     Habit.streak h'
     = (if decide (gap = 0) then Habit.streak h
        else if decide (gap = 1) then Habit.streak h + 1
        else 1)) /\
  (gap <> 0 -> ~ next_period_exists p (local_date localtime ol l) ->
   complete_habit localtime uid now hid completed_at db = (Err Overflow, db)).
Proof.
  intros Hg Hp t Ht Hlast Hl Hcl Hct gap.
  destruct (get_habit_Ok uid hid db h db Hg) as (c & Hc & Hu & ->).
  pose proof (period_key_index localtime l ol t ot p Hl Ht Hcl Hct) as Hkey.
  assert (Hgap : gap = 0 <-> period_key localtime l p = period_key localtime t p).
  { rewrite Hkey. unfold gap. lia. }
  split.
  - intros Hin.
    assert (Hw : streak_in_window localtime (Some l) t p).
    { intros l' [= <-]. exists ol, ot. repeat (split; [assumption|]).
      intros Hne. destruct Hin as [H0 | Hex]; [|exact Hex].
      exfalso. apply Hne, Hgap, H0. }
    rewrite <- Hlast in Hw.
    eexists _, _, _. split.
    { eapply complete_habit_run; eassumption. }
    split.
    { apply get_habit_completed. exact Hu. }
    cbn [completed_cols].
    change (Habit.streak (Db.habit_row_to_model (hid, ?c'))) with (Db.col_streak c').
    cbn [Db.col_streak]. fold t. rewrite Hlast. unfold spec_streak_rule.
    destruct (decide (period_key localtime l p = period_key localtime t p))
      as [Hsame | Hdiff].
    + rewrite decide_True by (apply Hgap, Hsame). reflexivity.
    + assert (Hg0 : gap <> 0) by (intros E; apply Hdiff, Hgap, E).
      rewrite (decide_False (P := gap = 0)) by assumption.
      assert (Hex : next_period_exists p (local_date localtime ol l))
        by (destruct Hin; [contradiction | assumption]).
      rewrite (is_next_period_index localtime l ol t ot p Hl Ht Hcl Hct).
      unfold next_period_exists in Hex.
      assert ((local_date localtime ol l + period_days p <=? MAXORDINAL) = true)
        as -> by (apply Z.leb_le; exact Hex).
      destruct (decide (gap = 1)) as [Hone | Hnot].
      * rewrite decide_True; [reflexivity|].
        f_equal. apply bool_decide_eq_true. unfold gap in Hone. lia.
      * rewrite decide_False; [reflexivity|].
        intros [= E]. apply bool_decide_eq_true in E. unfold gap in Hnot. lia.
  - intros Hg0 Hnex.
    eapply complete_habit_overflow; try eassumption.
    fold t. rewrite Hlast. intros Hw.
    destruct (Hw l eq_refl) as (ol' & ot' & Hol' & Hot' & _ & _ & Hnext).
    assert (ol' = ol) as -> by congruence.
    apply Hnex, Hnext. intros E. apply Hg0, Hgap, E.
Qed.

(** X10.  After a completion the habit is due again exactly from
    another period on: when [complete_habit] has returned, with the
    [last_completed_at] it stored, [is_due] at a timezone-aware [now']
    is false when [now'] is on the same local day (daily) or in the
    same Monday-to-Sunday week (weekly) as the completion, and true
    otherwise, provided [astimezone()] converts the completion time
    and [now']. *)
Theorem is_due_after_completion now hid db h p completed_at ot now' on' log db' :
  get_habit uid hid db = (Ok h, db) ->
  normalize_periodicity (Habit.periodicity h) = Ok p ->
  let t := default (now_local localtime now) completed_at in
  tzinfo t = Some ot ->
  tzinfo now' = Some on' ->
  converts localtime ot t -> converts localtime on' now' ->
  complete_habit localtime uid now hid completed_at db = (Ok log, db') ->
  exists h',
    get_habit uid hid db' = (Ok h', db') /\
    normalize_periodicity (Habit.periodicity h') = Ok p /\
    is_due localtime (Habit.last_completed_at h') now' p
    = Ok (negb (bool_decide
                  (period_index p (local_date localtime on' now')
                   = period_index p (local_date localtime ot t)))).
Proof.
  intros Hg Hp t Ht Hn Hct Hcn Hrun.
  destruct (get_habit_Ok uid hid db h db Hg) as (c & Hc & Hu & ->).
  rewrite (complete_habit_outcome localtime uid now hid db c p completed_at ot
             Hc Hu Hp Ht) in Hrun.
  fold t in Hrun.
  destruct (update_streak localtime _ _ t p) as [s|e'] eqn:Hs; [|discriminate].
  injection Hrun as <- <-.
  eexists. split.
  { apply get_habit_completed. exact Hu. }
  cbn [Db.habit_row_to_model completed_cols Habit.last_completed_at
       Habit.periodicity Db.col_last_completed_at Db.col_periodicity].
  rewrite periodicity_str_nonempty. split; [apply normalize_periodicity_str|].
  rewrite (parse_iso_dt_id t ot Ht).
  pose proof (period_key_index localtime t ot now' on' p Ht Hn Hct Hcn) as Hkey.
  unfold is_due.
  destruct (period_key_converts localtime t ot p Ht Hct) as [kt Hkt].
  destruct (period_key_converts localtime now' on' p Hn Hcn) as [kn Hkn].
  rewrite Hkt, Hkn in *. cbn [result_bind]. do 2 f_equal.
  apply bool_decide_ext. split.
  - intros ->. symmetry. apply Hkey. reflexivity.
  - intros E. symmetry in E. apply Hkey in E. congruence.
Qed.

End OwnershipFacts.

(** ** db.py: deletions and listings *)
Module OrderFacts.

Lemma string_ltb_iff a b :
  String.ltb a b = true <-> OrderedTypeEx.String_as_OT.lt a b.
Proof.
  unfold String.ltb.
  pose proof (OrderedTypeEx.String_as_OT.cmp_lt a b) as Hl.
  unfold OrderedTypeEx.String_as_OT.cmp in Hl.
  destruct (String.compare a b); split; intros H; try discriminate; auto;
    try (apply Hl; reflexivity); apply Hl in H; discriminate.
Qed.

Lemma string_ltb_trans a b c :
  String.ltb a b = true -> String.ltb b c = true -> String.ltb a c = true.
Proof.
  rewrite !string_ltb_iff. apply OrderedTypeEx.String_as_OT.lt_trans.
Qed.

Lemma string_trichotomy a b :
  String.ltb a b = true \/ a = b \/ String.ltb b a = true.
Proof.
  unfold String.ltb. rewrite (String.compare_antisym a b).
  destruct (String.compare b a) eqn:E; simpl; auto.
  right. left. symmetry. apply String.compare_eq_iff. exact E.
Qed.

Lemma string_ltb_leb a b : String.ltb a b = true -> String.leb a b = true.
Proof. unfold String.ltb, String.leb. destruct (String.compare a b); congruence. Qed.

(** A key of texts and ids, in the order of [ORDER BY text ASC] with
    ties by id. *)
Lemma text_id_total (t1 t2 : string) (i1 i2 : Z) :
  (String.ltb t1 t2 = true \/ (t1 = t2 /\ i1 <= i2)) \/
  (String.ltb t2 t1 = true \/ (t2 = t1 /\ i2 <= i1)).
Proof.
  destruct (string_trichotomy t1 t2) as [H | [-> | H]]; auto.
  destruct (Z.le_ge_cases i1 i2); auto.
Qed.

Lemma text_id_trans (t1 t2 t3 : string) (i1 i2 i3 : Z) :
  String.ltb t1 t2 = true \/ (t1 = t2 /\ i1 <= i2) ->
  String.ltb t2 t3 = true \/ (t2 = t3 /\ i2 <= i3) ->
  String.ltb t1 t3 = true \/ (t1 = t3 /\ i1 <= i3).
Proof.
  intros [H1 | [-> H1]] [H2 | [-> H2]]; auto.
  - left. eapply string_ltb_trans; eassumption.
  - right. split; [reflexivity | lia].
Qed.

Lemma created_le_total : Total Db.created_le.
Proof. intros r1 r2. apply text_id_total. Qed.
Lemma created_le_trans : Transitive Db.created_le.
Proof. intros r1 r2 r3. apply text_id_trans. Qed.
Lemma completed_le_total : Total Db.completed_le.
Proof. intros r1 r2. apply text_id_total. Qed.
Lemma completed_le_trans : Transitive Db.completed_le.
Proof. intros r1 r2 r3. apply text_id_trans. Qed.

Lemma completed_le_text r1 r2 :
  Db.completed_le r1 r2 ->
  Db.text_le (Db.crow_completed_at r1) (Db.crow_completed_at r2).
Proof.
  unfold Db.completed_le, Db.text_le. cbv zeta.
  intros [H | [-> _]]; [apply string_ltb_leb, H | apply DbFacts.string_leb_refl].
Qed.

Lemma created_le_text r1 r2 :
  Db.created_le r1 r2 ->
  Db.text_le (Db.col_created_at (snd r1)) (Db.col_created_at (snd r2)).
Proof.
  unfold Db.created_le, Db.text_le. cbv zeta.
  intros [H | [-> _]]; [apply string_ltb_leb, H | apply DbFacts.string_leb_refl].
Qed.

(** The last element of a sorted list is above all of them. *)
Lemma StronglySorted_last {A} (R : relation A) `{!Reflexive R} (l : list A) x :
  StronglySorted R l -> last l = Some x -> forall y, y ∈ l -> R y x.
Proof.
  induction 1 as [|a l Hs IH Hall]; intros Hlast y Hy; [inversion Hy|].
  destruct l as [|b l].
  - injection Hlast as <-. apply list_elem_of_singleton in Hy as ->. reflexivity.
  - change (last (a :: b :: l)) with (last (b :: l)) in Hlast.
    apply elem_of_cons in Hy as [-> | Hy]; [|apply IH; assumption].
    rewrite Forall_forall in Hall. apply Hall.
    apply last_Some_elem_of in Hlast. exact Hlast.
Qed.

End OrderFacts.

Section DeletionFacts.
Variable uid : Z.



(** X17.  [list_completions] returns the completions of the habit, each
    once, in the ascending order of their stored texts; its last entry
    is the one [get_last_completion] returns (the same text). *)
Theorem list_completions_sorted hid db :
  exists rows,
    Db.list_completions hid db = (Ok rows, db) /\
    rows ≡ₚ filter (fun r => Db.crow_habit_id r = hid) (Db.completions db) /\
    StronglySorted
      (fun r1 r2 => Db.text_le (Db.crow_completed_at r1) (Db.crow_completed_at r2))
      rows /\
    isoformat <$> (Db.crow_completed_at <$> last rows)
    = isoformat <$> Db.last_completion hid db.
Proof.
  pose proof OrderFacts.completed_le_total as Htot.
  pose proof OrderFacts.completed_le_trans as Htr.
  set (log := filter (fun r => Db.crow_habit_id r = hid) (Db.completions db)).
  set (rows := merge_sort Db.completed_le log).
  assert (Hperm : rows ≡ₚ log) by apply merge_sort_Permutation.
  assert (Hsort : StronglySorted Db.completed_le rows)
    by (apply StronglySorted_merge_sort; assumption).
  exists rows. split; [reflexivity|]. split; [exact Hperm|]. split.
  { clear -Hsort. induction Hsort as [|a l Hs IH Hall]; constructor; [exact IH|].
    eapply Forall_impl; [exact Hall|]. intros r. apply OrderFacts.completed_le_text. }
  pose proof (DbFacts.last_completion_spec hid db) as Hspec. fold log in Hspec.
  destruct (last rows) as [r|] eqn:Hlast.
  - assert (Hr : r ∈ log) by (rewrite <- Hperm; eapply last_Some_elem_of; exact Hlast).
    apply list_elem_of_filter in Hr as [Hrh Hrin].
    destruct (Db.last_completion hid db) as [t|].
    + destruct Hspec as ((r0 & Hr0 & Hh0 & <-) & Hmax).
      cbn [fmap option_fmap option_map]. f_equal.
      apply String.leb_antisym.
      * apply Hmax; assumption.
      * apply OrderFacts.completed_le_text.
        assert (Hrefl : Reflexive Db.completed_le).
        { intros x. right. split; [reflexivity | lia]. }
        eapply (OrderFacts.StronglySorted_last Db.completed_le rows r Hsort Hlast).
        rewrite Hperm. apply list_elem_of_filter. auto.
    + exfalso. exact (Hspec r Hrin Hrh).
  - apply last_None in Hlast. rewrite Hlast in Hperm.
    apply Permutation_nil_l in Hperm.
    destruct (Db.last_completion hid db) as [t|]; [|reflexivity].
    destruct Hspec as ((r0 & Hr0 & Hh0 & _) & _).
    assert (r0 ∈ log) by (apply list_elem_of_filter; auto).
    rewrite <- Hperm in H. inversion H.
Qed.

End DeletionFacts.

(** ** habit_manager.py: listings *)
Lemma normalize_periodicity_error s e :
  normalize_periodicity s = Err e -> e = InvalidPeriodicity.
Proof.
  unfold normalize_periodicity.
  repeat match goal with
         | |- (if ?c then _ else _) = _ -> _ => destruct c; try discriminate
         end.
  congruence.
Qed.

Section ListingFacts.
Variable uid : Z.

Lemma list_habits_run db :
  exists rows,
    list_habits uid db = (Ok (Db.habit_row_to_model <$> rows), db) /\
    rows ≡ₚ filter (fun kc : Z * Db.habit_cols => Db.col_user_id (snd kc) = uid)
              (map_to_list (Db.habits db)) /\
    StronglySorted Db.created_le rows /\
    (forall k c, (k, c) ∈ rows <->
       Db.habits db !! k = Some c /\ Db.col_user_id c = uid).
Proof.
  pose proof OrderFacts.created_le_total as Htot.
  pose proof OrderFacts.created_le_trans as Htr.
  set (own := filter (fun kc : Z * Db.habit_cols => Db.col_user_id (snd kc) = uid)
                (map_to_list (Db.habits db))).
  set (rows := merge_sort Db.created_le own).
  assert (Hperm : rows ≡ₚ own) by apply merge_sort_Permutation.
  exists rows. split; [reflexivity|]. split; [exact Hperm|]. split.
  - apply StronglySorted_merge_sort; assumption.
  - intros k c. rewrite Hperm. unfold own. rewrite list_elem_of_filter.
    rewrite elem_of_map_to_list. cbn [snd]. tauto.
Qed.

(** X12.  [list_habits] returns exactly the habits of the user, each once:
    a habit is in the list if and only if [get_habit] returns it; the
    rows come in the ascending order of the stored texts of
    [created_at]; the store is not changed. *)
Theorem list_habits_own db :
  exists rows,
    list_habits uid db = (Ok (Db.habit_row_to_model <$> rows), db) /\
    (forall h, h ∈ Db.habit_row_to_model <$> rows <->
               get_habit uid (Habit.id h) db = (Ok h, db)) /\
    NoDup (Habit.id <$> (Db.habit_row_to_model <$> rows)) /\
    StronglySorted
      (fun r1 r2 => Db.text_le (Db.col_created_at (snd r1))
                               (Db.col_created_at (snd r2)))
      rows.
Proof.
  destruct (list_habits_run db) as (rows & Hrun & Hperm & Hsort & Hin).
  exists rows. split; [exact Hrun|]. split; [|split].
  - intros h. rewrite list_elem_of_fmap. split.
    + intros ([k c] & -> & Hkc). apply Hin in Hkc as [Hc Hu].
      apply get_habit_row; assumption.
    + intros Hg. destruct (get_habit_Ok uid _ db h db Hg) as (c & Hc & Hu & E).
      exists (Habit.id h, c). split; [exact E|]. apply Hin. auto.
  - assert (E : Habit.id <$> (Db.habit_row_to_model <$> rows) = rows.*1).
    { rewrite <- list_fmap_compose. apply list_fmap_ext.
      intros i [k c] _. reflexivity. }
    rewrite E, Hperm.
    apply (NoDup_fmap_fst _).
    + intros k c1 c2 H1 H2. apply list_elem_of_filter in H1 as [_ H1].
      apply list_elem_of_filter in H2 as [_ H2].
      apply elem_of_map_to_list in H1, H2. congruence.
    + apply NoDup_filter. apply NoDup_map_to_list.
  - clear -Hsort. induction Hsort as [|a l Hs IH Hall]; constructor; [exact IH|].
    eapply Forall_impl; [exact Hall|]. intros r. apply OrderFacts.created_le_text.
Qed.

End ListingFacts.

Section DueFacts.
Variable localtime : Z -> Z.
Variable uid : Z.

Lemma due_among_aware now on hs :
  tzinfo now = Some on -> converts localtime on now ->
  Forall (fun h =>
            (exists p, normalize_periodicity (Habit.periodicity h) = Ok p) /\
            (forall l, Habit.last_completed_at h = Some l ->
                       exists o, tzinfo l = Some o /\ converts localtime o l))
    hs ->
  exists due,
    due_among localtime now hs = Ok due /\
    due `sublist_of` hs /\
    forall h, h ∈ due <-> h ∈ hs /\ due_at localtime now h.
Proof.
  intros Hn Hcn. induction 1 as [|a hs [[p Hp] Hl] Hall (due & Hd & Hsub & Hiff)].
  - exists []. split; [reflexivity|]. split; [constructor|].
    intros h. split; [intros H; inversion H | intros [H _]; inversion H].
  - cbn [due_among]. rewrite Hp. cbn [result_bind].
    assert (Hdue : exists b, is_due localtime (Habit.last_completed_at a) now p = Ok b).
    { unfold is_due. destruct (Habit.last_completed_at a) as [l|]; [|eauto].
      destruct (Hl l eq_refl) as (o & Ho & Hco).
      destruct (period_key_converts localtime l o p Ho Hco) as [kl ->].
      destruct (period_key_converts localtime now on p Hn Hcn) as [kn ->].
      cbn [result_bind]. eauto. }
    destruct Hdue as [b Hb]. rewrite Hb, Hd. cbn [result_bind].
    eexists. split; [reflexivity|]. destruct b.
    + split; [constructor; exact Hsub|].
      intros h. rewrite !elem_of_cons, Hiff. split.
      * intros [-> | [H1 H2]]; [|tauto]. split; [auto|]. exists p. auto.
      * intros [[-> | H1] H2]; auto.
    + split; [constructor; exact Hsub|].
      intros h. rewrite elem_of_cons, Hiff. split.
      * tauto.
      * intros [[-> | H1] H2]; [|auto].
        destruct H2 as (q & Hq & Hdq). rewrite Hp in Hq. injection Hq as <-.
        rewrite Hb in Hdq. discriminate.
Qed.

Lemma row_model_ok k c :
  row_ok c ->
  (forall l ol, Db.col_last_completed_at c = Some l -> tzinfo l = Some ol ->
                converts localtime ol l) ->
  (exists p, normalize_periodicity
               (Habit.periodicity (Db.habit_row_to_model (k, c))) = Ok p) /\
  (forall l, Habit.last_completed_at (Db.habit_row_to_model (k, c)) = Some l ->
             exists o, tzinfo l = Some o /\ converts localtime o l).
Proof.
  intros ([p Hp] & _ & _ & Haw) Hconv. split.
  - exists p. cbn [Db.habit_row_to_model Habit.periodicity]. rewrite Hp.
    rewrite periodicity_str_nonempty. apply normalize_periodicity_str.
  - intros l. cbn [Db.habit_row_to_model Habit.last_completed_at].
    destruct (Db.col_last_completed_at c) as [l0|] eqn:E; [|discriminate].
    destruct (Haw l0 eq_refl) as [o Ho].
    cbn [Db.parse_iso_dt]. rewrite Ho. intros [= <-].
    exists o. split; [exact Ho|]. eapply Hconv; [reflexivity | exact Ho].
Qed.

Lemma rows_model_ok db (rows : list (Z * Db.habit_cols)) :
  db_ok db -> lasts_convert localtime uid db ->
  (forall k c, (k, c) ∈ rows ->
               Db.habits db !! k = Some c /\ Db.col_user_id c = uid) ->
  Forall (fun h =>
            (exists p, normalize_periodicity (Habit.periodicity h) = Ok p) /\
            (forall l, Habit.last_completed_at h = Some l ->
                       exists o, tzinfo l = Some o /\ converts localtime o l))
    (Db.habit_row_to_model <$> rows).
Proof.
  intros Hok Hconv Hin.
  apply Forall_fmap, Forall_forall. intros [k c] Hkc.
  apply Hin in Hkc as [Hc Hu].
  apply row_model_ok; [eapply Hok, Hc|].
  intros l ol Hl Hol. eapply Hconv; eassumption.
Qed.

(** X13.  [due_habits] at a timezone-aware time (the one given, or the
    local time of the call), in a store whose rows the service wrote,
    when [astimezone()] converts that time and the last completion
    of every habit of the user: it returns, in the order of
    [list_habits], exactly the habits of the user that [is_due] holds
    of, those never completed included, and does not change the
    store. *)
Theorem due_habits_sound clock_now now db on :
  db_ok db ->
  tzinfo (default (now_local localtime clock_now) now) = Some on ->
  converts localtime on (default (now_local localtime clock_now) now) ->
  lasts_convert localtime uid db ->
  exists hs due,
    list_habits uid db = (Ok hs, db) /\
    due_habits localtime uid clock_now now db = (Ok due, db) /\
    due `sublist_of` hs /\
    forall h, h ∈ due <->
      h ∈ hs /\
      exists p, normalize_periodicity (Habit.periodicity h) = Ok p /\
                is_due localtime (Habit.last_completed_at h)
                  (default (now_local localtime clock_now) now) p = Ok true.
Proof.
  intros Hok Hn Hcn Hconv.
  destruct (list_habits_run uid db) as (rows & Hrun & _ & _ & Hin).
  assert (Hall := rows_model_ok db rows Hok Hconv (fun k c H => proj1 (Hin k c) H)).
  destruct (due_among_aware _ on _ Hn Hcn Hall) as (due & Hd & Hsub & Hiff).
  exists (Db.habit_row_to_model <$> rows), due.
  split; [exact Hrun|]. split; [|split; [exact Hsub | exact Hiff]].
  unfold due_habits, Db.bind. rewrite Hrun. unfold Db.lift. rewrite Hd. reflexivity.
Qed.

(** X14.  [due_habits] with a [now] without timezone, in a store whose
    rows the service wrote and where [astimezone()] converts the last
    completion of every habit of the user: when no habit of the user
    has a last completion, [now] is never looked at and all of them
    are returned; as soon as one has, the call fails with
    [NaiveTimestamp]. *)
Theorem due_habits_naive_now clock_now now db :
  db_ok db -> tzinfo now = None ->
  lasts_convert localtime uid db ->
  exists hs,
    list_habits uid db = (Ok hs, db) /\
    (Forall (fun h => Habit.last_completed_at h = None) hs ->
     due_habits localtime uid clock_now (Some now) db = (Ok hs, db)) /\
    (Exists (fun h => Habit.last_completed_at h <> None) hs ->
     due_habits localtime uid clock_now (Some now) db = (Err NaiveTimestamp, db)).
Proof.
  intros Hok Hn Hconv.
  destruct (list_habits_run uid db) as (rows & Hrun & _ & _ & Hin).
  assert (Hall := rows_model_ok db rows Hok Hconv (fun k c H => proj1 (Hin k c) H)).
  exists (Db.habit_row_to_model <$> rows). split; [exact Hrun|].
  unfold due_habits, Db.bind. rewrite Hrun. unfold Db.lift.
  change (default (now_local localtime clock_now) (Some now)) with now.
  clear Hrun Hin. induction Hall as [|a hs [[p Hp] Hl] Hall [IH1 IH2]].
  - split; [reflexivity|]. intros H. inversion H.
  - split.
    + intros Hnone. inversion Hnone as [|? ? Ha Hrest]; subst.
      specialize (IH1 Hrest). injection IH1 as IH1.
      cbn [due_among]. rewrite Hp. cbn [result_bind]. rewrite Ha.
      cbn [is_due result_bind]. rewrite IH1. reflexivity.
    + intros Hex. cbn [due_among]. rewrite Hp. cbn [result_bind].
      destruct (Habit.last_completed_at a) as [l|] eqn:El.
      * destruct (Hl l eq_refl) as (o & Ho & Hco). unfold is_due.
        destruct (period_key_converts localtime l o p Ho Hco) as [kl ->].
        cbn [result_bind]. unfold period_key. rewrite Hn. reflexivity.
      * inversion Hex as [? ? Ha | ? ? Hrest]; subst; [congruence|].
        specialize (IH2 Hrest). injection IH2 as IH2.
        cbn [is_due result_bind]. rewrite IH2. reflexivity.
Qed.

End DueFacts.

(** ** What every sequence of calls keeps *)
Lemma next_completion_id_fresh db :
  Db.completions_seq db < Db.next_completion_id db /\
  forall r, r ∈ Db.completions db -> Db.crow_id r < Db.next_completion_id db.
Proof.
  unfold Db.next_completion_id. split.
  - pose proof (foldr_max_ge (Db.completions db) (Db.completions_seq db)). lia.
  - intros r Hr.
    assert (H : forall (l : list Db.completion_row) seed,
      r ∈ l ->
      Db.crow_id r <= foldr (fun r acc => Z.max (Db.crow_id r) acc) seed l).
    { clear. induction l as [|x l IH]; intros seed Hin; [inversion Hin|].
      apply elem_of_cons in Hin as [-> | Hin]; simpl; [lia|].
      specialize (IH seed Hin). lia. }
    specialize (H _ (Db.completions_seq db) Hr). lia.
Qed.

Section Cases.
Variable localtime : Z -> Z.
Variable uid : Z.

Lemma create_habit_cases now title description periodicity created_at db r db' :
  create_habit localtime uid now title description periodicity created_at db
    = (r, db') ->
  db' = db \/
  exists row,
    uid ∈ Db.users db /\ Db.col_user_id row = uid /\
    Db.col_last_completed_at row = None /\ row_ok row /\
    db' = {| Db.users := Db.users db;
             Db.habits := <[Db.next_habit_id db := row]> (Db.habits db);
             Db.completions := Db.completions db;
             Db.habits_seq := Db.next_habit_id db;
             Db.completions_seq := Db.completions_seq db |}.
Proof.
  unfold create_habit, Db.insert_habit, Db.lift. unfold Db.bind at 1 2.
  destruct (normalize_periodicity periodicity) as [p|e].
  - destruct (decide (uid ∈ Db.users db)) as [Hu|Hu].
    + intros H. apply get_habit_state in H. subst db'. right.
      eexists. split; [exact Hu|]. split; [|split; [|split; [|reflexivity]]].
      * reflexivity.
      * reflexivity.
      * repeat split; cbn; eauto; try lia; discriminate.
    + intros [= _ <-]. left. reflexivity.
  - intros [= _ <-]. left. reflexivity.
Qed.

Lemma complete_habit_cases now hid completed_at db r db' :
  complete_habit localtime uid now hid completed_at db = (r, db') ->
  db' = db \/
  exists c c' t,
    Db.habits db !! hid = Some c /\ Db.col_user_id c = uid /\
    Db.col_user_id c' = Db.col_user_id c /\
    (row_ok c -> row_ok c') /\
    Db.col_last_completed_at c' = Some t /\
    is_Some (tzinfo t) /\
    db' = completed_db db hid c' t.
Proof.
  intros H.
  destruct (get_habit uid hid db) as [[h|e] db1] eqn:Hg.
  2:{ unfold complete_habit, Db.bind in H. rewrite Hg in H.
      apply get_habit_state in Hg. left. congruence. }
  pose proof (get_habit_state uid hid db _ _ Hg) as ->.
  destruct (get_habit_Ok uid hid db h db Hg) as (c & Hc & Hu & ->).
  destruct (tzinfo (default (now_local localtime now) completed_at)) as [ot|] eqn:Ht.
  2:{ unfold complete_habit, Db.bind in H. rewrite Hg, Ht in H.
      left. unfold Db.raise in H. congruence. }
  destruct (normalize_periodicity
              (Habit.periodicity (Db.habit_row_to_model (hid, c)))) as [p|e] eqn:Hp.
  2:{ unfold complete_habit, Db.bind in H. rewrite Hg, Ht in H.
      unfold Db.lift in H. rewrite Hp in H. left. congruence. }
  rewrite (complete_habit_outcome localtime uid now hid db c p completed_at ot
             Hc Hu Hp Ht) in H.
  destruct (update_streak localtime _ _ _ p) as [s|e] eqn:Hs.
  2:{ left. congruence. }
  injection H as _ <-. right. eexists c, (completed_cols c p _ s), _. split; [exact Hc|].
  split; [exact Hu|]. split; [reflexivity|]. split; [|split; [reflexivity|split; [|reflexivity]]].
  - intros (Hper & Hz & Hnn & Haw). repeat split.
    + eexists. reflexivity.
    + discriminate.
    + cbn [completed_cols Db.col_streak].
      apply update_streak_values in Hs.
      cbn [Db.habit_row_to_model Habit.streak] in Hs. lia.
    + cbn [completed_cols Db.col_last_completed_at]. intros l [= <-]. eauto.
  - rewrite Ht. eauto.
Qed.

Lemma edit_habit_cases hid title description periodicity db r db' :
  edit_habit uid hid title description periodicity db = (r, db') ->
  db' = db \/
  exists c c',
    Db.habits db !! hid = Some c /\ Db.col_user_id c = uid /\
    Db.col_user_id c' = Db.col_user_id c /\
    (row_ok c -> row_ok c') /\
    (Db.col_last_completed_at c' = None \/
     Db.col_last_completed_at c'
     = Db.parse_iso_dt (Db.col_last_completed_at c)) /\
    db' = with_habit db hid c'.
Proof.
  intros H.
  destruct (get_habit uid hid db) as [[h|e] db1] eqn:Hg.
  2:{ unfold edit_habit in H. unfold Db.bind at 1 in H. rewrite Hg in H.
      apply get_habit_state in Hg. left. congruence. }
  pose proof (get_habit_state uid hid db _ _ Hg) as ->.
  destruct (get_habit_Ok uid hid db h db Hg) as (c & Hc & Hu & ->).
  set (h := Db.habit_row_to_model (hid, c)) in *.
  assert (Hgood : forall p0 q,
    normalize_periodicity (Habit.periodicity h) = Ok p0 ->
    match supplied periodicity with
    | Some p => normalize_periodicity p = Ok q
    | None => q = p0
    end ->
    db' = db \/
    exists c c',
      Db.habits db !! hid = Some c /\ Db.col_user_id c = uid /\
      Db.col_user_id c' = Db.col_user_id c /\
      (row_ok c -> row_ok c') /\
      (Db.col_last_completed_at c' = None \/
       Db.col_last_completed_at c'
       = Db.parse_iso_dt (Db.col_last_completed_at c)) /\
      db' = with_habit db hid c').
  { intros p0 q Hp0 Hq.
    rewrite (edit_habit_run uid hid db c p0 q title description periodicity
               Hc Hu Hp0 Hq) in H.
    injection H as _ <-. right.
    exists c, (edited_cols c h title description p0 q).
    split; [exact Hc|]. split; [exact Hu|]. split; [reflexivity|].
    split; [apply edited_cols_ok|]. split; [|reflexivity].
    cbn [edited_cols Db.col_last_completed_at]. destruct (decide (q = p0)); auto. }
  unfold edit_habit in H. unfold Db.bind at 1 in H. rewrite Hg in H. fold h in H.
  set (h1 := match title with
             | Some t => if bool_decide (PyStr.strip t <> "")
                         then Habit.set_title h (PyStr.strip t) else h
             | None => h end) in H.
  set (h2 := match description with
             | Some d => Habit.set_description h1 (PyStr.strip d)
             | None => h1 end) in H.
  assert (Hper : Habit.periodicity h2 = Habit.periodicity h).
  { subst h2 h1. destruct description, title as [t|]; simpl;
      try case_bool_decide; reflexivity. }
  destruct (normalize_periodicity (Habit.periodicity h)) as [p0|e] eqn:Hp0.
  - destruct (supplied periodicity) as [p|] eqn:Hs.
    + destruct (normalize_periodicity p) as [q|e] eqn:Hq.
      * apply (Hgood p0 q eq_refl). reflexivity.
      * left. unfold supplied in Hs. destruct periodicity as [p'|]; [|discriminate].
        case_bool_decide; [|discriminate]. injection Hs as <-.
        unfold Db.bind at 1 2 3 in H. unfold Db.lift in H.
        rewrite Hper, Hp0 in H.
        cbn [Habit.periodicity Habit.set_periodicity] in H.
        rewrite Hq in H. congruence.
    + apply (Hgood p0 p0 eq_refl). reflexivity.
  - left. unfold supplied in *.
    destruct periodicity as [p'|]; [case_bool_decide|].
    + unfold Db.bind at 1 2 in H. unfold Db.lift in H.
      rewrite Hper, Hp0 in H. congruence.
    + unfold Db.bind at 1 2 in H. unfold Db.ret, Db.update_habit in H.
      unfold Db.bind, Db.lift in H. rewrite Hper, Hp0 in H. congruence.
    + unfold Db.bind at 1 2 in H. unfold Db.ret, Db.update_habit in H.
      unfold Db.bind, Db.lift in H. rewrite Hper, Hp0 in H. congruence.
Qed.

Lemma delete_habit_cases hid db r db' :
  delete_habit uid hid db = (r, db') ->
  db' = db \/
  (exists c, Db.habits db !! hid = Some c /\ Db.col_user_id c = uid) /\
  db' = {| Db.users := Db.users db;
           Db.habits := delete hid (Db.habits db);
           Db.completions :=
             filter (fun r => Db.crow_habit_id r <> hid) (Db.completions db);
           Db.habits_seq := Db.habits_seq db;
           Db.completions_seq := Db.completions_seq db |}.
Proof.
  unfold delete_habit, Db.delete_habit.
  destruct (Db.habits db !! hid) as [c|].
  - destruct (decide (Db.col_user_id c = uid)); intros [= _ <-]; eauto.
  - intros [= _ <-]; auto.
Qed.

End Cases.

(** The stores: what each kind of change keeps. *)
Lemma store_ok_init us : store_ok (init_store us).
Proof.
  unfold store_ok, init_store. cbn.
  split; [|split; [lia|split; [lia|split; [|split; constructor]]]].
  - intros hid c. cbn. rewrite lookup_empty. discriminate.
  - intros hid c. rewrite lookup_empty. discriminate.
Qed.

Lemma store_ok_insert_new db row :
  store_ok db ->
  Db.col_user_id row ∈ Db.users db -> Db.col_last_completed_at row = None ->
  row_ok row ->
  store_ok {| Db.users := Db.users db;
              Db.habits := <[Db.next_habit_id db := row]> (Db.habits db);
              Db.completions := Db.completions db;
              Db.habits_seq := Db.next_habit_id db;
              Db.completions_seq := Db.completions_seq db |}.
Proof.
  intros (Hrows & Hhs & Hcs & Hhab & Hlog & Hnd) Hu Hlast Hrow.
  destruct (next_habit_id_fresh db) as [Hseq Hfresh].
  split; [|split; [|split; [|split; [|split]]]]; cbn [Db.users Db.habits Db.completions Db.habits_seq Db.completions_seq].
  - eapply db_ok_insert; [exact Hrows | exact Hrow | reflexivity].
  - lia.
  - exact Hcs.
  - intros hid c. destruct (decide (Db.next_habit_id db = hid)) as [<- | Hne].
    + rewrite lookup_insert_eq. intros [= <-].
      split; [exact Hu|]. split; [cbn; lia|]. intros l. rewrite Hlast. discriminate.
    + rewrite lookup_insert_ne by assumption. intros Hc.
      destruct (Hhab hid c Hc) as (H1 & H2 & H3).
      split; [exact H1|]. split; [cbn; lia | exact H3].
  - eapply Forall_impl; [exact Hlog|]. intros r (H1 & H2 & H3).
    split; [|split; assumption]. cbn [Db.habits].
    destruct (decide (Db.next_habit_id db = Db.crow_habit_id r)) as [<- | Hne].
    + rewrite lookup_insert_eq. eauto.
    + rewrite lookup_insert_ne by assumption. exact H1.
  - exact Hnd.
Qed.

Lemma store_ok_with_habit db hid c c' :
  store_ok db -> Db.habits db !! hid = Some c ->
  Db.col_user_id c' = Db.col_user_id c -> (row_ok c -> row_ok c') ->
  (Db.col_last_completed_at c' = None \/
   Db.col_last_completed_at c' = Db.parse_iso_dt (Db.col_last_completed_at c)) ->
  store_ok (with_habit db hid c').
Proof.
  intros (Hrows & Hhs & Hcs & Hhab & Hlog & Hnd) Hc Hu Hrow Hlast.
  unfold with_habit.
  split; [|split; [|split; [|split; [|split]]]]; cbn [Db.users Db.habits Db.completions Db.habits_seq Db.completions_seq].
  - eapply db_ok_insert; [exact Hrows | | reflexivity]. apply Hrow. eapply Hrows, Hc.
  - exact Hhs.
  - exact Hcs.
  - intros j cj. destruct (decide (hid = j)) as [<- | Hne].
    + rewrite lookup_insert_eq. intros [= <-].
      destruct (Hhab hid c Hc) as (H1 & H2 & H3).
      split; [cbn; rewrite Hu; exact H1|]. split; [exact H2|].
      intros l Hl. cbn [Db.completions]. apply H3.
      destruct Hlast as [E | E]; [congruence|].
      rewrite E in Hl.
      destruct (Db.col_last_completed_at c) as [l0|] eqn:El0; [|discriminate].
      destruct (Hrows hid c Hc) as (_ & _ & _ & Haw).
      destruct (Haw l0 El0) as [o Ho].
      cbn [Db.parse_iso_dt] in Hl. rewrite Ho in Hl. exact Hl.
    + rewrite lookup_insert_ne by assumption. intros Hcj.
      exact (Hhab j cj Hcj).
  - eapply Forall_impl; [exact Hlog|]. intros r (H1 & H2 & H3).
    split; [|split; assumption]. cbn [Db.habits].
    destruct (decide (hid = Db.crow_habit_id r)) as [<- | Hne].
    + rewrite lookup_insert_eq. eauto.
    + rewrite lookup_insert_ne by assumption. exact H1.
  - exact Hnd.
Qed.

Lemma store_ok_completed db hid c c' t :
  store_ok db -> Db.habits db !! hid = Some c ->
  Db.col_user_id c' = Db.col_user_id c -> (row_ok c -> row_ok c') ->
  Db.col_last_completed_at c' = Some t -> is_Some (tzinfo t) ->
  store_ok (completed_db db hid c' t).
Proof.
  intros (Hrows & Hhs & Hcs & Hhab & Hlog & Hnd) Hc Hu Hrow Hlast Ht.
  destruct (next_completion_id_fresh db) as [Hseq Hfresh].
  unfold completed_db.
  split; [|split; [|split; [|split; [|split]]]]; cbn [Db.users Db.habits Db.completions Db.habits_seq Db.completions_seq].
  - eapply db_ok_insert; [exact Hrows | | reflexivity]. apply Hrow. eapply Hrows, Hc.
  - exact Hhs.
  - lia.
  - intros j cj. destruct (decide (hid = j)) as [<- | Hne].
    + rewrite lookup_insert_eq. intros [= <-].
      destruct (Hhab hid c Hc) as (H1 & H2 & H3).
      split; [cbn; rewrite Hu; exact H1|]. split; [exact H2|].
      intros l Hl. cbn [Db.completions]. rewrite Hlast in Hl. injection Hl as <-.
      eexists. split; [apply elem_of_app; right; apply list_elem_of_singleton; reflexivity|].
      split; reflexivity.
    + rewrite lookup_insert_ne by assumption. intros Hcj.
      destruct (Hhab j cj Hcj) as (H1 & H2 & H3).
      split; [exact H1|]. split; [exact H2|].
      intros l Hl. destruct (H3 l Hl) as (r & Hr & Hrh & Hrt).
      exists r. split; [|auto]. cbn [Db.completions]. apply elem_of_app. auto.
  - apply Forall_app. split.
    + eapply Forall_impl; [exact Hlog|]. intros r (H1 & H2 & H3).
      split; [|split; [cbn; lia | assumption]]. cbn [Db.habits].
      destruct (decide (hid = Db.crow_habit_id r)) as [<- | Hne].
      * rewrite lookup_insert_eq. eauto.
      * rewrite lookup_insert_ne by assumption. exact H1.
    + constructor; [|constructor]. split; [|split].
      * cbn. rewrite lookup_insert_eq. eauto.
      * cbn. lia.
      * exact Ht.
  - rewrite fmap_app. apply NoDup_app. split; [exact Hnd|]. split.
    + intros x Hx. cbn. rewrite list_elem_of_singleton. intros ->.
      apply list_elem_of_fmap in Hx as (r & Hr1 & Hr2).
      specialize (Hfresh r Hr2). lia.
    + cbn. apply NoDup_singleton.
Qed.

Lemma store_ok_delete db hid :
  store_ok db ->
  store_ok {| Db.users := Db.users db;
              Db.habits := delete hid (Db.habits db);
              Db.completions :=
                filter (fun r => Db.crow_habit_id r <> hid) (Db.completions db);
              Db.habits_seq := Db.habits_seq db;
              Db.completions_seq := Db.completions_seq db |}.
Proof.
  intros (Hrows & Hhs & Hcs & Hhab & Hlog & Hnd).
  split; [|split; [|split; [|split; [|split]]]]; cbn [Db.users Db.habits Db.completions Db.habits_seq Db.completions_seq].
  - intros j c. cbn [Db.habits]. intros Hj.
    apply lookup_delete_Some in Hj as [_ Hj]. eapply Hrows, Hj.
  - exact Hhs.
  - exact Hcs.
  - intros j c Hj. apply lookup_delete_Some in Hj as [Hne Hj].
    destruct (Hhab j c Hj) as (H1 & H2 & H3).
    split; [exact H1|]. split; [exact H2|].
    intros l Hl. destruct (H3 l Hl) as (r & Hr & Hrh & Hrt).
    exists r. split; [|auto]. cbn [Db.completions].
    apply list_elem_of_filter. split; [congruence | exact Hr].
  - apply Forall_forall. intros r Hr. apply list_elem_of_filter in Hr as [Hne Hr].
    rewrite Forall_forall in Hlog. destruct (Hlog r Hr) as (H1 & H2 & H3).
    split; [|split; assumption]. cbn [Db.habits].
    rewrite lookup_delete_ne by congruence. exact H1.
  - eapply sublist_NoDup; [exact Hnd|]. apply fmap_sublist, sublist_filter.
Qed.

Lemma store_ok_delete_user db uid :
  store_ok db -> store_ok (snd (Db.delete_habits_for_user uid db)).
Proof.
  intros (Hrows & Hhs & Hcs & Hhab & Hlog & Hnd).
  unfold Db.delete_habits_for_user. cbn [snd].
  split; [|split; [|split; [|split; [|split]]]]; cbn [Db.users Db.habits Db.completions Db.habits_seq Db.completions_seq].
  - intros j c. cbn [Db.habits]. intros Hj.
    apply map_lookup_filter_Some in Hj as [Hj _]. eapply Hrows, Hj.
  - exact Hhs.
  - exact Hcs.
  - intros j c Hj. apply map_lookup_filter_Some in Hj as [Hj Hne]. cbn [snd] in Hne.
    destruct (Hhab j c Hj) as (H1 & H2 & H3).
    split; [exact H1|]. split; [exact H2|].
    intros l Hl. destruct (H3 l Hl) as (r & Hr & Hrh & Hrt).
    exists r. split; [|auto]. cbn [Db.completions].
    apply list_elem_of_filter. split; [|exact Hr].
    rewrite Hrh, Hj. cbn. congruence.
  - apply Forall_forall. intros r Hr. apply list_elem_of_filter in Hr as [Hne Hr].
    rewrite Forall_forall in Hlog. destruct (Hlog r Hr) as ([c Hc] & H2 & H3).
    split; [|split; assumption]. cbn [Db.habits].
    exists c. apply map_lookup_filter_Some. split; [exact Hc|]. cbn [snd].
    rewrite Hc in Hne. cbn in Hne. congruence.
  - eapply sublist_NoDup; [exact Hnd|]. apply fmap_sublist, sublist_filter.
Qed.

Lemma run_call_store_ok localtime c db : store_ok db -> store_ok (run_call localtime c db).
Proof.
  intros Hok. destruct c as [uid now title description periodicity created_at
                            | uid hid title description periodicity
                            | uid now hid completed_at
                            | uid hid
                            | uid]; cbn [run_call].
  - destruct (create_habit localtime uid now title description periodicity created_at db)
      as [r db'] eqn:E.
    apply create_habit_cases in E as [-> | (row & Hu & Hru & Hl & Hrow & ->)];
      [exact Hok|].
    cbn [snd]. apply store_ok_insert_new; try assumption. rewrite Hru. exact Hu.
  - destruct (edit_habit uid hid title description periodicity db) as [r db'] eqn:E.
    apply edit_habit_cases in E as [-> | (c & c' & Hc & Hown & Hu & Hrow & Hl & ->)];
      [exact Hok|].
    cbn [snd]. eapply store_ok_with_habit; eassumption.
  - destruct (complete_habit localtime uid now hid completed_at db) as [r db'] eqn:E.
    apply complete_habit_cases in E as [-> | (c & c' & t & Hc & Hown & Hu & Hrow & Hl & Ht & ->)];
      [exact Hok|].
    cbn [snd]. eapply store_ok_completed; eassumption.
  - destruct (delete_habit uid hid db) as [r db'] eqn:E.
    apply delete_habit_cases in E as [-> | [Hown ->]]; [exact Hok|].
    cbn [snd]. apply store_ok_delete. exact Hok.
  - apply store_ok_delete_user. exact Hok.
Qed.

Lemma run_call_seq localtime c db :
  Db.habits_seq db <= Db.habits_seq (run_call localtime c db) /\
  Db.completions_seq db <= Db.completions_seq (run_call localtime c db) /\
  Db.users (run_call localtime c db) = Db.users db.
Proof.
  destruct c as [uid now title description periodicity created_at
                | uid hid title description periodicity
                | uid now hid completed_at
                | uid hid
                | uid]; cbn [run_call].
  - destruct (create_habit localtime uid now title description periodicity created_at db)
      as [r db'] eqn:E.
    apply create_habit_cases in E as [-> | (row & Hu & Hru & Hl & Hrow & ->)];
      cbn; [split; [lia | split; [lia | reflexivity]]|].
    destruct (next_habit_id_fresh db). split; [lia | split; [lia | reflexivity]].
  - destruct (edit_habit uid hid title description periodicity db) as [r db'] eqn:E.
    apply edit_habit_cases in E as [-> | (c & c' & Hc & Hown & Hu & Hrow & Hl & ->)];
      cbn; split; try lia; split; try lia; reflexivity.
  - destruct (complete_habit localtime uid now hid completed_at db) as [r db'] eqn:E.
    apply complete_habit_cases in E as [-> | (c & c' & t & Hc & Hown & Hu & Hrow & Hl & Ht & ->)];
      cbn; [split; [lia | split; [lia | reflexivity]]|].
    destruct (next_completion_id_fresh db). split; [lia | split; [lia | reflexivity]].
  - destruct (delete_habit uid hid db) as [r db'] eqn:E.
    apply delete_habit_cases in E as [-> | [Hown ->]];
      cbn; split; try lia; split; try lia; reflexivity.
  - cbn. split; [lia | split; [lia | reflexivity]].
Qed.

Lemma run_calls_seq localtime cs db :
  Db.habits_seq db <= Db.habits_seq (run_calls localtime cs db) /\
  Db.completions_seq db <= Db.completions_seq (run_calls localtime cs db) /\
  Db.users (run_calls localtime cs db) = Db.users db.
Proof.
  revert db. induction cs as [|c cs IH]; intros db; cbn.
  - split; [lia | split; [lia | reflexivity]].
  - destruct (run_call_seq localtime c db) as (H1 & H2 & H3).
    destruct (IH (run_call localtime c db)) as (H4 & H5 & H6).
    unfold run_calls in *. split; [lia | split; [lia | congruence]].
Qed.

Lemma run_calls_ok localtime cs db :
  store_ok db -> store_ok (run_calls localtime cs db).
Proof.
  revert db. induction cs as [|c cs IH]; intros db Hok; [exact Hok|].
  apply IH, run_call_store_ok, Hok.
Qed.

Lemma create_habit_Ok_id localtime uid now title description periodicity
    created_at db h db' :
  create_habit localtime uid now title description periodicity created_at db
  = (Ok h, db') ->
  Habit.id h = Db.next_habit_id db.
Proof.
  unfold create_habit, Db.insert_habit, Db.lift. unfold Db.bind at 1 2.
  destruct (normalize_periodicity periodicity) as [p|e]; [|discriminate].
  destruct (decide (uid ∈ Db.users db)) as [Hu|Hu]; [|discriminate].
  intros H. apply get_habit_Ok in H as (c & _ & _ & ->). reflexivity.
Qed.


(** X19.  Ids are not reused: a habit that [create_habit] returns has an id
    above the id of every habit that was in the store at any earlier
    time, deleted since or not. *)
Theorem habit_ids_never_reused localtime us cs1 cs2 k uid now title description
    periodicity created_at h db' :
  let db1 := run_calls localtime cs1 (init_store us) in
  let db2 := run_calls localtime cs2 db1 in
  is_Some (Db.habits db1 !! k) ->
  create_habit localtime uid now title description periodicity created_at db2
  = (Ok h, db') ->
  k < Habit.id h.
Proof.
  intros db1 db2 [c Hk] Hcr.
  destruct (run_calls_ok localtime cs1 _ (store_ok_init us))
    as (_ & _ & _ & Hhab & _).
  destruct (Hhab k c Hk) as (_ & Hle & _).
  destruct (run_calls_seq localtime cs2 db1) as (Hseq & _ & _). fold db2 in Hseq.
  rewrite (create_habit_Ok_id _ _ _ _ _ _ _ _ _ _ Hcr).
  destruct (next_habit_id_fresh db2) as [Hlt _]. fold db1 in Hle. lia.
Qed.

Lemma filter_filter_ne (l : list Db.completion_row) hid j :
  j <> hid ->
  filter (fun r => Db.crow_habit_id r = j)
    (filter (fun r => Db.crow_habit_id r <> hid) l)
  = filter (fun r => Db.crow_habit_id r = j) l.
Proof.
  intros Hj. rewrite list_filter_filter. apply list_filter_iff.
  intros r. split; [tauto|]. intros E. split; [exact E | congruence].
Qed.

Lemma run_call_isolated localtime c db hid row :
  Db.habits db !! hid = Some row -> Db.col_user_id row <> call_user c ->
  Db.habits (run_call localtime c db) !! hid = Some row /\
  completions_of (run_call localtime c db) hid = completions_of db hid.
Proof.
  intros Hrow Hne. unfold completions_of.
  destruct c as [uid now title description periodicity created_at
                | uid hid0 title description periodicity
                | uid now hid0 completed_at
                | uid hid0
                | uid]; cbn [run_call call_user] in *.
  - destruct (create_habit localtime uid now title description periodicity created_at db)
      as [r db'] eqn:E.
    apply create_habit_cases in E as [-> | (row' & Hu & Hru & Hl & Hok & ->)];
      [auto|].
    cbn [snd Db.habits Db.completions]. split; [|reflexivity].
    destruct (next_habit_id_fresh db) as [_ Hfresh].
    specialize (Hfresh hid row Hrow).
    rewrite lookup_insert_ne by lia. exact Hrow.
  - destruct (edit_habit uid hid0 title description periodicity db) as [r db'] eqn:E.
    apply edit_habit_cases in E as [-> | (c & c' & Hc & Hown & Hu & Hok & Hl & ->)];
      [auto|].
    cbn [snd with_habit Db.habits Db.completions]. split; [|reflexivity].
    rewrite lookup_insert_ne; [exact Hrow|]. intros ->. congruence.
  - destruct (complete_habit localtime uid now hid0 completed_at db) as [r db'] eqn:E.
    apply complete_habit_cases in E
      as [-> | (c & c' & t & Hc & Hown & Hu & Hok & Hl & Ht & ->)]; [auto|].
    assert (hid0 <> hid) by (intros ->; congruence).
    cbn [snd completed_db Db.habits Db.completions]. split.
    + rewrite lookup_insert_ne by assumption. exact Hrow.
    + rewrite filter_app, filter_cons, filter_nil. cbn [Db.crow_habit_id].
      rewrite decide_False by assumption. apply app_nil_r.
  - destruct (delete_habit uid hid0 db) as [r db'] eqn:E.
    apply delete_habit_cases in E as [-> | [(c & Hc & Hown) ->]]; [auto|].
    assert (hid0 <> hid) by (intros ->; congruence).
    cbn [snd Db.habits Db.completions]. split.
    + rewrite lookup_delete_ne by assumption. exact Hrow.
    + apply filter_filter_ne. congruence.
  - cbn [snd Db.delete_habits_for_user Db.habits Db.completions]. split.
    + apply map_lookup_filter_Some. split; [exact Hrow | exact Hne].
    + rewrite list_filter_filter. apply list_filter_iff.
      intros r. split; [tauto|]. intros E. split; [exact E|].
      rewrite E, Hrow. cbn. congruence.
Qed.

(** X20.  Users are isolated: whatever the other users call, with whatever
    arguments, a habit of a user keeps its row (title, description,
    periodicity, last completion, streak) and its logged completions.
    Only calls made for its owner change them. *)
Theorem other_users_calls_change_nothing localtime cs db hid row :
  Db.habits db !! hid = Some row ->
  Forall (fun c => call_user c <> Db.col_user_id row) cs ->
  Db.habits (run_calls localtime cs db) !! hid = Some row /\
  completions_of (run_calls localtime cs db) hid = completions_of db hid.
Proof.
  intros Hrow Hall. revert db Hrow.
  induction Hall as [|c cs Hc Hall IH]; intros db Hrow; [auto|].
  cbn [run_calls foldl].
  destruct (run_call_isolated localtime c db hid row Hrow) as [H1 H2]; [congruence|].
  destruct (IH _ H1) as [H3 H4]. unfold run_calls in *.
  split; [exact H3 | congruence].
Qed.

(** ** analytics.py *)
Module GroupFacts.
Import Analytics.

Lemma with_periodicity_valid p habits :
  Forall (fun h => normalize_periodicity (Habit.periodicity h)
                   <> Err InvalidPeriodicity) habits ->
  with_periodicity p habits
  = Ok (filter (fun h => normalize_periodicity (Habit.periodicity h) = Ok p)
          habits).
Proof.
  induction 1 as [|h hs Hh Hall IH]; [reflexivity|].
  cbn [with_periodicity]. rewrite IH. rewrite filter_cons.
  destruct (normalize_periodicity (Habit.periodicity h)) as [q|e] eqn:E.
  - cbn [result_bind]. destruct (decide (q = p)) as [-> | Hne].
    + rewrite decide_True by reflexivity. reflexivity.
    + rewrite decide_False by congruence. reflexivity.
  - apply normalize_periodicity_error in E as ->. contradiction.
Qed.

Lemma with_periodicity_invalid p habits :
  ~ Forall (fun h => normalize_periodicity (Habit.periodicity h)
                     <> Err InvalidPeriodicity) habits ->
  with_periodicity p habits = Err InvalidPeriodicity.
Proof.
  induction habits as [|h hs IH]; intros Hn.
  - exfalso. apply Hn. constructor.
  - cbn [with_periodicity].
    destruct (normalize_periodicity (Habit.periodicity h)) as [q|e] eqn:E.
    + cbn [result_bind]. rewrite IH; [reflexivity|].
      intros Hall. apply Hn. constructor; [congruence | exact Hall].
    + apply normalize_periodicity_error in E as ->. reflexivity.
Qed.

Lemma group_of_append groups k h k' :
  group_of (group_append groups k h) k'
  = if decide (k = k') then Some (default [] (group_of groups k) ++ [h])
    else group_of groups k'.
Proof.
  induction groups as [|[k0 l0] rest IH]; cbn [group_append group_of].
  - destruct (decide (k = k')); reflexivity.
  - destruct (decide (k0 = k)) as [-> | Hne]; cbn [group_of].
    + destruct (decide (k = k')); reflexivity.
    + destruct (decide (k0 = k')) as [-> | Hne'].
      * rewrite decide_False by congruence. reflexivity.
      * exact IH.
Qed.

Lemma keys_append groups k h :
  (group_append groups k h).*1
  = if decide (k ∈ groups.*1) then groups.*1 else groups.*1 ++ [k].
Proof.
  induction groups as [|[k0 l0] rest IH]; cbn [group_append].
  - rewrite decide_False; [reflexivity|]. intros H. inversion H.
  - destruct (decide (k0 = k)) as [-> | Hne]; cbn [fmap list_fmap fst].
    + rewrite decide_True; [reflexivity|]. constructor.
    + change (list_fmap _ _ fst ?l) with (l.*1). rewrite IH.
      destruct (decide (k ∈ rest.*1)) as [Hin | Hnin].
      * rewrite decide_True; [reflexivity|]. right. exact Hin.
      * rewrite decide_False; [reflexivity|].
        intros [E | Hin]%elem_of_cons; [congruence | contradiction].
Qed.

Lemma grouped_step groups seen h :
  grouped groups seen ->
  grouped
    (match normalize_periodicity (Habit.periodicity h) with
     | Ok p => group_append groups (periodicity_str p) h
     | Err _ => groups
     end) (seen ++ [h]).
Proof.
  intros (Hnd & Hkeys & Hgrp).
  destruct (normalize_periodicity (Habit.periodicity h)) as [q|e] eqn:E.
  - split; [|split].
    + rewrite keys_append. destruct (decide (periodicity_str q ∈ groups.*1)) as [Hin|Hnin];
        [exact Hnd|].
      apply NoDup_app. split; [exact Hnd|]. split; [|apply NoDup_singleton].
      intros x Hx. rewrite list_elem_of_singleton. intros ->. contradiction.
    + intros k. rewrite keys_append.
      destruct (decide (periodicity_str q ∈ groups.*1)) as [Hin|Hnin]; [apply Hkeys|].
      intros [Hk | Hk]%elem_of_app; [apply Hkeys, Hk|].
      apply list_elem_of_singleton in Hk. eauto.
    + intros p. rewrite group_of_append, filter_app, filter_cons, filter_nil.
      rewrite E. destruct (decide (periodicity_str q = periodicity_str p)) as [Heq|Hne].
      * assert (q = p) as -> by (destruct q, p; try reflexivity; discriminate).
        rewrite decide_True by reflexivity. rewrite Hgrp.
        destruct (filter _ seen) as [|x l]; reflexivity.
      * rewrite decide_False by congruence. rewrite app_nil_r. apply Hgrp.
  - split; [exact Hnd|]. split; [exact Hkeys|].
    intros p. rewrite filter_app, filter_cons, filter_nil, E.
    rewrite decide_False by discriminate. rewrite app_nil_r. apply Hgrp.
Qed.

Lemma grouped_foldl habits groups seen :
  grouped groups seen ->
  grouped
    (foldl
       (fun groups habit =>
          match normalize_periodicity (Habit.periodicity habit) with
          | Ok p => group_append groups (periodicity_str p) habit
          | Err _ => groups
          end) groups habits)
    (seen ++ habits).
Proof.
  revert groups seen. induction habits as [|h hs IH]; intros groups seen Hg.
  - rewrite app_nil_r. exact Hg.
  - cbn [foldl]. replace (seen ++ h :: hs) with ((seen ++ [h]) ++ hs)
      by (rewrite <- app_assoc; reflexivity).
    apply IH, grouped_step, Hg.
Qed.

Lemma foldr_max_seed a b (l : list Z) :
  foldr Z.max (Z.max a b) l = Z.max a (foldr Z.max b l).
Proof. induction l as [|x l IH]; cbn [foldr]; lia. Qed.

Lemma longest_snd habits mh ms :
  snd (foldl longest_step (mh, ms) habits)
  = foldr Z.max ms (Habit.streak <$> habits).
Proof.
  revert mh ms. induction habits as [|h hs IH]; intros mh ms; [reflexivity|].
  cbn [foldl longest_step fmap list_fmap foldr].
  rewrite <- foldr_max_seed.
  destruct (bool_decide (ms < Habit.streak h)) eqn:E; rewrite IH; f_equal.
  - apply bool_decide_eq_true in E. lia.
  - apply bool_decide_eq_false in E. lia.
Qed.

End GroupFacts.

(** X21.  [habits_with_periodicity] is all or nothing: when the periodicity
    asked for and the periodicity of every habit of the list
    normalize, it returns the habits that normalize to the one asked
    for, in the order of the list; when the one asked for does not, or
    that of any habit of the list does not, whichever periodicity that
    habit was meant to have, it fails with [InvalidPeriodicity]. *)
Theorem habits_with_periodicity_all_or_nothing habits periodicity :
  Analytics.habits_with_periodicity habits periodicity
  = match normalize_periodicity periodicity with
    | Ok p =>
        if decide (Forall (fun h => normalize_periodicity (Habit.periodicity h)
                                    <> Err InvalidPeriodicity) habits)
        then Ok (filter (fun h => normalize_periodicity (Habit.periodicity h)
                                  = Ok p) habits)
        else Err InvalidPeriodicity
    | Err _ => Err InvalidPeriodicity
    end.
Proof.
  unfold Analytics.habits_with_periodicity.
  destruct (normalize_periodicity periodicity) as [p|e] eqn:E.
  - cbn [result_bind]. destruct (decide _) as [Hall | Hn].
    + apply GroupFacts.with_periodicity_valid, Hall.
    + apply GroupFacts.with_periodicity_invalid, Hn.
  - apply normalize_periodicity_error in E as ->. reflexivity.
Qed.

(** X22.  [group_by_periodicity] never fails: it leaves out the habits whose
    periodicity does not normalize; its keys are canonical names
    ("daily", "weekly"), each at most once; the group of a periodicity
    is the list, in order, of the habits that normalize to it, and a
    periodicity without such a habit is no key. *)
Theorem group_by_periodicity_groups habits :
  let groups := Analytics.group_by_periodicity habits in
  NoDup groups.*1 /\
  (forall k, k ∈ groups.*1 -> k = "daily" \/ k = "weekly") /\
  forall p,
    Analytics.group_of groups (periodicity_str p)
    = match filter (fun h => normalize_periodicity (Habit.periodicity h) = Ok p)
              habits with
      | [] => None
      | l => Some l
      end.
Proof.
  assert (H0 : grouped [] []).
  { split; [constructor|]. split; [intros k H; inversion H|]. reflexivity. }
  destruct (GroupFacts.grouped_foldl habits [] [] H0) as (Hnd & Hk & Hg).
  cbv zeta. split; [exact Hnd|]. split; [|exact Hg].
  intros k Hin. destruct (Hk k Hin) as [[|] ->]; auto.
Qed.

(** X23.  The streak [longest_streak_overall] returns does not depend on
    the order of the list (the habit it returns may: it is the first
    of those with that streak). *)
Theorem longest_streak_overall_order habits habits' :
  habits ≡ₚ habits' ->
  snd (Analytics.longest_streak_overall habits)
  = snd (Analytics.longest_streak_overall habits').
Proof.
  intros Hperm.
  rewrite (AnalyticsFacts.longest_streak_overall_foldl habits).
  rewrite (AnalyticsFacts.longest_streak_overall_foldl habits').
  rewrite !GroupFacts.longest_snd.
  apply (foldr_permutation (=) Z.max 0).
  - intros j1 a1 j2 a2 b _ _ _. lia.
  - rewrite Hperm. reflexivity.
Qed.

(** ** habit_manager.py: editing twice *)
Section EditFacts.
Variable uid : Z.

Lemma edit_habit_Ok hid title description periodicity db h db' :
  edit_habit uid hid title description periodicity db = (Ok h, db') ->
  exists c p0 q,
    Db.habits db !! hid = Some c /\ Db.col_user_id c = uid /\
    normalize_periodicity (Habit.periodicity (Db.habit_row_to_model (hid, c)))
    = Ok p0 /\
    match supplied periodicity with
    | Some p => normalize_periodicity p = Ok q
    | None => q = p0
    end /\
    let c' := edited_cols c (Db.habit_row_to_model (hid, c)) title description
                p0 q in
    h = Db.habit_row_to_model (hid, c') /\ db' = with_habit db hid c'.
Proof.
  intros H.
  destruct (get_habit uid hid db) as [[h0|e] db1] eqn:Hg.
  2:{ unfold edit_habit in H. unfold Db.bind at 1 in H. rewrite Hg in H.
      discriminate. }
  pose proof (get_habit_state uid hid db _ _ Hg) as ->.
  destruct (get_habit_Ok uid hid db h0 db Hg) as (c & Hc & Hu & ->).
  set (h0 := Db.habit_row_to_model (hid, c)) in *.
  assert (Hgood : forall p0 q,
    normalize_periodicity (Habit.periodicity h0) = Ok p0 ->
    match supplied periodicity with
    | Some p => normalize_periodicity p = Ok q
    | None => q = p0
    end ->
    exists c p0 q,
      Db.habits db !! hid = Some c /\ Db.col_user_id c = uid /\
      normalize_periodicity (Habit.periodicity (Db.habit_row_to_model (hid, c)))
      = Ok p0 /\
      match supplied periodicity with
      | Some p => normalize_periodicity p = Ok q
      | None => q = p0
      end /\
      let c' := edited_cols c (Db.habit_row_to_model (hid, c)) title description
                  p0 q in
      h = Db.habit_row_to_model (hid, c') /\ db' = with_habit db hid c').
  { intros p0 q Hp0 Hq.
    rewrite (edit_habit_run uid hid db c p0 q title description periodicity
               Hc Hu Hp0 Hq) in H.
    injection H as <- <-. exists c, p0, q. cbv zeta. auto 10. }
  unfold edit_habit in H. unfold Db.bind at 1 in H. rewrite Hg in H. fold h0 in H.
  set (h1 := match title with
             | Some t => if bool_decide (PyStr.strip t <> "")
                         then Habit.set_title h0 (PyStr.strip t) else h0
             | None => h0 end) in H.
  set (h2 := match description with
             | Some d => Habit.set_description h1 (PyStr.strip d)
             | None => h1 end) in H.
  assert (Hper : Habit.periodicity h2 = Habit.periodicity h0).
  { subst h2 h1. destruct description, title as [t|]; simpl;
      try case_bool_decide; reflexivity. }
  destruct (normalize_periodicity (Habit.periodicity h0)) as [p0|e] eqn:Hp0.
  - destruct (supplied periodicity) as [p|] eqn:Hs.
    + destruct (normalize_periodicity p) as [q|e] eqn:Hq.
      * apply (Hgood p0 q eq_refl). reflexivity.
      * exfalso. unfold supplied in Hs. destruct periodicity as [p'|]; [|discriminate].
        case_bool_decide; [|discriminate]. injection Hs as <-.
        unfold Db.bind at 1 2 3 in H. unfold Db.lift in H.
        rewrite Hper, Hp0 in H.
        cbn [Habit.periodicity Habit.set_periodicity] in H.
        rewrite Hq in H. congruence.
    + apply (Hgood p0 p0 eq_refl). reflexivity.
  - exfalso. unfold supplied in *.
    destruct periodicity as [p'|]; [case_bool_decide|].
    + unfold Db.bind at 1 2 in H. unfold Db.lift in H.
      rewrite Hper, Hp0 in H. congruence.
    + unfold Db.bind at 1 2 in H. unfold Db.ret, Db.update_habit in H.
      unfold Db.bind, Db.lift in H. rewrite Hper, Hp0 in H. congruence.
    + unfold Db.bind at 1 2 in H. unfold Db.ret, Db.update_habit in H.
      unfold Db.bind, Db.lift in H. rewrite Hper, Hp0 in H. congruence.
Qed.

(** X11.  [edit_habit] is idempotent: a call that succeeded, made again with
    the same arguments, returns the same habit and leaves the store as
    the first call left it (a change of periodicity resets the streak
    once, not again). *)
Theorem edit_habit_idempotent hid title description periodicity db h db' :
  edit_habit uid hid title description periodicity db = (Ok h, db') ->
  edit_habit uid hid title description periodicity db' = (Ok h, db').
Proof.
  intros H.
  apply edit_habit_Ok in H as (c & p0 & q & Hc & Hu & Hp0 & Hq & Hh & Hdb).
  set (h0 := Db.habit_row_to_model (hid, c)) in *.
  set (c' := edited_cols c h0 title description p0 q) in *.
  assert (Hc' : Db.habits db' !! hid = Some c').
  { rewrite Hdb. cbn [with_habit Db.habits]. apply lookup_insert_eq. }
  assert (Hu' : Db.col_user_id c' = uid) by exact Hu.
  assert (Hp' : normalize_periodicity
                  (Habit.periodicity (Db.habit_row_to_model (hid, c'))) = Ok q).
  { cbn [Db.habit_row_to_model Habit.periodicity c' edited_cols Db.col_periodicity].
    rewrite periodicity_str_nonempty. apply normalize_periodicity_str. }
  assert (Hq' : match supplied periodicity with
                | Some p => normalize_periodicity p = Ok q
                | None => q = q
                end).
  { destruct (supplied periodicity); [exact Hq | reflexivity]. }
  rewrite (edit_habit_run uid hid db' c' q q title description periodicity
             Hc' Hu' Hp' Hq').
  assert (E : edited_cols c' (Db.habit_row_to_model (hid, c')) title description q q
              = c').
  { unfold c' at 3. unfold edited_cols at 1.
    rewrite !decide_True by reflexivity.
    cbn [Db.habit_row_to_model Habit.title Habit.description
         Habit.last_completed_at Habit.streak c' edited_cols Db.col_user_id
         Db.col_title Db.col_description Db.col_created_at
         Db.col_last_completed_at Db.col_streak].
    unfold edited_cols. f_equal.
    - destruct (supplied title); reflexivity.
    - destruct description; reflexivity.
    - destruct (decide (q = p0)); [|reflexivity].
      cbn [h0 Db.habit_row_to_model Habit.last_completed_at].
      apply parse_iso_dt_idem. }
  rewrite E. rewrite Hh. f_equal. rewrite Hdb. unfold with_habit.
  cbn [Db.users Db.habits Db.completions Db.habits_seq Db.completions_seq].
  rewrite insert_insert_eq. reflexivity.
Qed.

End EditFacts.

(** ** auth.py *)
Module UsersFacts.
Import Users.

Lemma get_user_by_username_None username tb :
  get_user_by_username username tb = None <->
  username ∉ User.username <$> rows tb.
Proof.
  unfold get_user_by_username. rewrite head_None. split.
  - intros Hf Hin. apply list_elem_of_fmap in Hin as (r & -> & Hr).
    assert (r ∈ filter (fun r' => User.username r' = User.username r) (rows tb))
      by (apply list_elem_of_filter; auto).
    rewrite Hf in H. inversion H.
  - intros Hn. destruct (filter _ _) as [|r l] eqn:E; [reflexivity|].
    exfalso. apply Hn.
    assert (Hr : r ∈ filter (fun r => User.username r = username) (rows tb))
      by (rewrite E; left).
    apply list_elem_of_filter in Hr as [<- Hr]. apply list_elem_of_fmap. eauto.
Qed.

Lemma get_user_by_username_Some username tb u :
  get_user_by_username username tb = Some u ->
  u ∈ rows tb /\ User.username u = username.
Proof.
  unfold get_user_by_username. intros H.
  destruct (filter _ _) as [|r l] eqn:E; [discriminate|]. injection H as ->.
  assert (Hr : u ∈ filter (fun r => User.username r = username) (rows tb))
    by (rewrite E; left).
  apply list_elem_of_filter in Hr. tauto.
Qed.

Lemma get_user_by_username_new username tb u s :
  username ∉ User.username <$> rows tb -> User.username u = username ->
  get_user_by_username username {| rows := rows tb ++ [u]; seq := s |} = Some u.
Proof.
  intros Hn Hu. unfold get_user_by_username. cbn [rows].
  rewrite filter_app.
  replace (filter (fun r => User.username r = username) (rows tb)) with (@nil User.t).
  - rewrite filter_cons, decide_True by assumption. reflexivity.
  - symmetry. apply get_user_by_username_None in Hn.
    unfold get_user_by_username in Hn. apply head_None in Hn. exact Hn.
Qed.

Lemma next_id_fresh tb :
  seq tb < next_id tb /\ forall r, r ∈ rows tb -> User.id r < next_id tb.
Proof.
  unfold next_id.
  assert (H : forall (l : list User.t) s,
            s <= foldr (fun r acc => Z.max (User.id r) acc) s l /\
            forall r, r ∈ l ->
              User.id r <= foldr (fun r acc => Z.max (User.id r) acc) s l).
  { induction l as [|x l IH]; intros s; cbn [foldr].
    - split; [lia|]. intros r Hr. inversion Hr.
    - destruct (IH s) as [IH1 IH2]. split; [lia|].
      intros r [-> | Hr]%elem_of_cons; [lia|]. specialize (IH2 r Hr). lia. }
  destruct (H (rows tb) (seq tb)) as [H1 H2]. split; [lia|].
  intros r Hr. specialize (H2 r Hr). lia.
Qed.

End UsersFacts.

Section AuthFacts.
Import Users.
Variable hashpw : string -> string -> option string.
Variable checkpw : string -> string -> option bool.

Lemma register_new username password salt tb hash :
  get_user_by_username username tb = None ->
  hashpw password salt = Some hash ->
  let u := {| User.id := next_id tb; User.username := username;
              User.password_hash := hash |} in
  register hashpw username password salt tb
  = (Returned (Some u), {| rows := rows tb ++ [u]; seq := next_id tb |}).
Proof.
  intros Hnone Hh u. unfold register, hash_password. rewrite Hnone, Hh.
  apply UsersFacts.get_user_by_username_None in Hnone.
  unfold insert_user. rewrite decide_False by assumption.
  cbv beta iota zeta. fold u.
  rewrite (UsersFacts.get_user_by_username_new username tb u _ Hnone eq_refl).
  reflexivity.
Qed.

Lemma register_hash_raises username password salt tb :
  get_user_by_username username tb = None ->
  hashpw password salt = None ->
  register hashpw username password salt tb = (Raised ValueError, tb).
Proof.
  intros Hnone Hh. unfold register, hash_password. rewrite Hnone, Hh.
  reflexivity.
Qed.

Lemma register_table_ok username password salt tb :
  table_ok tb -> table_ok (snd (register hashpw username password salt tb)).
Proof.
  intros (Hn & Hi & Hs).
  destruct (get_user_by_username username tb) as [u|] eqn:E.
  { unfold register. rewrite E. repeat split; assumption. }
  destruct (hashpw password salt) as [hash|] eqn:Hh.
  - rewrite (register_new username password salt tb hash E Hh). cbn [snd].
    apply UsersFacts.get_user_by_username_None in E.
    destruct (UsersFacts.next_id_fresh tb) as [Hseq Hfresh].
    unfold table_ok. cbn [rows seq]. rewrite !fmap_app. cbn [fmap list_fmap].
    split; [|split].
    + apply NoDup_app. split; [exact Hn|]. split; [|apply NoDup_singleton].
      intros x Hx. rewrite list_elem_of_singleton. intros ->. contradiction.
    + apply NoDup_app. split; [exact Hi|]. split; [|apply NoDup_singleton].
      intros x Hx. rewrite list_elem_of_singleton. intros ->.
      apply list_elem_of_fmap in Hx as (r & Hr1 & Hr2).
      specialize (Hfresh r Hr2). cbn in Hr1. lia.
    + apply Forall_app. split.
      * eapply Forall_impl; [exact Hs|]. intros r Hr. cbn in *. lia.
      * constructor; [cbn; lia | constructor].
  - rewrite (register_hash_raises username password salt tb E Hh).
    repeat split; assumption.
Qed.

(** X24.  [register] raises only when [bcrypt] does.  With a username
    that is taken it returns nothing and leaves the table as it is,
    without hashing the password.  With a free one it hashes the
    password first: when [bcrypt.hashpw] raises (as for a password of
    more than 72 bytes) the call raises [ValueError] and the table is
    as before; otherwise it appends one row, with an id above every id
    of the table, the username and the hash, returns that row, and
    [get_user_by_username] then finds it.  *)
Theorem register_taken_or_new username password salt tb :
  match get_user_by_username username tb with
  | Some _ => register hashpw username password salt tb = (Returned None, tb)
  | None =>
      match hashpw password salt with
      | None =>
          register hashpw username password salt tb = (Raised ValueError, tb)
      | Some hash =>
          exists u tb',
            register hashpw username password salt tb
            = (Returned (Some u), tb') /\
            rows tb' = rows tb ++ [u] /\
            User.username u = username /\
            User.password_hash u = hash /\
            Forall (fun r => User.id r < User.id u) (rows tb) /\
            get_user_by_username username tb' = Some u
      end
  end.
Proof.
  destruct (get_user_by_username username tb) as [u0|] eqn:E.
  { unfold register. rewrite E. reflexivity. }
  destruct (hashpw password salt) as [hash|] eqn:Hh.
  - eexists _, _. split; [apply register_new; [exact E | exact Hh]|].
    cbn [rows User.username User.password_hash User.id].
    split; [reflexivity|]. split; [reflexivity|]. split; [reflexivity|]. split.
    + apply Forall_forall. apply UsersFacts.next_id_fresh.
    + apply UsersFacts.get_user_by_username_None in E.
      apply UsersFacts.get_user_by_username_new; [exact E | reflexivity].
  - apply register_hash_raises; assumption.
Qed.

(** X25.  Whatever registrations were made, no two users have the same
    username or the same id. *)
Theorem usernames_stay_unique regs :
  let tb := register_all hashpw regs no_users in
  NoDup (User.username <$> rows tb) /\ NoDup (User.id <$> rows tb).
Proof.
  cbv zeta.
  assert (H : forall tb, table_ok tb -> table_ok (register_all hashpw regs tb)).
  { induction regs as [|[[u p] s] regs IH]; intros tb Hok; [exact Hok|].
    cbn [register_all foldl]. apply IH, register_table_ok, Hok. }
  destruct (H no_users) as (H1 & H2 & _); [|auto].
  repeat split; constructor.
Qed.

(** X26.  Registration and login: after [register] returned a user,
    whose stored hash is the one [bcrypt.hashpw] gave for the
    password, [authenticate] with that username does what
    [bcrypt.checkpw] does with the attempt and the stored hash: it
    returns the same user when the attempt is accepted, nothing when
    it is rejected, and raises [ValueError] when [checkpw] raises (as
    for an attempt of more than 72 bytes); a username that is in no
    row is never authenticated, and [checkpw] is not called for it. *)
Theorem authenticate_after_register username password salt tb u tb' :
  register hashpw username password salt tb = (Returned (Some u), tb') ->
  hashpw password salt = Some (User.password_hash u) /\
  (forall attempt,
     authenticate checkpw username attempt tb'
     = match checkpw attempt (User.password_hash u) with
       | Some true => Returned (Some u)
       | Some false => Returned None
       | None => Raised ValueError
       end) /\
  (forall other attempt,
     other ∉ User.username <$> rows tb' ->
     authenticate checkpw other attempt tb' = Returned None).
Proof.
  intros Hreg.
  destruct (get_user_by_username username tb) as [u0|] eqn:E.
  { unfold register in Hreg. rewrite E in Hreg. discriminate Hreg. }
  destruct (hashpw password salt) as [hash|] eqn:Hh.
  2:{ rewrite (register_hash_raises username password salt tb E Hh) in Hreg.
      discriminate Hreg. }
  rewrite (register_new username password salt tb hash E Hh) in Hreg.
  injection Hreg as <- <-. split; [reflexivity|]. split.
  - intros attempt. unfold authenticate.
    apply UsersFacts.get_user_by_username_None in E.
    rewrite UsersFacts.get_user_by_username_new by (assumption || reflexivity).
    reflexivity.
  - intros other attempt Hn. unfold authenticate.
    apply UsersFacts.get_user_by_username_None in Hn. rewrite Hn. reflexivity.
Qed.

End AuthFacts.

(** ** Instances of the further properties *)

Lemma scenario_store_ok : store_ok Scenario.store.
Proof. apply run_calls_ok, store_ok_init. Qed.

Lemma scenario_lasts_convert uid : lasts_convert Demo.utc uid Scenario.store.
Proof.
  intros hid c l ol Hc _ Hl Hol.
  apply elem_of_map_to_list in Hc.
  remember (map_to_list (Db.habits Scenario.store)) as rows eqn:E.
  vm_compute in E. subst rows.
  repeat (apply elem_of_cons in Hc as [Hc|Hc]);
    [..| apply elem_of_nil in Hc; contradiction];
    injection Hc as -> ->; cbn in Hl; try discriminate Hl;
    injection Hl as <-; cbn in Hol; injection Hol as <-;
    split; vm_compute; reflexivity.
Qed.

Lemma scenario_gym :
  get_habit 1 1 Scenario.store = (Ok Demo.gym2, Scenario.store).
Proof. vm_compute. reflexivity. Qed.

Lemma period_key_same_instant_witness :
  tzinfo Demo.jan1 = Some 0 /\ tzinfo Scenario.jan1_east = Some 3600 /\
  utc_seconds 0 Demo.jan1 = utc_seconds 3600 Scenario.jan1_east /\
  period_key Demo.utc Demo.jan1 Weekly
  = period_key Demo.utc Scenario.jan1_east Weekly.
Proof.
  split; [reflexivity|]. split; [reflexivity|]. split; [reflexivity|].
  apply (period_key_same_instant Demo.utc Demo.jan1 0 Scenario.jan1_east 3600
           Weekly); reflexivity.
Defined.

Lemma is_same_period_calendar_witness :
  tzinfo Demo.jan1 = Some 0 /\ tzinfo Demo.jan2 = Some 0 /\
  converts Demo.utc 0 Demo.jan1 /\ converts Demo.utc 0 Demo.jan2 /\
  is_same_period Demo.utc Demo.jan1 Demo.jan2 Weekly = Ok true /\
  is_same_period Demo.utc Demo.jan1 Demo.jan2 Daily = Ok false /\
  tzinfo Scenario.dec31_9999_west = Some (-18000) /\
  ~ (converts Demo.utc 0 Demo.jan1 /\
     converts Demo.utc (-18000) Scenario.dec31_9999_west) /\
  is_same_period Demo.utc Demo.jan1 Scenario.dec31_9999_west Daily = Err Overflow.
Proof.
  assert (H1 : converts Demo.utc 0 Demo.jan1) by (split; reflexivity).
  assert (H2 : converts Demo.utc 0 Demo.jan2) by (split; reflexivity).
  assert (H3 : ~ (converts Demo.utc 0 Demo.jan1 /\
                  converts Demo.utc (-18000) Scenario.dec31_9999_west)).
  { intros [_ [H _]]. vm_compute in H. discriminate H. }
  split; [reflexivity|]. split; [reflexivity|].
  split; [exact H1|]. split; [exact H2|]. split; [|split; [|split; [|split]]].
  - rewrite (proj1 (is_same_period_calendar Demo.utc Demo.jan1 0 Demo.jan2 0
                      Weekly eq_refl eq_refl) H1 H2).
    reflexivity.
  - rewrite (proj1 (is_same_period_calendar Demo.utc Demo.jan1 0 Demo.jan2 0
                      Daily eq_refl eq_refl) H1 H2).
    reflexivity.
  - reflexivity.
  - exact H3.
  - exact (proj2 (is_same_period_calendar Demo.utc Demo.jan1 0
                    Scenario.dec31_9999_west (-18000) Daily eq_refl eq_refl) H3).
Defined.

Lemma naive_datetime_rejected_witness :
  tzinfo Demo.jan2_naive = None /\
  is_due Demo.utc (Some Demo.jan2_naive) Demo.jan1 Daily = Err NaiveTimestamp /\
  is_due Demo.utc None Demo.jan2_naive Daily = Ok true /\
  is_due Demo.utc (Some Demo.jan1) Demo.jan2_naive Daily = Err NaiveTimestamp /\
  is_due Demo.utc (Some Scenario.dec31_9999_west) Demo.jan2_naive Daily
  = Err Overflow.
Proof.
  split; [reflexivity|].
  destruct (naive_datetime_rejected Demo.utc Demo.jan2_naive Demo.jan1 Daily
              eq_refl) as (_ & _ & _ & _ & H5 & H6 & H7 & _).
  destruct (naive_datetime_rejected Demo.utc Demo.jan2_naive
              Scenario.dec31_9999_west Daily eq_refl)
    as (_ & _ & _ & _ & _ & _ & H7' & _).
  split; [exact H5|]. split; [exact H6|]. split.
  - rewrite (proj2 (H7 0 eq_refl)). reflexivity.
  - rewrite (proj2 (H7' (-18000) eq_refl)). reflexivity.
Defined.


Lemma create_habit_fresh_witness :
  normalize_periodicity " Day " = Ok Daily /\ 1 ∈ Db.users Scenario.store /\
  exists h db',
    create_habit Demo.utc 1 Demo.midnight " Run " "" " Day " None Scenario.store
    = (Ok h, db') /\
    Habit.title h = "Run" /\ Habit.periodicity h = "daily" /\
    Habit.streak h = 0 /\ 2 < Habit.id h.
Proof.
  assert (Hu : 1 ∈ Db.users Scenario.store).
  { apply (bool_decide_unpack _). vm_compute. exact I. }
  split; [reflexivity|]. split; [exact Hu|].
  destruct (create_habit_fresh Demo.utc 1 Demo.midnight " Run " "" " Day " None
              Scenario.store Daily eq_refl Hu)
    as (h & db' & Hrun & _ & _ & Hseq & _ & _ & Ht & _ & Hp & _ & _ & Hs & _).
  exists h, db'. split; [exact Hrun|]. split; [exact Ht|]. split; [exact Hp|].
  split; [exact Hs|]. exact Hseq.
Defined.

Lemma create_habit_invalid_periodicity_witness :
  normalize_periodicity "monthly" = Err InvalidPeriodicity /\
  create_habit Demo.utc 1 Demo.midnight "Run" "" "monthly" None Scenario.store
  = (Err InvalidPeriodicity, Scenario.store).
Proof.
  split; [reflexivity|].
  apply (create_habit_invalid_periodicity Demo.utc 1 Demo.midnight "Run" ""
           "monthly" None Scenario.store InvalidPeriodicity).
  reflexivity.
Defined.

Lemma foreign_habit_untouched_witness :
  col_user_of Scenario.store 2 <> Some 1 /\
  edit_habit 1 2 (Some "Write") None None Scenario.store
  = (Err NotFoundOrNotOwned, Scenario.store) /\
  delete_habit 1 2 Scenario.store = (Ok false, Scenario.store).
Proof.
  assert (H : col_user_of Scenario.store 2 <> Some 1) by (vm_compute; discriminate).
  split; [exact H|].
  destruct (foreign_habit_untouched Demo.utc 1 Demo.midnight 2 Scenario.store
              (Some "Write") None None None H) as (_ & He & _ & Hd).
  split; [exact He | exact Hd].
Defined.


Lemma complete_habit_by_calendar_witness :
  get_habit 1 1 Scenario.store = (Ok Demo.gym2, Scenario.store) /\
  normalize_periodicity (Habit.periodicity Demo.gym2) = Ok Daily /\
  tzinfo (default (now_local Demo.utc Demo.midnight) (Some Demo.jan2)) = Some 0 /\
  match Habit.last_completed_at Demo.gym2 with
  | Some l' => Some l'
  | None => Db.parse_iso_dt (Db.last_completion 1 Scenario.store)
  end = Some Demo.jan1 /\
  tzinfo Demo.jan1 = Some 0 /\
  converts Demo.utc 0 Demo.jan1 /\
  converts Demo.utc 0
    (default (now_local Demo.utc Demo.midnight) (Some Demo.jan2)) /\
  next_period_exists Daily (local_date Demo.utc 0 Demo.jan1) /\
  exists log db' h',
    complete_habit Demo.utc 1 Demo.midnight 1 (Some Demo.jan2) Scenario.store
    = (Ok log, db') /\
    get_habit 1 1 db' = (Ok h', db') /\
    Habit.streak h' = 2.
Proof.
  assert (H1 : converts Demo.utc 0 Demo.jan1) by (split; reflexivity).
  assert (H2 : converts Demo.utc 0
                 (default (now_local Demo.utc Demo.midnight) (Some Demo.jan2)))
    by (split; reflexivity).
  assert (H3 : next_period_exists Daily (local_date Demo.utc 0 Demo.jan1))
    by (vm_compute; discriminate).
  split; [exact scenario_gym|]. split; [reflexivity|]. split; [reflexivity|].
  split; [reflexivity|]. split; [reflexivity|]. split; [exact H1|].
  split; [exact H2|]. split; [exact H3|].
  destruct (proj1 (complete_habit_by_calendar Demo.utc 1 Demo.midnight 1
                     Scenario.store Demo.gym2 Daily (Some Demo.jan2) 0
                     Demo.jan1 0 scenario_gym eq_refl eq_refl eq_refl eq_refl
                     H1 H2) (or_intror H3))
    as (log & db' & h' & Hrun & Hget & Hs).
  exists log, db', h'. split; [exact Hrun|]. split; [exact Hget|].
  rewrite Hs. reflexivity.
Defined.

Lemma is_due_after_completion_witness :
  get_habit 1 1 Scenario.store = (Ok Demo.gym2, Scenario.store) /\
  normalize_periodicity (Habit.periodicity Demo.gym2) = Ok Daily /\
  tzinfo (default (now_local Demo.utc Demo.midnight) (Some Demo.jan2)) = Some 0 /\
  tzinfo Demo.jan2_late = Some 0 /\
  converts Demo.utc 0
    (default (now_local Demo.utc Demo.midnight) (Some Demo.jan2)) /\
  converts Demo.utc 0 Demo.jan2_late /\
  exists log db' h',
    complete_habit Demo.utc 1 Demo.midnight 1 (Some Demo.jan2) Scenario.store
    = (Ok log, db') /\
    get_habit 1 1 db' = (Ok h', db') /\
    is_due Demo.utc (Habit.last_completed_at h') Demo.jan2_late Daily = Ok false.
Proof.
  assert (H1 : converts Demo.utc 0
                 (default (now_local Demo.utc Demo.midnight) (Some Demo.jan2)))
    by (split; reflexivity).
  assert (H2 : converts Demo.utc 0 Demo.jan2_late) by (split; reflexivity).
  split; [exact scenario_gym|]. split; [reflexivity|]. split; [reflexivity|].
  split; [reflexivity|]. split; [exact H1|]. split; [exact H2|].
  destruct (complete_habit Demo.utc 1 Demo.midnight 1 (Some Demo.jan2)
              Scenario.store) as [[log|e] db'] eqn:E;
    [| exfalso; vm_compute in E; discriminate E].
  destruct (is_due_after_completion Demo.utc 1 Demo.midnight 1 Scenario.store
              Demo.gym2 Daily (Some Demo.jan2) 0 Demo.jan2_late 0 log db'
              scenario_gym eq_refl eq_refl eq_refl H1 H2 E)
    as (h' & Hget & _ & Hdue).
  exists log, db', h'. split; [reflexivity|]. split; [exact Hget|].
  rewrite Hdue. reflexivity.
Defined.


Lemma due_habits_sound_witness :
  db_ok Scenario.store /\
  tzinfo (default (now_local Demo.utc Demo.midnight) (Some Demo.jan2)) = Some 0 /\
  converts Demo.utc 0
    (default (now_local Demo.utc Demo.midnight) (Some Demo.jan2)) /\
  lasts_convert Demo.utc 1 Scenario.store /\
  exists hs due,
    list_habits 1 Scenario.store = (Ok hs, Scenario.store) /\
    due_habits Demo.utc 1 Demo.midnight (Some Demo.jan2) Scenario.store
    = (Ok due, Scenario.store) /\
    (Demo.gym2 ∈ due <->
     Demo.gym2 ∈ hs /\
     exists p, normalize_periodicity (Habit.periodicity Demo.gym2) = Ok p /\
               is_due Demo.utc (Habit.last_completed_at Demo.gym2)
                 (default (now_local Demo.utc Demo.midnight) (Some Demo.jan2)) p
               = Ok true).
Proof.
  assert (Hok : db_ok Scenario.store) by apply scenario_store_ok.
  assert (Hc : converts Demo.utc 0
                 (default (now_local Demo.utc Demo.midnight) (Some Demo.jan2)))
    by (split; reflexivity).
  assert (Hl : lasts_convert Demo.utc 1 Scenario.store)
    by apply scenario_lasts_convert.
  split; [exact Hok|]. split; [reflexivity|]. split; [exact Hc|].
  split; [exact Hl|].
  destruct (due_habits_sound Demo.utc 1 Demo.midnight (Some Demo.jan2)
              Scenario.store 0 Hok eq_refl Hc Hl)
    as (hs & due & Hlist & Hd & _ & Hiff).
  exists hs, due. split; [exact Hlist|]. split; [exact Hd|]. apply Hiff.
Defined.

Lemma due_habits_naive_now_witness :
  db_ok Scenario.store /\ tzinfo Demo.jan2_naive = None /\
  lasts_convert Demo.utc 1 Scenario.store /\
  lasts_convert Demo.utc 2 Scenario.store /\
  due_habits Demo.utc 1 Demo.midnight (Some Demo.jan2_naive) Scenario.store
  = (Err NaiveTimestamp, Scenario.store) /\
  due_habits Demo.utc 2 Demo.midnight (Some Demo.jan2_naive) Scenario.store
  = (Ok [Db.habit_row_to_model (2, Scenario.read_row)], Scenario.store).
Proof.
  assert (Hok : db_ok Scenario.store) by apply scenario_store_ok.
  assert (Hl1 : lasts_convert Demo.utc 1 Scenario.store)
    by apply scenario_lasts_convert.
  assert (Hl2 : lasts_convert Demo.utc 2 Scenario.store)
    by apply scenario_lasts_convert.
  split; [exact Hok|]. split; [reflexivity|]. split; [exact Hl1|].
  split; [exact Hl2|]. split.
  - destruct (due_habits_naive_now Demo.utc 1 Demo.midnight Demo.jan2_naive
                Scenario.store Hok eq_refl Hl1) as (hs & Hl & _ & Hex).
    apply Hex.
    assert (E : hs = [Demo.gym2]).
    { assert (E' : Ok hs = fst (list_habits 1 Scenario.store)) by (rewrite Hl; reflexivity).
      vm_compute in E'. injection E' as ->. reflexivity. }
    rewrite E. constructor. discriminate.
  - destruct (due_habits_naive_now Demo.utc 2 Demo.midnight Demo.jan2_naive
                Scenario.store Hok eq_refl Hl2) as (hs & Hl & Hall & _).
    assert (E : hs = [Db.habit_row_to_model (2, Scenario.read_row)]).
    { assert (E' : Ok hs = fst (list_habits 2 Scenario.store)) by (rewrite Hl; reflexivity).
      vm_compute in E'. injection E' as ->. reflexivity. }
    rewrite <- E. apply Hall. rewrite E. constructor; [reflexivity | constructor].
Defined.

Lemma habit_ids_never_reused_witness :
  is_Some (Db.habits (run_calls Demo.utc Scenario.calls (init_store {[ 1; 2 ]}))
             !! 2) /\
  exists h db',
    create_habit Demo.utc 2 Demo.midnight "Read" "" "weekly" None
      (run_calls Demo.utc [DeleteHabit 2 2]
         (run_calls Demo.utc Scenario.calls (init_store {[ 1; 2 ]})))
    = (Ok h, db') /\
    2 < Habit.id h.
Proof.
  assert (H1 : is_Some (Db.habits (run_calls Demo.utc Scenario.calls
                                     (init_store {[ 1; 2 ]})) !! 2)).
  { exists Scenario.read_row. vm_compute. reflexivity. }
  split; [exact H1|].
  destruct (create_habit Demo.utc 2 Demo.midnight "Read" "" "weekly" None
              (run_calls Demo.utc [DeleteHabit 2 2]
                 (run_calls Demo.utc Scenario.calls (init_store {[ 1; 2 ]}))))
    as [[h|e] db'] eqn:E.
  - exists h, db'. split; [reflexivity|].
    exact (habit_ids_never_reused Demo.utc {[ 1; 2 ]} Scenario.calls
             [DeleteHabit 2 2] 2 2 Demo.midnight "Read" "" "weekly" None h db'
             H1 E).
  - exfalso. vm_compute in E. discriminate.
Defined.

Lemma longest_streak_overall_order_witness :
  [Demo.with_streak "A" 1; Demo.with_streak "B" 2]
  ≡ₚ [Demo.with_streak "B" 2; Demo.with_streak "A" 1] /\
  snd (Analytics.longest_streak_overall
         [Demo.with_streak "A" 1; Demo.with_streak "B" 2])
  = snd (Analytics.longest_streak_overall
           [Demo.with_streak "B" 2; Demo.with_streak "A" 1]).
Proof.
  assert (H : [Demo.with_streak "A" 1; Demo.with_streak "B" 2]
              ≡ₚ [Demo.with_streak "B" 2; Demo.with_streak "A" 1])
    by apply perm_swap.
  split; [exact H|]. exact (longest_streak_overall_order _ _ H).
Defined.

Lemma edit_habit_idempotent_witness :
  exists h,
    edit_habit 1 1 None None (Some "Weekly") Demo.store2 = (Ok h, Demo.store3) /\
    edit_habit 1 1 None None (Some "Weekly") Demo.store3 = (Ok h, Demo.store3).
Proof.
  destruct (edit_habit 1 1 None None (Some "Weekly") Demo.store2)
    as [[h|e] db'] eqn:E.
  - assert (Hdb : db' = Demo.store3).
    { change Demo.store3
        with (snd (edit_habit 1 1 None None (Some "Weekly") Demo.store2)).
      rewrite E. reflexivity. }
    subst db'. exists h. split; [reflexivity|].
    exact (edit_habit_idempotent 1 1 None None (Some "Weekly") Demo.store2 h
             Demo.store3 E).
  - exfalso. vm_compute in E. discriminate.
Defined.

Lemma other_users_calls_change_nothing_witness :
  Db.habits Scenario.store !! 2 = Some Scenario.read_row /\
  Forall (fun c => call_user c <> Db.col_user_id Scenario.read_row)
    Scenario.calls_of_user1 /\
  Db.habits (run_calls Demo.utc Scenario.calls_of_user1 Scenario.store) !! 2
  = Some Scenario.read_row /\
  completions_of (run_calls Demo.utc Scenario.calls_of_user1 Scenario.store) 2
  = completions_of Scenario.store 2.
Proof.
  assert (H1 : Db.habits Scenario.store !! 2 = Some Scenario.read_row)
    by (vm_compute; reflexivity).
  assert (H2 : Forall (fun c => call_user c <> Db.col_user_id Scenario.read_row)
                 Scenario.calls_of_user1).
  { repeat (constructor; [discriminate|]). constructor. }
  split; [exact H1|]. split; [exact H2|].
  exact (other_users_calls_change_nothing Demo.utc Scenario.calls_of_user1
           Scenario.store 2 Scenario.read_row H1 H2).
Defined.

Lemma authenticate_after_register_witness :
  exists u tb',
    register Scenario.toy_hashpw "demo" "secret" "$2b$" no_users
    = (Users.Returned (Some u), tb') /\
    authenticate Scenario.toy_checkpw "demo" "secret" tb'
    = Users.Returned (Some u) /\
    authenticate Scenario.toy_checkpw "demo" "Secret" tb' = Users.Returned None /\
    authenticate Scenario.toy_checkpw "demo" Scenario.long_password tb'
    = Users.Raised Users.ValueError /\
    authenticate Scenario.toy_checkpw "Demo" "secret" tb' = Users.Returned None.
Proof.
  destruct (register Scenario.toy_hashpw "demo" "secret" "$2b$" no_users)
    as [[[u|]|e] tb'] eqn:E;
    try (exfalso; vm_compute in E; discriminate E).
  exists u, tb'. split; [reflexivity|].
  destruct (authenticate_after_register Scenario.toy_hashpw Scenario.toy_checkpw
              "demo" "secret" "$2b$" no_users u tb' E) as (Hh & H1 & H2).
  assert (Eh : User.password_hash u = "$2b$secret").
  { vm_compute in Hh. injection Hh as Hh. symmetry. exact Hh. }
  split; [rewrite H1, Eh; reflexivity|].
  split; [rewrite H1, Eh; reflexivity|].
  split; [rewrite H1, Eh; reflexivity|].
  apply H2.
  assert (Etb : tb' = snd (register Scenario.toy_hashpw "demo" "secret" "$2b$"
                             no_users)) by (rewrite E; reflexivity).
  rewrite Etb. vm_compute. intros Hin.
  apply list_elem_of_singleton in Hin. discriminate Hin.
Defined.
